(** * The [levels] cog of dismob: a shallow embedding and its properties

    The cog keeps one row of progress per (guild, user) in an SQLite table,
    derives a level from the accumulated points with a closed formula,
    grants and revokes reward roles when the level changes, and is driven by
    three kinds of events: a message, the periodic voice tick and the slash
    commands.

    The file first embeds the source ([src/main.py]) as Rocq functions and
    then states and proves properties of these functions. *)

From Stdlib Require Import ZArith List String Bool Lia DecimalString.
From Stdlib Require Import Floats.SpecFloat.
From Stdlib Require DecimalZ DecimalPos.
Import ListNotations.

Local Open Scope string_scope.
Local Open Scope list_scope.
Local Open Scope Z_scope.

(* ================================================================= *)
(** * Part I: the embedding *)
(* ================================================================= *)

(** ** Python numbers

    Python's [int] is unbounded and is embedded as [Z].  Python's [float] is
    an IEEE-754 binary64 number; it is embedded as a [spec_float] with the
    binary64 parameters, and the operations are the correctly rounded ones
    of [SpecFloat] (round to nearest, ties to even).  An operation that
    raises ([ZeroDivisionError], [OverflowError], [ValueError]) returns
    [None]. *)

Module PyFloat.

Definition prec : Z := 53.
Definition emax : Z := 1024.

(** [finite_or_raise x]: the result of an arithmetic operator whose operands
    were finite; Python raises [OverflowError] instead of returning an
    infinity from [int / int]. *)
Definition finite_or_raise (x : spec_float) : option spec_float :=
  match x with
  | S754_infinity _ | S754_nan => None
  | _ => Some x
  end.

(** [a / b] on two [int]s: the quotient of the two integers, rounded once. *)
Definition true_div (a b : Z) : option spec_float :=
  match b with
  | Z0 => None
  | _ =>
    match a with
    | Z0 => Some (S754_zero (b <? 0))
    | _ =>
      finite_or_raise
        (SFdiv prec emax
           (S754_finite (a <? 0) (Z.to_pos (Z.abs a)) 0)
           (S754_finite (b <? 0) (Z.to_pos (Z.abs b)) 0))
    end
  end.

(** [math.sqrt x]: raises [ValueError] on a negative argument. *)
Definition math_sqrt (x : spec_float) : option spec_float :=
  match x with
  | S754_finite true _ _ | S754_infinity true | S754_nan => None
  | _ => Some (SFsqrt prec emax x)
  end.

(** [int(x)] on a float: truncation towards zero; raises on an infinity or
    a NaN. *)
Definition py_int (x : spec_float) : option Z :=
  match x with
  | S754_zero _ => Some 0
  | S754_finite s m e =>
      let a := match e with
               | Zneg k => Z.shiftr (Zpos m) (Zpos k)
               | _ => Z.shiftl (Zpos m) e
               end in
      Some (if s then - a else a)
  | S754_infinity _ | S754_nan => None
  end.

(** [float(n)], the conversion applied to the [int] operand of a mixed
    operation; raises [OverflowError] when [n] is too large. *)
Definition of_int (n : Z) : option spec_float :=
  finite_or_raise (binary_normalize prec emax n 0 false).

Definition zero : spec_float := S754_zero false.
Definition one : spec_float := S754_finite false 4503599627370496 (-52).
Definition half : spec_float := S754_finite false 4503599627370496 (-53).

Definition add (x y : spec_float) : spec_float := SFadd prec emax x y.
Definition mul (x y : spec_float) : spec_float := SFmul prec emax x y.

(** [n * x] with [n] an [int] and [x] a [float]. *)
Definition int_mul (n : Z) (x : spec_float) : option spec_float :=
  match of_int n with
  | Some fn => Some (mul fn x)
  | None => None
  end.

(** [x < 0] and [x == 0]. *)
Definition ltb_zero (x : spec_float) : bool := SFltb x zero.
Definition eqb_zero (x : spec_float) : bool := SFeqb x zero.

(** [x < n] with [x] a [float] and [n] an [int]: Python compares the two
    values exactly, without converting [n] to a float. *)
Definition lt_int (x : spec_float) (n : Z) : bool :=
  match x with
  | S754_zero _ => 0 <? n
  | S754_finite s m e =>
      let v := if s then Zneg m else Zpos m in
      match e with
      | Zneg k => v <? n * 2 ^ Zpos k
      | _ => v * 2 ^ e <? n
      end
  | S754_infinity s => s
  | S754_nan => false
  end.

End PyFloat.

(** [str(n)] and [int(s)] on decimal numerals.  [int_of_decimal] accepts the
    strings [str] produces (an optional minus sign and digits). *)
Definition str (n : Z) : string := NilZero.string_of_int (Z.to_int n).

Definition int_of_decimal (s : string) : option Z :=
  option_map Z.of_int (NilZero.int_of_string s).

(** ** The level formula *)

(** [calculate_level]: [0] below 75 points, otherwise
    [int(math.sqrt(exp / 75))], computed in binary64. *)
Definition calculate_level (exp : Z) : option Z :=
  if exp <? 75 then Some 0
  else
    match PyFloat.true_div exp 75 with
    | None => None
    | Some x =>
      match PyFloat.math_sqrt x with
      | None => None
      | Some y => PyFloat.py_int y
      end
    end.

Definition calculate_exp_for_level (level : Z) : Z := 75 * level * level.

(** The level the specification asks for: [floor(sqrt(points / 75))] from 75
    points on, [0] below. *)
Definition spec_level (points : Z) : Z :=
  if points <? 75 then 0 else Z.sqrt (points / 75).

(** ** Exceptions *)

Inductive PyExn : Type :=
| TypeError
| KeyError
| ValueError
| OverflowError.

(** ** The tables *)

(** A row of [user_levels].  The columns [id], [created_at] and [updated_at]
    are bookkeeping and are left out; times are microseconds. *)
Record UserRow : Type := mkUserRow {
  guild_id : Z;
  user_id : Z;
  exp : Z;
  level : Z;
  total_messages : Z;
  voice_time : Z;
  welcome : Z;
  last_message_time : option Z
}.

(** A row of [user_rewards]. *)
Record RewardRow : Type := mkRewardRow {
  rw_guild_id : Z;
  rw_user_id : Z;
  level_reached : Z;
  role_id : Z
}.

(** The dictionary [get_user_data] returns. *)
Record UserData : Type := mkUserData {
  ud_user_id : Z;
  ud_exp : Z;
  ud_level : Z;
  ud_total_messages : Z;
  ud_voice_time : Z;
  ud_welcome : Z
}.

(** An SQLite [INTEGER] holds 64 bits; binding a larger Python [int] raises
    [OverflowError]. *)
Definition fits_sqlite_integer (n : Z) : bool :=
  (- 2 ^ 63 <=? n) && (n <? 2 ^ 63).

(** ** The configuration

    The configuration is a JSON object read as a Python [dict]; a key that
    may be absent is an [option].  A [dict] is an association list with
    unique keys in insertion order. *)

(** A key of a Python [dict]: the integer [42] and the string ["42"] are
    different keys. *)
Inductive PyKey : Type :=
| KInt (n : Z)
| KStr (s : string).

Definition PyKey_eqb (a b : PyKey) : bool :=
  match a, b with
  | KInt x, KInt y => x =? y
  | KStr x, KStr y => String.eqb x y
  | _, _ => false
  end.

Section Dict.
Context {K V : Type}.
Variable eqb : K -> K -> bool.

(** [d.get(k)] *)
Fixpoint dict_get (d : list (K * V)) (k : K) : option V :=
  match d with
  | [] => None
  | (k', v) :: d' => if eqb k k' then Some v else dict_get d' k
  end.

(** [d[k] = v] *)
Fixpoint dict_set (d : list (K * V)) (k : K) (v : V) : list (K * V) :=
  match d with
  | [] => [(k, v)]
  | (k', v') :: d' =>
      if eqb k k' then (k', v) :: d' else (k', v') :: dict_set d' k v
  end.

(** [del d[k]] on a key that is present *)
Fixpoint dict_del (d : list (K * V)) (k : K) : list (K * V) :=
  match d with
  | [] => []
  | (k', v') :: d' => if eqb k k' then d' else (k', v') :: dict_del d' k
  end.

Definition dict_mem (d : list (K * V)) (k : K) : bool :=
  match dict_get d k with
  | Some _ => true
  | None => false
  end.
End Dict.

(** [x in l] and [l.remove(x)] on a list of integers. *)
Definition mem (x : Z) (l : list Z) : bool := existsb (Z.eqb x) l.

Fixpoint list_remove (x : Z) (l : list Z) : list Z :=
  match l with
  | [] => []
  | y :: l' => if x =? y then l' else y :: list_remove x l'
  end.

Record Config : Type := mkConfig {
  level_rewards : option (list (string * Z));
  remove_previous_rewards : option bool;
  blacklisted_channels : option (list Z);
  message_cooldown : option Z;
  exp_per_message : option Z;
  exp_per_voice_minute : option Z;
  role_multipliers : option (list (PyKey * spec_float));
  admin_roles : option (list Z);
  level_manager_roles : option (list Z);
  level_channel_id : option Z;
  rewards_messages : option (list (string * string))
}.

(** [default d o]: [config.get(key, d)]. *)
Definition default {A : Type} (d : A) (o : option A) : A :=
  match o with
  | Some a => a
  | None => d
  end.

(** ** The state of the cog *)

Record State : Type := mkState {
  db_ready : bool;
  config : Config;
  user_levels : list UserRow;
  user_rewards : list RewardRow;
  message_cooldowns : list (Z * Z)
}.

Definition set_config (st : State) (c : Config) : State :=
  mkState (db_ready st) c (user_levels st) (user_rewards st)
          (message_cooldowns st).

Definition set_user_levels (st : State) (t : list UserRow) : State :=
  mkState (db_ready st) (config st) t (user_rewards st)
          (message_cooldowns st).

Definition set_user_rewards (st : State) (t : list RewardRow) : State :=
  mkState (db_ready st) (config st) (user_levels st) t
          (message_cooldowns st).

Definition set_message_cooldowns (st : State) (c : list (Z * Z)) : State :=
  mkState (db_ready st) (config st) (user_levels st) (user_rewards st) c.

(** ** What the platform hands to the cog *)

(** A guild member: identifiers, the [bot] flag, the identifiers of the
    roles held, the administrator permission and the self-deafened flag of
    the voice state. *)
Record Member : Type := mkMember {
  member_id : Z;
  member_guild : Z;
  bot : bool;
  roles : list Z;
  administrator : bool;
  self_deaf : bool
}.

Record Message : Type := mkMessage {
  author : Member;
  message_guild : option Z;
  channel_id : Z
}.

Record VoiceChannel : Type := mkVoiceChannel {
  vc_id : Z;
  vc_members : list Member
}.

Record Guild : Type := mkGuild {
  g_id : Z;
  voice_channels : list VoiceChannel
}.

(** ** Reading and creating a row *)

Definition row_matches (g u : Z) (r : UserRow) : bool :=
  (guild_id r =? g) && (user_id r =? u).

Definition default_user_data (u : Z) : UserData := mkUserData u 0 0 0 0 0.

Definition new_row (g u : Z) : UserRow := mkUserRow g u 0 0 0 0 0 None.

(** [get_user_data]: the first matching row, or a fresh row inserted on the
    spot; the defaults without touching the table when the store is down. *)
Definition get_user_data (st : State) (g u : Z) : State * UserData :=
  if negb (db_ready st) then (st, default_user_data u)
  else
    match find (row_matches g u) (user_levels st) with
    | Some r =>
        (st, mkUserData (user_id r) (exp r) (level r) (total_messages r)
                        (voice_time r) (welcome r))
    | None =>
        (set_user_levels st (user_levels st ++ [new_row g u]),
         default_user_data u)
    end.

(** ** Gaining points *)

Inductive ExpGainType : Type :=
| MESSAGE
| VOICE
| WELCOME.

(** The [SET] clause [get_update_sql] selects, applied to one row. *)
Definition apply_update_sql (gain_type : ExpGainType) (new_exp new_level : Z)
    (now : Z) (r : UserRow) : UserRow :=
  match gain_type with
  | VOICE =>
      mkUserRow (guild_id r) (user_id r) new_exp new_level (total_messages r)
                (voice_time r + 1) (welcome r) (last_message_time r)
  | WELCOME =>
      mkUserRow (guild_id r) (user_id r) new_exp new_level (total_messages r)
                (voice_time r) (welcome r + 1) (last_message_time r)
  | MESSAGE =>
      mkUserRow (guild_id r) (user_id r) new_exp new_level
                (total_messages r + 1) (voice_time r) (welcome r) (Some now)
  end.

(** [UPDATE user_levels SET ... WHERE guild_id = g AND user_id = u]. *)
Definition update_where (g u : Z) (f : UserRow -> UserRow)
    (t : list UserRow) : list UserRow :=
  map (fun r => if row_matches g u r then f r else r) t.

(** What [update_user_exp] hands back: the triple it returns and the
    reward task it has spawned, if any. *)
Record ExpUpdate : Type := mkExpUpdate {
  old_level : Z;
  new_level : Z;
  exp_gained : Z;
  spawned : list (Member * Z)
}.

Definition no_update : ExpUpdate := mkExpUpdate 0 0 0 [].

(** [update_user_exp]: an exception inside the [try] block (here: the
    overflow of the level computation or of an SQLite parameter) is logged
    and [(0, 0, 0)] is returned. *)
Definition update_user_exp (st : State) (user : Member) (exp_gain : Z)
    (gain_type : ExpGainType) (now : Z) : State * ExpUpdate :=
  if negb (db_ready st) then (st, no_update)
  else
    let '(st1, user_data) :=
      get_user_data st (member_guild user) (member_id user) in
    let old := ud_level user_data in
    let new_exp := Z.max 0 (ud_exp user_data + exp_gain) in
    match calculate_level new_exp with
    | None => (st1, no_update)
    | Some new =>
        if fits_sqlite_integer new_exp && fits_sqlite_integer new then
          (set_user_levels st1
             (update_where (member_guild user) (member_id user)
                (apply_update_sql gain_type new_exp new now)
                (user_levels st1)),
           mkExpUpdate old new exp_gain
             (if new =? old then [] else [(user, new)]))
        else (st1, no_update)
    end.

(** [calculate_exp_from_activity]: a missing rate raises [KeyError]. *)
Definition calculate_exp_from_activity (c : Config) (messages voice_minutes : Z)
    : option Z :=
  match exp_per_message c, exp_per_voice_minute c with
  | Some m, Some v => Some (messages * m + voice_minutes * v)
  | _, _ => None
  end.

(** [get_multiplier]: one plus the bonuses found under the identifiers of
    the roles held; the lookup key is the integer [role.id]. *)
Definition get_multiplier (c : Config) (member : Member) : spec_float :=
  let role_multipliers := default [] (role_multipliers c) in
  PyFloat.add PyFloat.one
    (fold_left
       (fun bonus r =>
          PyFloat.add bonus
            (default PyFloat.zero
               (dict_get PyKey_eqb role_multipliers (KInt r))))
       (roles member) PyFloat.zero).

(** [is_admin] *)
Definition is_admin (c : Config) (user : Member) : bool :=
  administrator user
  || existsb (fun r => mem r (default [] (admin_roles c))) (roles user).

(** [int(base_exp * multiplier)]: the conversion of [base_exp] to a float
    may overflow, and [int] raises on an infinity or a NaN. *)
Definition scaled_exp (base_exp : Z) (multiplier : spec_float) : PyExn + Z :=
  match PyFloat.int_mul base_exp multiplier with
  | None => inl OverflowError
  | Some x =>
      match PyFloat.py_int x with
      | Some n => inr n
      | None =>
          inl (match x with S754_nan => ValueError | _ => OverflowError end)
      end
  end.

(** ** Reward reconciliation *)

Section Rewards.

(** Python's [int] on a string ([None]: [ValueError]), the roles the guild
    knows ([guild.get_role]) and the outcome of the two API calls that add
    and remove a role. *)
Variable int_of_str : string -> option Z.
Variable guild_has_role : Z -> bool.
Variable add_roles_ok : Z -> bool.
Variable remove_roles_ok : Z -> bool.

(** The entries of [level_rewards] whose key is a number, in the order of
    the dictionary; the others are logged and skipped. *)
Definition parse_rewards (d : list (string * Z)) : list (Z * Z) :=
  flat_map
    (fun '(role_level_str, role) =>
       match int_of_str role_level_str with
       | Some role_level => [(role_level, role)]
       | None => []
       end) d.

Definition applicable_roles (member_level : Z) (d : list (string * Z))
    : list (Z * Z) :=
  filter (fun '(role_level, _) => role_level <=? member_level)
         (parse_rewards d).

Definition non_applicable_roles (member_level : Z) (d : list (string * Z))
    : list (Z * Z) :=
  filter (fun '(role_level, _) => negb (role_level <=? member_level))
         (parse_rewards d).

(** The loop that looks for the topmost role: [(highest_level,
    topmost_role_id)], starting from [(-1, None)]. *)
Definition topmost_step (acc : Z * option Z) (entry : Z * Z)
    : Z * option Z :=
  let '(highest_level, topmost_role_id) := acc in
  let '(role_level, role) := entry in
  if role_level >? highest_level then (role_level, Some role)
  else (highest_level, topmost_role_id).

Definition topmost_role (applicable : list (Z * Z)) : Z * option Z :=
  fold_left topmost_step applicable (-1, None).

(** [role_id == topmost_role_id] *)
Definition is_topmost (topmost_role_id : option Z) (role : Z) : bool :=
  match topmost_role_id with
  | Some t => role =? t
  | None => false
  end.

Definition roles_to_add (remove_previous : bool) (held : list Z)
    (topmost_role_id : option Z) (applicable : list (Z * Z))
    : list (Z * Z) :=
  flat_map
    (fun '(role_level, role) =>
       if negb (guild_has_role role) then []
       else if negb (mem role held) then
         if negb remove_previous || is_topmost topmost_role_id role
         then [(role_level, role)] else []
       else [])
    applicable.

Definition roles_to_remove (remove_previous : bool) (held : list Z)
    (topmost_role_id : option Z) (applicable non_applicable : list (Z * Z))
    : list (Z * Z) :=
  flat_map
    (fun '(role_level, role) =>
       if negb (guild_has_role role) then []
       else if negb (mem role held) then []
       else if remove_previous && negb (is_topmost topmost_role_id role)
       then [(role_level, role)] else [])
    applicable
  ++
  flat_map
    (fun '(role_level, role) =>
       if guild_has_role role && mem role held then [(role_level, role)]
       else [])
    non_applicable.

(** The values bound to the [INSERT] and to the [DELETE]: binding one that
    does not fit an SQLite [INTEGER] raises [OverflowError]. *)
Definition binds_reward (g u role_level role : Z) : bool :=
  fits_sqlite_integer g && fits_sqlite_integer u
  && fits_sqlite_integer role_level && fits_sqlite_integer role.

(** The roles held by the member, the [user_rewards] table with the writes
    that are not committed yet, and whether an exception has ended the [try]
    block; threaded through the two loops that call the API.  The call to
    the API comes before the statement is executed, so the role has changed
    when the binding raises. *)
Definition grant (g u : Z) (acc : list Z * list RewardRow * bool)
    (entry : Z * Z) : list Z * list RewardRow * bool :=
  let '(held, table, raised) := acc in
  let '(role_level, role) := entry in
  if raised then acc
  else if add_roles_ok role then
    if binds_reward g u role_level role
    then (held ++ [role], table ++ [mkRewardRow g u role_level role], false)
    else (held ++ [role], table, true)
  else acc.

Definition reward_row_is (g u role_level role : Z) (r : RewardRow) : bool :=
  (rw_guild_id r =? g) && (rw_user_id r =? u)
  && (level_reached r =? role_level) && (role_id r =? role).

Definition revoke (g u : Z) (acc : list Z * list RewardRow * bool)
    (entry : Z * Z) : list Z * list RewardRow * bool :=
  let '(held, table, raised) := acc in
  let '(role_level, role) := entry in
  if raised then acc
  else if remove_roles_ok role then
    if binds_reward g u role_level role
    then (filter (fun r => negb (r =? role)) held,
          filter (fun r => negb (reward_row_is g u role_level role r)) table,
          false)
    else (filter (fun r => negb (r =? role)) held, table, true)
  else acc.

(** [update_rewards]: the new state and the roles the member holds
    afterwards.  The two loops run inside one [try] block and one
    connection: an exception ends both loops, is logged, and the writes made
    so far are not committed.  The announcement sent at the end changes
    neither the state nor the roles. *)
Definition update_rewards (st : State) (member : Member) (member_level : Z)
    : State * list Z :=
  let level_rewards := default [] (level_rewards (config st)) in
  let remove_previous := default true (remove_previous_rewards (config st)) in
  let applicable := applicable_roles member_level level_rewards in
  let non_applicable := non_applicable_roles member_level level_rewards in
  let topmost_role_id := snd (topmost_role applicable) in
  let to_add :=
    roles_to_add remove_previous (roles member) topmost_role_id applicable in
  let to_remove :=
    roles_to_remove remove_previous (roles member) topmost_role_id
                    applicable non_applicable in
  if db_ready st then
    let g := member_guild member in
    let u := member_id member in
    let acc1 :=
      fold_left (grant g u) to_add (roles member, user_rewards st, false) in
    let '(held, table, raised) := fold_left (revoke g u) to_remove acc1 in
    (if raised then st else set_user_rewards st table, held)
  else (st, roles member).

End Rewards.

(** ** Events *)

(** How a handler ends: it returns, or an exception escapes from it. *)
Inductive Outcome : Type :=
| Done
| Raised (e : PyExn).

(** [time_diff < message_cooldown], where [time_diff] is
    [(current_time - last).total_seconds()]: the number of microseconds
    between the two times, divided by [10**6] in binary64; the float is then
    compared with the integer setting.  [None], a quotient beyond the
    floats, needs a difference of more than [10^300] microseconds, which two
    [datetime]s never have. *)
Definition within_cooldown (c : Config) (last now : Z) : bool :=
  match PyFloat.true_div (now - last) 1000000 with
  | Some time_diff =>
      PyFloat.lt_int time_diff (default 0 (message_cooldown c))
  | None => false
  end.

(** [on_message] *)
Definition on_message (st : State) (message : Message) (now : Z)
    : State * Outcome :=
  if bot (author message)
     || match message_guild message with Some _ => false | None => true end
  then (st, Done)
  else if negb (db_ready st) then (st, Done)
  else if mem (channel_id message)
              (default [] (blacklisted_channels (config st)))
  then (st, Done)
  else
    let uid := member_id (author message) in
    if match dict_get Z.eqb (message_cooldowns st) uid with
       | Some last => within_cooldown (config st) last now
       | None => false
       end
    then (st, Done)
    else
      let base_exp := default 0 (exp_per_message (config st)) in
      let multiplier := get_multiplier (config st) (author message) in
      match scaled_exp base_exp multiplier with
      | inl e => (st, Raised e)
      | inr final_exp =>
          let '(st1, _) :=
            update_user_exp st (author message) final_exp MESSAGE now in
          (set_message_cooldowns st1
             (dict_set Z.eqb (message_cooldowns st1) uid now),
           Done)
      end.

(** *** The voice tick *)

(** The parameters of [update_user_exp] (after [self]), and Python's rule
    for a call with keyword arguments: a keyword that names no parameter
    raises [TypeError] before the body runs. *)
Definition update_user_exp_parameters : list string :=
  ["user"; "exp_gain"; "gain_type"].

Definition binds (parameters keywords : list string) : bool :=
  forallb (fun k => existsb (String.eqb k) parameters) keywords.

(** A call [update_user_exp(member, final_exp, **keywords)] that leaves
    [gain_type] to its default. *)
Definition call_update_user_exp (keywords : list string) (now : Z)
    (st : State) (member : Member) (final_exp : Z) : State * Outcome :=
  if binds update_user_exp_parameters keywords
  then (fst (update_user_exp st member final_exp MESSAGE now), Done)
  else (st, Raised TypeError).

(** The call the signature provides for voice activity,
    [update_user_exp(member, final_exp, ExpGainType.VOICE)]. *)
Definition call_update_user_exp_voice (now : Z) (st : State)
    (member : Member) (final_exp : Z) : State * Outcome :=
  (fst (update_user_exp st member final_exp VOICE now), Done).

Definition active_members (voice_channel : VoiceChannel) : list Member :=
  filter (fun m => negb (bot m) && negb (self_deaf m))
         (vc_members voice_channel).

Section VoiceTick.

(** The call made for each active member. *)
Variable award : State -> Member -> Z -> State * Outcome.

Fixpoint award_members (base_exp : Z) (st : State) (members : list Member)
    : State * Outcome :=
  match members with
  | [] => (st, Done)
  | member :: rest =>
      match scaled_exp base_exp (get_multiplier (config st) member) with
      | inl e => (st, Raised e)
      | inr final_exp =>
          match award st member final_exp with
          | (st1, Done) => award_members base_exp st1 rest
          | (st1, Raised e) => (st1, Raised e)
          end
      end
  end.

Fixpoint award_channels (blacklisted : list Z) (base_exp : Z) (st : State)
    (channels : list VoiceChannel) : State * Outcome :=
  match channels with
  | [] => (st, Done)
  | voice_channel :: rest =>
      if mem (vc_id voice_channel) blacklisted
      then award_channels blacklisted base_exp st rest
      else if (Z.of_nat (List.length (active_members voice_channel)) <? 2)
      then award_channels blacklisted base_exp st rest
      else
        match award_members base_exp st (active_members voice_channel) with
        | (st1, Done) => award_channels blacklisted base_exp st1 rest
        | (st1, Raised e) => (st1, Raised e)
        end
  end.

Fixpoint award_guilds (blacklisted : list Z) (st : State)
    (guilds : list Guild) : State * Outcome :=
  match guilds with
  | [] => (st, Done)
  | guild :: rest =>
      let base_exp := default 0 (exp_per_voice_minute (config st)) in
      match award_channels blacklisted base_exp st (voice_channels guild) with
      | (st1, Done) => award_guilds blacklisted st1 rest
      | (st1, Raised e) => (st1, Raised e)
      end
  end.

Definition voice_exp_task_with (st : State) (guilds : list Guild)
    : State * Outcome :=
  if negb (db_ready st) then (st, Done)
  else
    award_guilds (default [] (blacklisted_channels (config st))) st guilds.

End VoiceTick.

(** [voice_exp_task]: the source calls
    [update_user_exp(member, final_exp, from_voice=True)]. *)
Definition voice_exp_task (st : State) (guilds : list Guild) (now : Z)
    : State * Outcome :=
  voice_exp_task_with (call_update_user_exp ["from_voice"] now) st guilds.

(** ** Slash commands *)

(** What a command sends back: the kind of reply ([log.failure],
    [log.success], [log.client], an embed) and its fixed text; the
    placeholders of a formatted text are kept as written in the source, and
    the fields of an embed are presentation and are left out. *)
Inductive Response : Type :=
| Failure (msg : string)
| Success (msg : string)
| Client (msg : string)
| Embed (title : string).

Record Interaction : Type := mkInteraction {
  user : Member;
  interaction_guild : Z
}.

(** The end of a command: the reply sent or the exception that escaped, and
    the reward tasks handed to [asyncio.create_task]. *)
Record Reply : Type := mkReply {
  response : PyExn + Response;
  tasks : list (Member * Z)
}.

Definition respond (r : Response) : Reply := mkReply (inr r) [].
Definition raise (e : PyExn) : Reply := mkReply (inl e) [].

Definition no_permission : string :=
  "Tu n'as pas la permission d'utiliser cette commande.".
Definition db_unavailable : string := "Base de données non disponible.".
Definition db_unavailable_long : string :=
  "Base de données non disponible. Le système de niveaux est temporairement indisponible.".

(** *** Writing one key of the configuration *)

Definition set_level_rewards (c : Config) (v : list (string * Z)) : Config :=
  mkConfig (Some v) (remove_previous_rewards c) (blacklisted_channels c)
    (message_cooldown c) (exp_per_message c) (exp_per_voice_minute c)
    (role_multipliers c) (admin_roles c) (level_manager_roles c)
    (level_channel_id c) (rewards_messages c).

Definition set_remove_previous_rewards (c : Config) (v : bool) : Config :=
  mkConfig (level_rewards c) (Some v) (blacklisted_channels c)
    (message_cooldown c) (exp_per_message c) (exp_per_voice_minute c)
    (role_multipliers c) (admin_roles c) (level_manager_roles c)
    (level_channel_id c) (rewards_messages c).

Definition set_blacklisted_channels (c : Config) (v : list Z) : Config :=
  mkConfig (level_rewards c) (remove_previous_rewards c) (Some v)
    (message_cooldown c) (exp_per_message c) (exp_per_voice_minute c)
    (role_multipliers c) (admin_roles c) (level_manager_roles c)
    (level_channel_id c) (rewards_messages c).

Definition set_message_cooldown (c : Config) (v : Z) : Config :=
  mkConfig (level_rewards c) (remove_previous_rewards c)
    (blacklisted_channels c) (Some v) (exp_per_message c)
    (exp_per_voice_minute c) (role_multipliers c) (admin_roles c)
    (level_manager_roles c) (level_channel_id c) (rewards_messages c).

Definition set_exp_per_message (c : Config) (v : Z) : Config :=
  mkConfig (level_rewards c) (remove_previous_rewards c)
    (blacklisted_channels c) (message_cooldown c) (Some v)
    (exp_per_voice_minute c) (role_multipliers c) (admin_roles c)
    (level_manager_roles c) (level_channel_id c) (rewards_messages c).

Definition set_exp_per_voice_minute (c : Config) (v : Z) : Config :=
  mkConfig (level_rewards c) (remove_previous_rewards c)
    (blacklisted_channels c) (message_cooldown c) (exp_per_message c)
    (Some v) (role_multipliers c) (admin_roles c) (level_manager_roles c)
    (level_channel_id c) (rewards_messages c).

Definition set_role_multipliers (c : Config)
    (v : list (PyKey * spec_float)) : Config :=
  mkConfig (level_rewards c) (remove_previous_rewards c)
    (blacklisted_channels c) (message_cooldown c) (exp_per_message c)
    (exp_per_voice_minute c) (Some v) (admin_roles c)
    (level_manager_roles c) (level_channel_id c) (rewards_messages c).

Definition set_level_manager_roles (c : Config) (v : list Z) : Config :=
  mkConfig (level_rewards c) (remove_previous_rewards c)
    (blacklisted_channels c) (message_cooldown c) (exp_per_message c)
    (exp_per_voice_minute c) (role_multipliers c) (admin_roles c) (Some v)
    (level_channel_id c) (rewards_messages c).

Definition set_level_channel_id (c : Config) (v : Z) : Config :=
  mkConfig (level_rewards c) (remove_previous_rewards c)
    (blacklisted_channels c) (message_cooldown c) (exp_per_message c)
    (exp_per_voice_minute c) (role_multipliers c) (admin_roles c)
    (level_manager_roles c) (Some v) (rewards_messages c).

Definition set_rewards_messages (c : Config)
    (v : list (string * string)) : Config :=
  mkConfig (level_rewards c) (remove_previous_rewards c)
    (blacklisted_channels c) (message_cooldown c) (exp_per_message c)
    (exp_per_voice_minute c) (role_multipliers c) (admin_roles c)
    (level_manager_roles c) (level_channel_id c) (Some v).

(** *** Profile and leaderboard *)

(** [display_level_info]: behind [/niveau] and [/level]. *)
Definition display_level_info (st : State) (i : Interaction)
    (utilisateur : option Member) : State * Reply :=
  if negb (db_ready st) then (st, respond (Failure db_unavailable_long))
  else
    let target := default (user i) utilisateur in
    let '(st1, _) := get_user_data st (interaction_guild i) (member_id target) in
    (st1, respond (Embed "Profil de {target.display_name}")).

(** [display_leaderboard]: behind [/classement], [/leaderboard] and
    [/toplevel]; it only reads the table. *)
Definition display_leaderboard (st : State) (i : Interaction) (page : Z)
    : State * Reply :=
  if negb (db_ready st) then (st, respond (Failure db_unavailable_long))
  else
    let offset := (Z.max 1 page - 1) * 10 in
    if fits_sqlite_integer offset then
      match skipn (Z.to_nat offset)
                  (filter (fun r => guild_id r =? interaction_guild i)
                          (user_levels st)) with
      | [] => (st, respond (Embed "Classement des Niveaux (vide)"))
      | _ => (st, respond (Embed "Classement des Niveaux"))
      end
    else
      (st, respond (Failure "Erreur lors de la récupération des données.")).

(** *** The [/xp] group *)

Definition add_exp (st : State) (i : Interaction) (utilisateur : Member)
    (montant : Z) (now : Z) : State * Reply :=
  if negb (is_admin (config st) (user i))
  then (st, respond (Failure no_permission))
  else if negb (db_ready st) then (st, respond (Failure db_unavailable))
  else if montant <=? 0
  then (st, respond (Failure "Le montant doit être positif."))
  else
    let '(st1, up) := update_user_exp st utilisateur montant MESSAGE now in
    (st1, mkReply (inr (Embed "EXP Ajoutée")) (spawned up)).

Definition remove_exp (st : State) (i : Interaction) (utilisateur : Member)
    (montant : Z) (now : Z) : State * Reply :=
  if negb (is_admin (config st) (user i))
  then (st, respond (Failure no_permission))
  else if negb (db_ready st) then (st, respond (Failure db_unavailable))
  else if montant <=? 0
  then (st, respond (Failure "Le montant doit être positif."))
  else
    let '(st1, user_data) :=
      get_user_data st (interaction_guild i) (member_id utilisateur) in
    if ud_exp user_data <? montant
    then (st1, respond (Failure "L'utilisateur n'a pas assez d'EXP."))
    else
      let '(st2, up) :=
        update_user_exp st1 utilisateur (- montant) MESSAGE now in
      (st2,
       mkReply (inr (Embed "EXP Retirée"))
         (spawned up
          ++ (if new_level up <? old_level up
              then [(utilisateur, new_level up)] else []))).

Definition update_failed : string := "Erreur lors de la mise à jour: {e}".

Definition set_exp (st : State) (i : Interaction) (utilisateur : Member)
    (montant : Z) : State * Reply :=
  if negb (is_admin (config st) (user i))
  then (st, respond (Failure no_permission))
  else if negb (db_ready st) then (st, respond (Failure db_unavailable))
  else if montant <? 0
  then (st, respond (Failure "Le montant ne peut pas être négatif."))
  else
    let '(st1, _) :=
      get_user_data st (interaction_guild i) (member_id utilisateur) in
    match calculate_level montant with
    | None => (st1, respond (Failure update_failed))
    | Some new =>
        if fits_sqlite_integer montant && fits_sqlite_integer new then
          (set_user_levels st1
             (update_where (interaction_guild i) (member_id utilisateur)
                (fun r =>
                   mkUserRow (guild_id r) (user_id r) montant new
                     (total_messages r) (voice_time r) (welcome r)
                     (last_message_time r))
                (user_levels st1)),
           mkReply (inr (Embed "EXP Définie")) [(utilisateur, new)])
        else (st1, respond (Failure update_failed))
    end.

(** [messages < 0 or temps_vocal < 0]: comparing [None] with a number
    raises [TypeError]; [or] does not evaluate its second operand when the
    first one holds. *)
Definition negative_activity (messages temps_vocal : option Z)
    : PyExn + bool :=
  match messages with
  | None => inl TypeError
  | Some m =>
      if m <? 0 then inr true
      else
        match temps_vocal with
        | None => inl TypeError
        | Some v => inr (v <? 0)
        end
  end.

Definition is_none {A : Type} (o : option A) : bool :=
  match o with
  | None => true
  | Some _ => false
  end.

Definition set_activity (st : State) (i : Interaction) (utilisateur : Member)
    (messages temps_vocal : option Z) : State * Reply :=
  if negb (is_admin (config st) (user i))
  then (st, respond (Failure no_permission))
  else if negb (db_ready st) then (st, respond (Failure db_unavailable))
  else
    match negative_activity messages temps_vocal with
    | inl e => (st, raise e)
    | inr true =>
        (st, respond (Failure "Les valeurs ne peuvent pas être négatives."))
    | inr false =>
        if is_none messages && is_none temps_vocal
        then (st, respond (Failure "Au moins un des paramètres doit être spécifié (messages ou temps vocal)."))
        else
          let '(st1, user_data) :=
            get_user_data st (interaction_guild i) (member_id utilisateur) in
          let messages' := default (ud_total_messages user_data) messages in
          let temps_vocal' := default (ud_voice_time user_data) temps_vocal in
          match calculate_exp_from_activity (config st1) messages' temps_vocal' with
          | None => (st1, respond (Failure "Erreur lors de la mise à jour."))
          | Some total_exp =>
              match calculate_level total_exp with
              | None => (st1, respond (Failure "Erreur lors de la mise à jour."))
              | Some new =>
                  if fits_sqlite_integer total_exp && fits_sqlite_integer new
                     && fits_sqlite_integer messages'
                     && fits_sqlite_integer temps_vocal'
                  then
                    let st2 :=
                      set_user_levels st1
                        (update_where (interaction_guild i)
                           (member_id utilisateur)
                           (fun r =>
                              mkUserRow (guild_id r) (user_id r) total_exp new
                                messages' temps_vocal' (welcome r)
                                (last_message_time r))
                           (user_levels st1)) in
                    (set_user_rewards st2
                       (filter
                          (fun r =>
                             negb ((rw_guild_id r =? interaction_guild i)
                                   && (rw_user_id r =? member_id utilisateur)))
                          (user_rewards st2)),
                     respond (Embed "Activité Définie"))
                  else (st1, respond (Failure "Erreur lors de la mise à jour."))
              end
          end
    end.

(** *** Settings *)

Definition toggle_remove_previous (st : State) (i : Interaction)
    : State * Reply :=
  if negb (is_admin (config st) (user i))
  then (st, respond (Failure no_permission))
  else
    (set_config st
       (set_remove_previous_rewards (config st)
          (negb (default true (remove_previous_rewards (config st))))),
     respond (Success "La suppression des récompenses précédentes est maintenant **{status}**")).

Definition level_debug (st : State) (i : Interaction)
    (utilisateur : option Member) : State * Reply :=
  if negb (is_admin (config st) (user i))
  then (st, respond (Failure no_permission))
  else
    let st1 :=
      match utilisateur with
      | Some u => fst (get_user_data st (interaction_guild i) (member_id u))
      | None => st
      end in
    (st1, respond (Embed "Debug - Système de Niveaux")).

Definition blacklist_list_channels (st : State) (i : Interaction)
    : State * Reply :=
  if negb (is_admin (config st) (user i))
  then (st, respond (Failure no_permission))
  else if negb (db_ready st) then (st, respond (Failure db_unavailable))
  else
    match default [] (blacklisted_channels (config st)) with
    | [] => (st, respond (Client "Aucun salon n'est actuellement blacklisté pour l'EXP."))
    | _ => (st, respond (Client "{channel_mentions}"))
    end.

Definition blacklist_add_channel (st : State) (i : Interaction) (channel : Z)
    : State * Reply :=
  if negb (is_admin (config st) (user i))
  then (st, respond (Failure no_permission))
  else if negb (db_ready st) then (st, respond (Failure db_unavailable))
  else
    let blacklisted := default [] (blacklisted_channels (config st)) in
    if mem channel blacklisted
    then (st, respond (Failure "Le salon {channel.mention} est déjà blacklisté."))
    else
      (set_config st
         (set_blacklisted_channels (config st) (blacklisted ++ [channel])),
       respond (Success "Le salon {channel.mention} a été blacklisté avec succès.")).

Definition blacklist_remove_channel (st : State) (i : Interaction)
    (channel : Z) : State * Reply :=
  if negb (is_admin (config st) (user i))
  then (st, respond (Failure no_permission))
  else if negb (db_ready st) then (st, respond (Failure db_unavailable))
  else
    let blacklisted := default [] (blacklisted_channels (config st)) in
    if negb (mem channel blacklisted)
    then (st, respond (Failure "Le salon {channel.mention} n'est pas dans la liste des salons blacklistés."))
    else
      (set_config st
         (set_blacklisted_channels (config st)
            (list_remove channel blacklisted)),
       respond (Success "Le salon {channel.mention} a été retiré de la blacklist avec succès.")).

Definition show_xp_settings (st : State) (i : Interaction) : State * Reply :=
  if negb (is_admin (config st) (user i))
  then (st, respond (Failure no_permission))
  else if negb (db_ready st) then (st, respond (Failure db_unavailable))
  else (st, respond (Embed "Paramètres d'EXP Actuels")).

(** [set_xp_settings]: the three settings are checked and written one after
    the other, so a setting that precedes a rejected one is kept. *)
Definition xp_settings_updated : string :=
  "Les paramètres d'EXP ont été mis à jour avec succès.".

Definition set_xp_cooldown (st : State) (cooldown : option Z)
    : State * Reply :=
  match cooldown with
  | Some c =>
      if c <? 0
      then (st, respond (Failure "Le cooldown des messages doit être positif ou nul."))
      else (set_config st (set_message_cooldown (config st) c),
            respond (Success xp_settings_updated))
  | None => (st, respond (Success xp_settings_updated))
  end.

Definition set_xp_voice (st : State) (exp_per_voice_minute' cooldown : option Z)
    : State * Reply :=
  match exp_per_voice_minute' with
  | Some v =>
      if v <? 0
      then (st, respond (Failure "L'EXP par minute en vocal ne peut pas être négative."))
      else set_xp_cooldown
             (set_config st (set_exp_per_voice_minute (config st) v)) cooldown
  | None => set_xp_cooldown st cooldown
  end.

Definition set_xp_settings (st : State) (i : Interaction)
    (exp_per_message' exp_per_voice_minute' cooldown : option Z)
    : State * Reply :=
  if negb (is_admin (config st) (user i))
  then (st, respond (Failure no_permission))
  else if negb (db_ready st) then (st, respond (Failure db_unavailable))
  else
    match exp_per_message' with
    | Some v =>
        if v <? 0
        then (st, respond (Failure "L'EXP par message ne peut pas être négative."))
        else set_xp_voice
               (set_config st (set_exp_per_message (config st) v))
               exp_per_voice_minute' cooldown
    | None => set_xp_voice st exp_per_voice_minute' cooldown
    end.

(** *** Role multipliers *)

Definition role_multiplier_set (st : State) (i : Interaction) (role : Z)
    (multiplier : spec_float) : State * Reply :=
  if negb (is_admin (config st) (user i))
  then (st, respond (Failure no_permission))
  else if negb (db_ready st) then (st, respond (Failure db_unavailable))
  else if PyFloat.ltb_zero multiplier
  then (st, respond (Failure "Le multiplicateur ne peut pas être négatif."))
  else
    let role_multipliers := default [] (role_multipliers (config st)) in
    let key := KStr (str role) in
    if PyFloat.eqb_zero multiplier then
      if dict_mem PyKey_eqb role_multipliers key
      then (set_config st
              (set_role_multipliers (config st)
                 (dict_del PyKey_eqb role_multipliers key)),
            respond (Success "Le multiplicateur pour {role.mention} a été retiré."))
      else (st, respond (Failure "Le rôle {role.mention} n'a pas de multiplicateur défini."))
    else
      (set_config st
         (set_role_multipliers (config st)
            (dict_set PyKey_eqb role_multipliers key multiplier)),
       respond (Success "Le multiplicateur pour {role.mention} est maintenant **+{100*multiplier:.1f}%**")).

Definition role_multiplier_list (st : State) (i : Interaction)
    : State * Reply :=
  if negb (is_admin (config st) (user i))
  then (st, respond (Failure no_permission))
  else if negb (db_ready st) then (st, respond (Failure db_unavailable))
  else
    match default [] (role_multipliers (config st)) with
    | [] => (st, respond (Client "Aucun multiplicateur d'EXP n'est défini pour les rôles."))
    | _ => (st, respond (Embed "Multiplicateurs d'EXP des Rôles"))
    end.

(** *** Level rewards *)

Definition set_level_reward (st : State) (i : Interaction) (niveau role : Z)
    : State * Reply :=
  if negb (is_admin (config st) (user i))
  then (st, respond (Failure no_permission))
  else if negb (db_ready st) then (st, respond (Failure db_unavailable))
  else if niveau <? 1
  then (st, respond (Failure "Le niveau doit être supérieur ou égal à 1."))
  else
    (set_config st
       (set_level_rewards (config st)
          (dict_set String.eqb (default [] (level_rewards (config st)))
                    (str niveau) role)),
     respond (Success "Récompense de niveau **{niveau}** définie avec le rôle {role.mention}.")).

Definition remove_level_reward (st : State) (i : Interaction) (niveau : Z)
    : State * Reply :=
  if negb (is_admin (config st) (user i))
  then (st, respond (Failure no_permission))
  else if negb (db_ready st) then (st, respond (Failure db_unavailable))
  else
    let level_rewards := default [] (level_rewards (config st)) in
    if negb (dict_mem String.eqb level_rewards (str niveau))
    then (st, respond (Failure "Aucune récompense définie pour le niveau **{niveau}**."))
    else
      (set_config st
         (set_level_rewards (config st)
            (dict_del String.eqb level_rewards (str niveau))),
       respond (Success "Récompense de niveau **{niveau}** supprimée.")).

Definition list_level_rewards (st : State) (i : Interaction) : State * Reply :=
  if negb (is_admin (config st) (user i))
  then (st, respond (Failure no_permission))
  else if negb (db_ready st) then (st, respond (Failure db_unavailable))
  else
    match default [] (level_rewards (config st)) with
    | [] => (st, respond (Client "Aucune récompense de niveau définie."))
    | _ => (st, respond (Embed "Récompenses de Niveau"))
    end.

(** *** Reward messages *)

(** [message.strip() == ""], on the ASCII white space. *)
Definition is_space (c : Ascii.ascii) : bool :=
  let n := Z.of_nat (Ascii.nat_of_ascii c) in
  ((9 <=? n) && (n <=? 13)) || ((28 <=? n) && (n <=? 32)).

Fixpoint is_blank (s : string) : bool :=
  match s with
  | EmptyString => true
  | String c s' => is_space c && is_blank s'
  end.

Definition set_rewards_message (st : State) (i : Interaction) (niveau : Z)
    (message : option string) : State * Reply :=
  if negb (is_admin (config st) (user i))
  then (st, respond (Failure no_permission))
  else if negb (db_ready st) then (st, respond (Failure db_unavailable))
  else if niveau <? 1
  then (st, respond (Failure "Le niveau doit être supérieur ou égal à 1."))
  else
    let rewards_messages := default [] (rewards_messages (config st)) in
    let done := Success "Message de récompense pour le niveau **{niveau}** défini." in
    match message with
    | Some text =>
        if is_blank text then
          if dict_mem String.eqb rewards_messages (str niveau)
          then (set_config st
                  (set_rewards_messages (config st)
                     (dict_del String.eqb rewards_messages (str niveau))),
                respond done)
          else (st, raise KeyError)
        else
          (set_config st
             (set_rewards_messages (config st)
                (dict_set String.eqb rewards_messages (str niveau) text)),
           respond done)
    | None =>
        if dict_mem String.eqb rewards_messages (str niveau)
        then (set_config st
                (set_rewards_messages (config st)
                   (dict_del String.eqb rewards_messages (str niveau))),
              respond done)
        else (st, raise KeyError)
    end.

Definition list_rewards_messages (st : State) (i : Interaction)
    : State * Reply :=
  if negb (is_admin (config st) (user i))
  then (st, respond (Failure no_permission))
  else if negb (db_ready st) then (st, respond (Failure db_unavailable))
  else
    match default [] (rewards_messages (config st)) with
    | [] => (st, respond (Client "Aucun message de récompense défini."))
    | _ => (st, respond (Embed "Messages de Récompense"))
    end.

Definition set_rewards_channel (st : State) (i : Interaction)
    (channel : option Z) : State * Reply :=
  if negb (is_admin (config st) (user i))
  then (st, respond (Failure no_permission))
  else if negb (db_ready st) then (st, respond (Failure db_unavailable))
  else
    match channel with
    | None =>
        match level_channel_id (config st) with
        | None => (st, respond (Client "Aucun salon de niveaux défini."))
        | Some id =>
            if id =? 0
            then (st, respond (Client "Aucun salon de niveaux défini."))
            else (st, respond (Client "Le salon de niveaux actuel est {channel.mention}."))
        end
    | Some id =>
        (set_config st (set_level_channel_id (config st) id),
         respond (Success "Le salon de niveaux a été défini sur {channel.mention}."))
    end.

(** *** Manager roles *)

Definition add_admin_role (st : State) (i : Interaction) (role : Z)
    : State * Reply :=
  if negb (is_admin (config st) (user i))
  then (st, respond (Failure no_permission))
  else if negb (db_ready st) then (st, respond (Failure db_unavailable))
  else
    let manager_roles := default [] (level_manager_roles (config st)) in
    if mem role manager_roles
    then (st, respond (Failure "Le rôle {role.mention} est déjà un rôle gestionnaire de niveaux."))
    else
      (set_config st
         (set_level_manager_roles (config st) (manager_roles ++ [role])),
       respond (Success "Le rôle {role.mention} a été ajouté comme gestionnaire de niveaux.")).

Definition remove_admin_role (st : State) (i : Interaction) (role : Z)
    : State * Reply :=
  if negb (is_admin (config st) (user i))
  then (st, respond (Failure no_permission))
  else if negb (db_ready st) then (st, respond (Failure db_unavailable))
  else
    match default [] (level_manager_roles (config st)) with
    | [] => (st, respond (Failure "Aucun rôle gestionnaire de niveaux défini."))
    | manager_roles =>
        if negb (mem role manager_roles)
        then (st, respond (Failure "Le rôle {role.mention} n'est pas un rôle gestionnaire de niveaux."))
        else
          (set_config st
             (set_level_manager_roles (config st)
                (list_remove role manager_roles)),
           respond (Success "Le rôle {role.mention} a été retiré des rôles gestionnaire de niveaux."))
    end.

Definition list_admin_roles (st : State) (i : Interaction) : State * Reply :=
  if negb (is_admin (config st) (user i))
  then (st, respond (Failure no_permission))
  else if negb (db_ready st) then (st, respond (Failure db_unavailable))
  else
    match default [] (level_manager_roles (config st)) with
    | [] => (st, respond (Client "Aucun rôle gestionnaire de niveaux défini."))
    | _ => (st, respond (Embed "Rôles Gestionnaire de Niveaux"))
    end.

(** *** The commands of the cog and their dispatch *)

Inductive Command : Type :=
| CmdNiveau (utilisateur : option Member)
| CmdLevel (utilisateur : option Member)
| CmdClassement (page : Z)
| CmdLeaderboard (page : Z)
| CmdToplevel (page : Z)
| CmdXpAdd (utilisateur : Member) (montant : Z)
| CmdXpRemove (utilisateur : Member) (montant : Z)
| CmdXpSet (utilisateur : Member) (montant : Z)
| CmdXpSetActivity (utilisateur : Member) (messages temps_vocal : option Z)
| CmdToggleRemovePrevious
| CmdLevelDebug (utilisateur : option Member)
| CmdBlacklistList
| CmdBlacklistAdd (channel : Z)
| CmdBlacklistRemove (channel : Z)
| CmdXpSettingsShow
| CmdXpSettingsSet (exp_per_message' exp_per_voice_minute' cooldown : option Z)
| CmdRoleMultiplierSet (role : Z) (multiplier : spec_float)
| CmdRoleMultiplierList
| CmdLevelRewardsSet (niveau role : Z)
| CmdLevelRewardsRemove (niveau : Z)
| CmdLevelRewardsList
| CmdRewardsMessagesSet (niveau : Z) (message : option string)
| CmdRewardsMessagesList
| CmdRewardsMessagesChannel (channel : option Z)
| CmdManagerRolesAdd (role : Z)
| CmdManagerRolesRemove (role : Z)
| CmdManagerRolesList.

Definition run_command (st : State) (i : Interaction) (c : Command) (now : Z)
    : State * Reply :=
  match c with
  | CmdNiveau u | CmdLevel u => display_level_info st i u
  | CmdClassement p | CmdLeaderboard p | CmdToplevel p =>
      display_leaderboard st i p
  | CmdXpAdd u m => add_exp st i u m now
  | CmdXpRemove u m => remove_exp st i u m now
  | CmdXpSet u m => set_exp st i u m
  | CmdXpSetActivity u m v => set_activity st i u m v
  | CmdToggleRemovePrevious => toggle_remove_previous st i
  | CmdLevelDebug u => level_debug st i u
  | CmdBlacklistList => blacklist_list_channels st i
  | CmdBlacklistAdd ch => blacklist_add_channel st i ch
  | CmdBlacklistRemove ch => blacklist_remove_channel st i ch
  | CmdXpSettingsShow => show_xp_settings st i
  | CmdXpSettingsSet m v c => set_xp_settings st i m v c
  | CmdRoleMultiplierSet r x => role_multiplier_set st i r x
  | CmdRoleMultiplierList => role_multiplier_list st i
  | CmdLevelRewardsSet n r => set_level_reward st i n r
  | CmdLevelRewardsRemove n => remove_level_reward st i n
  | CmdLevelRewardsList => list_level_rewards st i
  | CmdRewardsMessagesSet n m => set_rewards_message st i n m
  | CmdRewardsMessagesList => list_rewards_messages st i
  | CmdRewardsMessagesChannel ch => set_rewards_channel st i ch
  | CmdManagerRolesAdd r => add_admin_role st i r
  | CmdManagerRolesRemove r => remove_admin_role st i r
  | CmdManagerRolesList => list_admin_roles st i
  end.

(** ** The cog as a transition system *)

Section Transitions.

Variable int_of_str : string -> option Z.
Variable guild_has_role : Z -> bool.
Variable add_roles_ok : Z -> bool.
Variable remove_roles_ok : Z -> bool.

(** What can happen to the cog: a message arrives, the voice loop ticks, a
    command is invoked, a spawned reward task runs. *)
Inductive Event : Type :=
| EvMessage (message : Message) (now : Z)
| EvVoiceTick (guilds : list Guild) (now : Z)
| EvCommand (i : Interaction) (c : Command) (now : Z)
| EvRewards (member : Member) (member_level : Z).

Definition step (st : State) (ev : Event) : State :=
  match ev with
  | EvMessage message now => fst (on_message st message now)
  | EvVoiceTick guilds now => fst (voice_exp_task st guilds now)
  | EvCommand i c now => fst (run_command st i c now)
  | EvRewards member member_level =>
      fst (update_rewards int_of_str guild_has_role add_roles_ok
             remove_roles_ok st member member_level)
  end.

End Transitions.

(** ** Predicates and sample data used in the statements *)



(** The rates the settings command accepts. *)
Definition rates_nonneg (c : Config) : Prop :=
  0 <= default 0 (exp_per_message c)
  /\ 0 <= default 0 (exp_per_voice_minute c).

Definition points_nonneg (st : State) : Prop :=
  Forall (fun r => 0 <= exp r) (user_levels st).

(** The rows of one user. *)
Definition rows_of (g u : Z) (t : list UserRow) : list UserRow :=
  filter (row_matches g u) t.

(** A guild [10] with an administrator and two plain members. *)
Definition admin : Member := mkMember 1 10 false [] true false.
Definition alice : Member := mkMember 2 10 false [] false false.
Definition bob : Member := mkMember 3 10 false [] false false.

Definition by_admin : Interaction := mkInteraction admin 10.
Definition by_alice : Interaction := mkInteraction alice 10.

Definition sample_config : Config :=
  mkConfig None None None (Some 60) (Some 10) (Some 5)
           None None None None None.

Definition st_ready : State := mkState true sample_config [] [] [].

(** Every channel in which the user [(g, u)] is an active member is skipped
    by the voice tick: it is blacklisted or has fewer than two active
    members. *)
Definition only_in_skipped_channels (blacklisted : list Z) (g u : Z)
    (channels : list VoiceChannel) : Prop :=
  forall vc m,
    In vc channels -> In m (active_members vc) ->
    (member_guild m, member_id m) = (g, u) ->
    mem (vc_id vc) blacklisted = true
    \/ (List.length (active_members vc) < 2)%nat.

(** A voice channel with two active members, and one with a single one. *)
Definition lounge : VoiceChannel := mkVoiceChannel 100 [alice; bob].
Definition booth : VoiceChannel := mkVoiceChannel 101 [alice].
Definition guild_10 : Guild := mkGuild 10 [lounge].
Definition guild_10_booth : Guild := mkGuild 10 [booth].

(** A member who holds role [42], and the state after an administrator has
    run [/xp-role-multiplier set] with that role and the bonus [0.5]. *)
Definition booster : Member := mkMember 4 10 false [42] false false.

Definition st_bonus : State :=
  fst (role_multiplier_set st_ready by_admin 42 PyFloat.half).

(** Every key of the dictionary is a string. *)
Definition string_keys (d : list (PyKey * spec_float)) : Prop :=
  forall k v, In (k, v) d -> exists s, k = KStr s.

(** The invariant carried from event to event: every row satisfies [P] and
    the two configured rates are not negative. *)
Definition table_invariant (P : UserRow -> Prop) (st : State) : Prop :=
  Forall P (user_levels st) /\ rates_nonneg (config st).

(** The (threshold, role) pairs of the configuration. *)
Definition reward_entries (int_of_str : string -> option Z) (st : State)
    : list (Z * Z) :=
  parse_rewards int_of_str (default [] (level_rewards (config st))).

(** A platform on which every role exists and every call succeeds. *)
Definition always (r : Z) : bool := true.

(** Role [100] from level 5 and role [200] from level 10; and the same role
    [100] configured at both levels. *)
Definition st_two_rewards : State :=
  mkState true
    (set_level_rewards sample_config [("5", 100); ("10", 200)]) [] [] [].

Definition st_shared_role : State :=
  mkState true
    (set_level_rewards sample_config [("5", 100); ("10", 100)]) [] [] [].

(** A member of level 7 who holds role [200], and one who holds role
    [100]. *)
Definition carol : Member := mkMember 5 10 false [200] false false.
Definition dave : Member := mkMember 6 10 false [100] false false.

(** A threshold of [2^63], which no SQLite [INTEGER] holds, listed before
    the threshold 10; and a member who holds both roles. *)
Definition st_huge_threshold : State :=
  mkState true
    (set_level_rewards sample_config
       [("9223372036854775808", 300); ("10", 200)]) [] [] [].

Definition erin : Member := mkMember 8 10 false [300; 200] false false.

(** The reward role of level 5 is also an administrator role. *)
Definition st_admin_reward : State :=
  mkState true
    (mkConfig (Some [("5", 100)]) None None (Some 60) (Some 10) (Some 5)
              None (Some [100]) None None None) [] [] [].


(** The largest number of points below which the level is proved to be the
    integer square root, and the first level the round trip is not proved
    for. *)
Definition exact_points_bound : Z := 75 * 2 ^ 46.

(** What [j] right shifts of the record [(m, false, false)] leave: the
    quotient by [2^j], the last bit shifted out and whether anything was
    lost below it. *)
Definition shifted (m j : Z) (mrs : shr_record) : Prop :=
  shr_m mrs = m / 2 ^ j
  /\ (shr_r mrs = true <-> 2 ^ j <= 2 * (m mod 2 ^ j))
  /\ (shr_s mrs = true <-> m mod 2 ^ j <> 0 /\ 2 * (m mod 2 ^ j) <> 2 ^ j).

(** ** More of the cog: the progress shown in the profile, the gain types *)

(** [display_level_info], the progress towards the next level:
    [exp_progress = current_exp - exp_for_current] and
    [exp_needed = exp_for_next - exp_for_current]. *)
Definition exp_progress (current_exp current_level : Z) : Z :=
  current_exp - calculate_exp_for_level current_level.

Definition exp_needed (current_level : Z) : Z :=
  calculate_exp_for_level (current_level + 1)
  - calculate_exp_for_level current_level.

(** [label.lower()] on the ASCII letters.  The three labels below are made
    of ASCII letters only, and no other character lowers to one of them, so
    the comparisons of [from_str] are the ones Python makes. *)
Definition ascii_lower (c : Ascii.ascii) : Ascii.ascii :=
  let n := Ascii.nat_of_ascii c in
  if ((65 <=? n) && (n <=? 90))%nat then Ascii.ascii_of_nat (n + 32) else c.

Fixpoint lower (s : string) : string :=
  match s with
  | EmptyString => EmptyString
  | String c s' => String (ascii_lower c) (lower s')
  end.

(** [ExpGainType.__str__]: the name of the member, in lower case. *)
Definition gain_type_str (g : ExpGainType) : string :=
  match g with
  | MESSAGE => "message"
  | VOICE => "voice"
  | WELCOME => "welcome"
  end.

(** [ExpGainType.from_str]: [None] stands for the [ValueError]. *)
Definition from_str (label : string) : option ExpGainType :=
  let label := lower label in
  if String.eqb label "message" then Some MESSAGE
  else if String.eqb label "voice" then Some VOICE
  else if String.eqb label "welcome" then Some WELCOME
  else None.

(** [ExpGainType.from_context] *)
Definition from_context (context : string) : ExpGainType :=
  if String.eqb context "voice" then VOICE
  else if String.eqb context "welcome" then WELCOME
  else MESSAGE.

(** The key of a row, and the tables in which no two rows share a key. *)
Definition row_key (r : UserRow) : Z * Z := (guild_id r, user_id r).

Definition unique_rows (t : list UserRow) : Prop := NoDup (map row_key t).

(** [l1] is a prefix of [l2]. *)
Definition prefix {A : Type} (l1 l2 : list A) : Prop :=
  exists rest, l2 = l1 ++ rest.

(** How the handlers change [user_levels]: by inserting the fresh row of a
    user who has none, and by updating rows without touching their key. *)
Inductive evolves : list UserRow -> list UserRow -> Prop :=
| evolves_refl t : evolves t t
| evolves_insert t g u t' :
    find (row_matches g u) t = None ->
    evolves (t ++ [new_row g u]) t' -> evolves t t'
| evolves_update t g u f t' :
    (forall r, row_key (f r) = row_key r) ->
    evolves (update_where g u f t) t' -> evolves t t'.

(** The dictionary [get_user_data] builds from a row, and what a caller
    reads for a user. *)
Definition user_data_of (r : UserRow) : UserData :=
  mkUserData (user_id r) (exp r) (level r) (total_messages r) (voice_time r)
             (welcome r).

Definition lookup (st : State) (g u : Z) : UserData :=
  snd (get_user_data st g u).

(** The counter a gain type increments. *)
Definition counts (gain_type counter : ExpGainType) : Z :=
  match gain_type, counter with
  | MESSAGE, MESSAGE | VOICE, VOICE | WELCOME, WELCOME => 1
  | _, _ => 0
  end.


(** The voice channels the tick does not skip: not blacklisted, and at least
    two active members. *)
Definition eligible (blacklisted : list Z) (voice_channel : VoiceChannel)
    : bool :=
  negb (mem (vc_id voice_channel) blacklisted)
  && negb (Z.of_nat (List.length (active_members voice_channel)) <? 2).

(** The member with other roles, as the platform hands it over after the
    roles have changed. *)
Definition with_roles (member : Member) (held : list Z) : Member :=
  mkMember (member_id member) (member_guild member) (bot member) held
           (administrator member) (self_deaf member).

(** The two lists [update_rewards] builds before it calls the API: the
    roles to add and the roles to remove, each with its threshold. *)
Definition planned_changes (int_of_str : string -> option Z)
    (guild_has_role : Z -> bool) (st : State) (member : Member)
    (member_level : Z) : list (Z * Z) * list (Z * Z) :=
  let level_rewards := default [] (level_rewards (config st)) in
  let remove_previous := default true (remove_previous_rewards (config st)) in
  let applicable := applicable_roles int_of_str member_level level_rewards in
  let non_applicable :=
    non_applicable_roles int_of_str member_level level_rewards in
  let topmost_role_id := snd (topmost_role applicable) in
  (roles_to_add guild_has_role remove_previous (roles member) topmost_role_id
                applicable,
   roles_to_remove guild_has_role remove_previous (roles member)
                   topmost_role_id applicable non_applicable).

(** The identifiers and the thresholds that [update_rewards] binds to its
    SQL statements for this member all fit an SQLite [INTEGER]. *)
Definition rewards_bind (int_of_str : string -> option Z) (st : State)
    (member : Member) : Prop :=
  fits_sqlite_integer (member_guild member) = true
  /\ fits_sqlite_integer (member_id member) = true
  /\ forall l r, In (l, r) (reward_entries int_of_str st) ->
       fits_sqlite_integer l = true /\ fits_sqlite_integer r = true.

(** ** The announcement

    What [announce_reward] hands to [log.safe_send_message]: the custom
    text of the level (before [.format(user=member.mention)]), or the
    default text, which names the level and the role configured for exactly
    this level, if any.  [None]: nothing is sent. *)
Inductive Announcement : Type :=
| CustomMessage (template : string)
| DefaultMessage (level : Z) (role : option Z).

Section Announce.

(** The dictionary under the key ['reward_messages'] of the configuration,
    which is the key [announce_reward] reads (the commands of the cog read
    and write ['rewards_messages'], the field [rewards_messages] of
    [Config]); the channels the guild knows ([guild.get_channel]); and
    whether [str.format] accepts the template. *)
Variable reward_messages : list (string * string).
Variable guild_has_channel : Z -> bool.
Variable format_ok : string -> bool.

Definition announce_reward (st : State) (member : Member) (level : Z)
    : option Announcement :=
  match level_channel_id (config st) with
  | None => None
  | Some id =>
      if id =? 0 then None
      else if negb (guild_has_channel id) then None
      else
        let level_str := str level in
        match dict_get String.eqb reward_messages level_str with
        | Some template =>
            if format_ok template then Some (CustomMessage template)
            else None
        | None =>
            let role_id :=
              dict_get String.eqb (default [] (level_rewards (config st)))
                       level_str in
            Some (DefaultMessage level
                    (match role_id with
                     | Some r => if r =? 0 then None else Some r
                     | None => None
                     end))
        end
  end.

End Announce.

(* ================================================================= *)
(** * Part II: properties *)
(* ================================================================= *)

(** ** Binary64 arithmetic

    The rounding performed by [SFdiv] and [SFsqrt] on the operands that the
    level formula produces, stated on integers: a mantissa of 53 bits is
    kept, a mantissa of 54 bits loses its last bit. *)

Module PyFloatFacts.
Import PyFloat.

Lemma digits2_pos_bounds (p : positive) :
  2 ^ (Zpos (digits2_pos p) - 1) <= Zpos p < 2 ^ Zpos (digits2_pos p).
Proof.
  induction p as [p IH | p IH | ]; cbn [digits2_pos].
  - rewrite Pos2Z.inj_succ.
    replace (Z.succ (Zpos (digits2_pos p)) - 1) with (Z.succ (Zpos (digits2_pos p) - 1)) by lia.
    rewrite !Z.pow_succ_r by lia. lia.
  - rewrite Pos2Z.inj_succ.
    replace (Z.succ (Zpos (digits2_pos p)) - 1) with (Z.succ (Zpos (digits2_pos p) - 1)) by lia.
    rewrite !Z.pow_succ_r by lia. lia.
  - cbn. lia.
Qed.

Lemma Zdigits2_unique (m d : Z) :
  2 ^ (d - 1) <= m < 2 ^ d -> 0 < d -> Zdigits2 m = d.
Proof.
  intros [Hlo Hhi] Hd.
  assert (0 < m) by (pose proof (Z.pow_pos_nonneg 2 (d - 1)); lia).
  destruct m as [ | p | p ]; try lia.
  cbn [Zdigits2]. pose proof (digits2_pos_bounds p) as [Blo Bhi].
  set (k := Zpos (digits2_pos p)) in *.
  assert (d - 1 < k) by (apply (Z.pow_lt_mono_r_iff 2); lia).
  assert (k - 1 < d) by (apply (Z.pow_lt_mono_r_iff 2); lia).
  lia.
Qed.

Lemma loc_of_shr_record_of_loc m l :
  loc_of_shr_record (shr_record_of_loc m l) = l.
Proof. destruct l as [ | [ | | ] ]; reflexivity. Qed.

Lemma shr_m_record_of_loc m l : shr_m (shr_record_of_loc m l) = m.
Proof. destruct l as [ | [ | | ] ]; reflexivity. Qed.

Lemma round_nearest_even_range m l :
  m <= round_nearest_even m l <= m + 1.
Proof. destruct l as [ | [ | | ] ]; cbn; try destruct (Z.even m); lia. Qed.

Lemma shr_fexp_keep m e l :
  Zdigits2 m = 53 -> -1074 <= e ->
  shr_fexp prec emax m e l = (shr_record_of_loc m l, e).
Proof.
  intros Hd He. unfold shr_fexp, fexp, emin. rewrite Hd.
  replace (Z.max (53 + e - prec) (3 - emax - prec) - e) with 0
    by (unfold prec, emax; lia).
  reflexivity.
Qed.

Lemma shr_fexp_one m e l :
  Zdigits2 m = 54 -> -1075 <= e ->
  shr_fexp prec emax m e l = (shr_1 (shr_record_of_loc m l), e + 1).
Proof.
  intros Hd He. unfold shr_fexp, fexp, emin. rewrite Hd.
  replace (Z.max (54 + e - prec) (3 - emax - prec) - e) with 1
    by (unfold prec, emax; lia).
  reflexivity.
Qed.

Lemma shr_1_nonneg m r s :
  0 <= m ->
  shr_1 (Build_shr_record m r s) = Build_shr_record (Z.div2 m) (Z.odd m) (r || s).
Proof.
  intros Hm. destruct m as [ | [ p | p | ] | p ]; try lia; reflexivity.
Qed.

Lemma round_aux_keep m e l :
  2 ^ 52 <= m -> round_nearest_even m l < 2 ^ 53 -> -1074 <= e <= 971 ->
  binary_round_aux prec emax false m e l
  = S754_finite false (Z.to_pos (round_nearest_even m l)) e.
Proof.
  intros Hlo Hhi He.
  pose proof (round_nearest_even_range m l) as Hr.
  unfold binary_round_aux.
  rewrite shr_fexp_keep; try lia.
  2:{ apply Zdigits2_unique; lia. }
  rewrite loc_of_shr_record_of_loc, shr_m_record_of_loc.
  rewrite shr_fexp_keep; try lia.
  2:{ apply Zdigits2_unique; lia. }
  cbn [shr_record_of_loc shr_m].
  destruct (round_nearest_even m l) as [ | q | q ] eqn:E; try lia.
  replace (e <=? emax - prec) with true by (unfold emax, prec; lia).
  reflexivity.
Qed.


Lemma round_aux_shift m e l :
  2 ^ 53 <= m < 2 ^ 54 - 2 -> -1075 <= e <= 970 ->
  exists mz,
    binary_round_aux prec emax false m e l = S754_finite false mz (e + 1)
    /\ Z.div2 m <= Zpos mz <= Z.div2 m + 1.
Proof.
  intros Hm He.
  unfold binary_round_aux.
  rewrite shr_fexp_one; try lia.
  2:{ apply Zdigits2_unique; lia. }
  assert (Hs : exists r s, shr_1 (shr_record_of_loc m l)
                           = Build_shr_record (Z.div2 m) r s).
  { destruct l as [ | [ | | ] ]; cbn [shr_record_of_loc];
      rewrite shr_1_nonneg by lia; eauto. }
  destruct Hs as (r & s & ->). cbn [shr_m].
  set (l' := loc_of_shr_record _).
  pose proof (round_nearest_even_range (Z.div2 m) l') as Hr.
  assert (Hd : 2 ^ 52 <= Z.div2 m < 2 ^ 53 - 1).
  { rewrite Z.div2_div. split.
    - apply Z.div_le_lower_bound; lia.
    - apply Z.div_lt_upper_bound; lia. }
  rewrite shr_fexp_keep; try lia.
  2:{ apply Zdigits2_unique; lia. }
  cbn [shr_record_of_loc shr_m].
  destruct (round_nearest_even (Z.div2 m) l') as [ | q | q ] eqn:E; try lia.
  replace (e + 1 <=? emax - prec) with true by (unfold emax, prec; lia).
  exists q. split; [reflexivity | lia].
Qed.

Lemma div_eucl_div_mod a b : Z.div_eucl a b = (a / b, a mod b).
Proof. unfold Z.div, Z.modulo. destruct (Z.div_eucl a b); reflexivity. Qed.

Lemma shift_mantissa (m s : Z) :
  0 < s ->
  match s with
  | Zpos _ => Z.shiftl m s
  | Z0 => m
  | Zneg _ => 0
  end = m * 2 ^ s.
Proof.
  intros Hs. destruct s; try lia. apply Z.shiftl_mul_pow2. lia.
Qed.

Lemma div_core_75 (p d : Z) :
  2 ^ (d - 1) <= p < 2 ^ d -> 7 <= d <= 59 ->
  SFdiv_core_binary prec emax p 0 75 0
  = (p * 2 ^ (60 - d) / 75, d - 60,
     new_location 75 ((p * 2 ^ (60 - d)) mod 75)).
Proof.
  intros Hp Hd. unfold SFdiv_core_binary.
  rewrite (Zdigits2_unique p d) by lia.
  change (Zdigits2 75) with 7.
  replace (Z.min (fexp prec emax (d + 0 - (7 + 0))) (0 - 0)) with (d - 60)
    by (unfold fexp, emin, prec, emax; lia).
  replace (0 - 0 - (d - 60)) with (60 - d) by lia.
  rewrite shift_mantissa by lia.
  rewrite div_eucl_div_mod. reflexivity.
Qed.


Lemma new_location_75 q r :
  0 <= r < 75 ->
  round_nearest_even q (new_location 75 r) = q
  \/ (round_nearest_even q (new_location 75 r) = q + 1 /\ 38 <= r).
Proof.
  intros Hr. unfold new_location. change (Z.even 75) with false.
  unfold new_location_odd.
  destruct (Z.eqb_spec r 0) as [-> | Hn]; [left; reflexivity | ].
  destruct (Z.compare_spec (2 * r + 1) 75) as [E | E | E]; cbn.
  - left; reflexivity.
  - left; reflexivity.
  - right. split; [reflexivity | lia].
Qed.

Lemma true_div_75_bounds (p : Z) :
  75 <= p < 75 * 2 ^ 46 ->
  exists mx ex,
    true_div p 75 = Some (S754_finite false mx ex)
    /\ 2 ^ 52 <= Zpos mx < 2 ^ 53
    /\ -53 <= ex <= -7
    /\ (forall a, 0 <= a -> 75 * a <= p -> a * 2 ^ (- ex) <= Zpos mx)
    /\ (forall b, p < 75 * b -> 128 * Zpos mx <= (128 * b - 1) * 2 ^ (- ex)).
Proof.
  intros Hp.
  destruct p as [ | pp | pp ]; try lia.
  unfold true_div. cbn [Z.ltb Z.compare Z.abs Z.to_pos].
  unfold SFdiv.
  pose proof (digits2_pos_bounds pp) as Hd.
  set (d := Zpos (digits2_pos pp)) in *.
  assert (Hd7 : 7 <= d <= 53).
  { split.
    - assert (6 < d); [ | lia]. apply (Z.pow_lt_mono_r_iff 2); lia.
    - assert (d - 1 < 53); [ | lia]. apply (Z.pow_lt_mono_r_iff 2); lia. }
  rewrite (div_core_75 (Zpos pp) d) by lia.
  set (W := 2 ^ (60 - d)).
  assert (HW : 2 ^ (d - 1) * W = 2 ^ 59 /\ 2 ^ d * W = 2 ^ 60).
  { unfold W. rewrite <- !Z.pow_add_r by lia. split; f_equal; lia. }
  assert (HW7 : W = 128 * 2 ^ (53 - d)).
  { unfold W. change 128 with (2 ^ 7). rewrite <- Z.pow_add_r by lia. f_equal; lia. }
  assert (HV : 0 < 2 ^ (53 - d)) by (apply Z.pow_pos_nonneg; lia).
  set (V := 2 ^ (53 - d)) in *.
  pose proof (Z.div_mod (Zpos pp * W) 75 ltac:(lia)) as Hdm.
  pose proof (Z.mod_pos_bound (Zpos pp * W) 75 ltac:(lia)) as Hr.
  set (q0 := Zpos pp * W / 75) in *.
  set (r0 := (Zpos pp * W) mod 75) in *.
  assert (HpW : 2 ^ 59 <= Zpos pp * W < 2 ^ 60) by nia.
  assert (Hq0 : 2 ^ 52 <= q0 < 2 ^ 54 - 2) by lia.
  cbn [xorb].
  destruct (Z.lt_ge_cases q0 (2 ^ 53)) as [Hlt | Hge].
  - (* the quotient already has 53 bits *)
    assert (Hrne : q0 <= round_nearest_even q0 (new_location 75 r0) < 2 ^ 53).
    { destruct (new_location_75 q0 r0 Hr) as [-> | [-> Hr38] ]; [lia | ].
      split; [lia | ].
      assert (q0 + 1 <> 2 ^ 53); [ | lia].
      intros Heq.
      assert (HVd : 2 ^ 53 = W * 2 ^ (d - 7)).
      { unfold W. rewrite <- Z.pow_add_r by lia. f_equal; lia. }
      assert (0 < 2 ^ (d - 7)) by (apply Z.pow_pos_nonneg; lia).
      set (U := 2 ^ (d - 7)) in *.
      assert (W * (Zpos pp - 75 * U) = r0 - 75) by lia.
      assert (128 <= W) by lia.
      nia. }
    pose proof (round_nearest_even_range q0 (new_location 75 r0)) as Hrr.
    rewrite round_aux_keep by lia.
    set (mz := round_nearest_even q0 (new_location 75 r0)) in *.
    exists (Z.to_pos mz), (d - 60).
    rewrite Z2Pos.id by lia.
    replace (- (d - 60)) with (60 - d) by lia. fold W.
    repeat split; try lia.
    + intros a Ha Hap.
      assert (75 * a * W <= Zpos pp * W) by (apply Z.mul_le_mono_nonneg_r; lia).
      nia.
    + intros b Hb.
      assert (Zpos pp * V <= (75 * b - 1) * V) by (apply Z.mul_le_mono_nonneg_r; lia).
      rewrite HW7 in *. nia.
  - (* one bit is shifted out *)
    assert (Hd52 : d <= 52).
    { destruct (Z.eq_dec d 53) as [E | E]; [ | lia].
      exfalso. rewrite E in *. change (2 ^ (53 - 53)) with 1 in *. lia. }
    destruct (round_aux_shift q0 (d - 60) (new_location 75 r0)) as (mz & -> & Hmz); try lia.
    exists mz, (d - 60 + 1).
    assert (HW8 : V = 2 * 2 ^ (52 - d)).
    { unfold V. change 2 with (2 ^ 1) at 2. rewrite <- Z.pow_add_r by lia. f_equal; lia. }
    assert (HV' : 0 < 2 ^ (52 - d)) by (apply Z.pow_pos_nonneg; lia).
    set (V' := 2 ^ (52 - d)) in *.
    assert (HE : 2 ^ (- (d - 60 + 1)) = 128 * V').
    { unfold V'. change 128 with (2 ^ 7). rewrite <- Z.pow_add_r by lia. f_equal; lia. }
    rewrite HE.
    assert (Hh : 2 * Z.div2 q0 <= q0 <= 2 * Z.div2 q0 + 1).
    { rewrite Z.div2_div. pose proof (Z.div_mod q0 2 ltac:(lia)).
      pose proof (Z.mod_pos_bound q0 2 ltac:(lia)). lia. }
    assert (Hd2 : 2 ^ 52 <= Z.div2 q0 < 2 ^ 53 - 1) by lia.
    repeat split; try lia.
    + intros a Ha Hap.
      assert (75 * a * V' <= Zpos pp * V') by (apply Z.mul_le_mono_nonneg_r; lia).
      nia.
    + intros b Hb.
      assert (Zpos pp * V' <= (75 * b - 1) * V') by (apply Z.mul_le_mono_nonneg_r; lia).
      nia.
Qed.


Lemma sqrt_round_arith (n E M q : Z) :
  0 <= n -> 0 < E -> 128 * (n + 1) <= E -> 0 <= q ->
  q * q <= M < (q + 1) * (q + 1) ->
  128 * M <= (128 * ((n + 1) * (n + 1)) - 1) * (E * E) ->
  q < (n + 1) * E /\ (M - q * q <= q \/ q + 1 < (n + 1) * E).
Proof.
  intros Hn HE HnE Hq HM Hup.
  set (T := (n + 1) * E) in *.
  assert (HT : 128 * (T * T) = 128 * ((n + 1) * (n + 1)) * (E * E)) by (unfold T; ring).
  assert (HEE : 0 < E * E) by nia.
  assert (HTE : 128 * T <= E * E) by (unfold T; nia).
  assert (HqT : q < T).
  { destruct (Z.lt_ge_cases q T) as [ | Hge]; [assumption | exfalso].
    assert (T * T <= q * q) by nia. lia. }
  split; [exact HqT | ].
  destruct (Z.eq_dec (q + 1) T) as [Heq | Hne]; [left | right; lia].
  assert (T * T = q * q + 2 * q + 1) by (rewrite <- Heq; ring).
  lia.
Qed.


Lemma sqrtrem_sqrt_rem (m : Z) :
  0 <= m -> Z.sqrtrem m = (Z.sqrt m, m - Z.sqrt m * Z.sqrt m).
Proof.
  intros Hm. pose proof (Z.sqrtrem_spec m Hm) as Hs.
  pose proof (Z.sqrtrem_sqrt m) as Hf.
  destruct (Z.sqrtrem m) as [s r]. cbn [fst] in Hf. subst s.
  f_equal. lia.
Qed.

Lemma sqrt_core_53 (m e : Z) :
  2 ^ 52 <= m < 2 ^ 53 -> -53 <= e <= -7 ->
  let h := (54 + e) / 2 in
  let M := m * 2 ^ (e + 106 - 2 * h) in
  let q := Z.sqrt M in
  let r := M - q * q in
  SFsqrt_core_binary prec emax m e
  = (q, h - 53,
     if r =? 0 then loc_Exact
     else loc_Inexact (if r <=? q then Lt else Gt)).
Proof.
  intros Hm He h M q r. unfold SFsqrt_core_binary.
  rewrite (Zdigits2_unique m 53) by lia.
  replace (53 + e + 1) with (54 + e) by lia.
  rewrite (Z.div2_div (54 + e)). fold h.
  pose proof (Z.div_mod (54 + e) 2 ltac:(lia)) as Hdm.
  pose proof (Z.mod_pos_bound (54 + e) 2 ltac:(lia)) as Hmb.
  fold h in Hdm.
  assert (Hd2 : 2 * Z.div2 e <= e <= 2 * Z.div2 e + 1).
  { rewrite Z.div2_div. pose proof (Z.div_mod e 2 ltac:(lia)).
    pose proof (Z.mod_pos_bound e 2 ltac:(lia)). lia. }
  replace (Z.min (fexp prec emax h) (Z.div2 e)) with (h - 53)
    by (unfold fexp, emin, prec, emax; lia).
  replace (e - 2 * (h - 53)) with (e + 106 - 2 * h) by lia.
  rewrite shift_mantissa by lia. fold M.
  rewrite sqrtrem_sqrt_rem.
  2:{ unfold M. apply Z.mul_nonneg_nonneg; [lia | apply Z.pow_nonneg; lia]. }
  reflexivity.
Qed.

Lemma sqrt_floor_int (mx : positive) (ex n : Z) :
  2 ^ 52 <= Zpos mx < 2 ^ 53 -> -53 <= ex <= -7 -> 0 <= n ->
  n * n * 2 ^ (- ex) <= Zpos mx ->
  128 * Zpos mx <= (128 * ((n + 1) * (n + 1)) - 1) * 2 ^ (- ex) ->
  py_int (SFsqrt prec emax (S754_finite false mx ex)) = Some n.
Proof.
  intros Hm He Hn Hlo Hup.
  unfold SFsqrt. rewrite sqrt_core_53 by lia.
  set (h := (54 + ex) / 2).
  pose proof (Z.div_mod (54 + ex) 2 ltac:(lia)) as Hdm.
  pose proof (Z.mod_pos_bound (54 + ex) 2 ltac:(lia)) as Hmb.
  fold h in Hdm.
  assert (Hh : 0 <= h <= 23) by lia.
  set (s := ex + 106 - 2 * h).
  assert (Hs : 52 <= s <= 53) by (unfold s; lia).
  set (M := Zpos mx * 2 ^ s).
  set (q := Z.sqrt M).
  set (E := 2 ^ (53 - h)).
  assert (HE : 0 < E) by (apply Z.pow_pos_nonneg; lia).
  assert (HEE : E * E = 2 ^ (- ex) * 2 ^ s).
  { unfold E, s. rewrite <- !Z.pow_add_r by lia. f_equal; lia. }
  assert (HX : 0 < 2 ^ (- ex)) by (apply Z.pow_pos_nonneg; lia).
  assert (HS : 0 < 2 ^ s) by (apply Z.pow_pos_nonneg; lia).
  assert (HM : 2 ^ 104 <= M < 2 ^ 106).
  { unfold M. destruct (Z.eq_dec s 52) as [-> | ]; [ | replace s with 53 by lia]; lia. }
  assert (HM0 : 0 <= M) by lia.
  assert (Hq : q * q <= M < (q + 1) * (q + 1)).
  { pose proof (Z.sqrt_spec M HM0) as Hq. cbv zeta in Hq. fold q in Hq. lia. }
  assert (Hq0 : 0 <= q) by apply Z.sqrt_nonneg.
  assert (Hq53 : 2 ^ 52 <= q < 2 ^ 53).
  { split.
    - change (2 ^ 52) with (Z.sqrt (2 ^ 104)). apply Z.sqrt_le_mono. lia.
    - apply Z.sqrt_lt_square; lia. }
  (* the square root of the lower bound *)
  assert (HnE : n * E <= q).
  { assert (HnE0 : 0 <= n * E) by (apply Z.mul_nonneg_nonneg; lia).
    apply (proj1 (Z.sqrt_le_square M (n * E) HM0 HnE0)).
    replace (n * E * (n * E)) with (n * n * (E * E)) by ring.
    rewrite HEE. unfold M.
    replace (n * n * (2 ^ (- ex) * 2 ^ s)) with (n * n * 2 ^ (- ex) * 2 ^ s) by ring.
    apply Z.mul_le_mono_nonneg_r; lia. }
  assert (HupM : 128 * M <= (128 * ((n + 1) * (n + 1)) - 1) * (E * E)).
  { rewrite HEE. unfold M.
    replace (128 * (Zpos mx * 2 ^ s)) with (128 * Zpos mx * 2 ^ s) by ring.
    replace ((128 * ((n + 1) * (n + 1)) - 1) * (2 ^ (- ex) * 2 ^ s))
      with ((128 * ((n + 1) * (n + 1)) - 1) * 2 ^ (- ex) * 2 ^ s) by ring.
    apply Z.mul_le_mono_nonneg_r; lia. }
  (* the level is below 2^h, hence far below the spacing of the result *)
  assert (Hn2h : n + 1 <= 2 ^ h).
  { assert (HP : 0 < 2 ^ h) by (apply Z.pow_pos_nonneg; lia).
    assert (H2h : 2 ^ h * 2 ^ h * 2 ^ (- ex) >= 2 ^ 53).
    { rewrite <- !Z.pow_add_r by lia.
      assert (53 <= h + h + - ex) by lia.
      apply Z.le_ge. apply Z.pow_le_mono_r; lia. }
    destruct (Z.lt_ge_cases n (2 ^ h)) as [ | Hge]; [lia | exfalso].
    assert (2 ^ h * 2 ^ h <= n * n) by (apply Z.mul_le_mono_nonneg; lia).
    assert (2 ^ h * 2 ^ h * 2 ^ (- ex) <= n * n * 2 ^ (- ex))
      by (apply Z.mul_le_mono_nonneg_r; lia).
    lia. }
  assert (H128 : 128 * (n + 1) <= E).
  { assert (128 * 2 ^ h <= E); [ | lia].
    unfold E. change 128 with (2 ^ 7). rewrite <- Z.pow_add_r by lia.
    apply Z.pow_le_mono_r; lia. }
  assert (HT53 : (n + 1) * E <= 2 ^ 53).
  { assert (HhE : 2 ^ h * E = 2 ^ 53).
    { unfold E. rewrite <- Z.pow_add_r by lia. f_equal; lia. }
    rewrite <- HhE. apply Z.mul_le_mono_nonneg_r; lia. }
  destruct (sqrt_round_arith n E M q Hn HE H128 Hq0 Hq HupM) as [HqT Hcase].
  set (l := if M - q * q =? 0 then loc_Exact
            else loc_Inexact (if M - q * q <=? q then Lt else Gt)).
  assert (Hmy : n * E <= round_nearest_even q l < (n + 1) * E).
  { unfold l. destruct (Z.eqb_spec (M - q * q) 0); cbn [round_nearest_even]; [lia | ].
    destruct (Z.leb_spec (M - q * q) q); cbn [round_nearest_even]; lia. }
  pose proof (round_nearest_even_range q l) as Hrr.
  rewrite round_aux_keep by lia.
  set (my := round_nearest_even q l) in *.
  unfold py_int.
  destruct (h - 53) as [ | k | k ] eqn:Ek; try lia.
  rewrite Z2Pos.id by lia.
  rewrite Z.shiftr_div_pow2 by lia.
  replace (Zpos k) with (53 - h) by lia. fold E.
  f_equal. symmetry. apply (Z.div_unique_pos my E n (my - n * E)); lia.
Qed.

(** Iterating a step that advances an invariant indexed by a counter. *)
Lemma iter_pos_invariant {A : Type} (f : A -> A) (Inv : Z -> A -> Prop) :
  (forall j x, 0 <= j -> Inv j x -> Inv (j + 1) (f x)) ->
  forall p j x, 0 <= j -> Inv j x -> Inv (j + Zpos p) (iter_pos f p x).
Proof.
  intros Hstep. induction p as [p IH | p IH | ]; intros j x Hj Hx; cbn [iter_pos].
  - replace (j + Zpos p~1) with ((j + 1 + Zpos p) + Zpos p) by lia.
    apply IH; [lia | ]. apply IH; [lia | ]. apply Hstep; assumption.
  - replace (j + Zpos p~0) with ((j + Zpos p) + Zpos p) by lia.
    apply IH; [lia | ]. apply IH; assumption.
  - apply Hstep; assumption.
Qed.

Lemma shifted_step (m j : Z) mrs :
  0 <= m -> 0 <= j -> shifted m j mrs -> shifted m (j + 1) (shr_1 mrs).
Proof.
  intros Hm Hj (HM & Hr & Hs).
  destruct mrs as [M r s]. cbn [shr_m shr_r shr_s] in *.
  assert (HP : 0 < 2 ^ j) by (apply Z.pow_pos_nonneg; lia).
  assert (HM0 : 0 <= M) by (subst M; apply Z.div_pos; lia).
  rewrite shr_1_nonneg by exact HM0.
  unfold shifted. cbn [shr_m shr_r shr_s].
  rewrite Z.pow_add_r by lia. change (2 ^ 1) with 2.
  pose proof (Z.div_mod m (2 ^ j) ltac:(lia)) as Hdm.
  pose proof (Z.mod_pos_bound m (2 ^ j) HP) as Hmb.
  rewrite <- HM in Hdm.
  pose proof (Z.div_mod M 2 ltac:(lia)) as HdM.
  pose proof (Z.mod_pos_bound M 2 ltac:(lia)) as HmM.
  set (rem := m mod 2 ^ j) in *.
  assert (Hq : m / (2 ^ j * 2) = M / 2).
  { rewrite <- Z.div_div by lia. rewrite <- HM. reflexivity. }
  assert (Hrem : m mod (2 ^ j * 2) = (M mod 2) * 2 ^ j + rem).
  { pose proof (Z.div_mod m (2 ^ j * 2) ltac:(lia)) as H2.
    rewrite Hq in H2. lia. }
  rewrite Hrem, Hq, Z.div2_div.
  split; [reflexivity | ].
  assert (Hodd : Z.odd M = true <-> M mod 2 = 1).
  { rewrite Zmod_odd. destruct (Z.odd M); split; (lia || congruence || discriminate). }
  assert (Hor : (r || s)%bool = true <-> rem <> 0).
  { rewrite orb_true_iff, Hr, Hs. lia. }
  rewrite Hodd, Hor.
  destruct (Z.eq_dec (M mod 2) 0) as [E | E];
    [rewrite E | replace (M mod 2) with 1 by lia]; lia.
Qed.

Lemma shr_fexp_shift m e l D :
  Zdigits2 m = D -> 53 < D -> -1074 <= e + (D - 53) ->
  shr_fexp prec emax m e l
  = (iter_pos shr_1 (Z.to_pos (D - 53)) (shr_record_of_loc m l),
     e + (D - 53)).
Proof.
  intros Hd HD He. unfold shr_fexp, fexp, emin. rewrite Hd.
  replace (Z.max (D + e - prec) (3 - emax - prec) - e) with (D - 53)
    by (unfold prec, emax; lia).
  destruct (D - 53) as [ | k | k ] eqn:Ek; try lia. reflexivity.
Qed.

Lemma shifted_exact m k :
  0 <= m -> 0 < k ->
  shifted m k (iter_pos shr_1 (Z.to_pos k) (shr_record_of_loc m loc_Exact)).
Proof.
  intros Hm Hk.
  pose proof (iter_pos_invariant shr_1 (shifted m)
                (fun j x Hj Hx => shifted_step m j x Hm Hj Hx)
                (Z.to_pos k) 0 (shr_record_of_loc m loc_Exact)
                ltac:(lia)) as H.
  rewrite Z2Pos.id in H by lia. cbn [Z.add] in H. apply H.
  unfold shifted. cbn [shr_record_of_loc shr_m shr_r shr_s].
  change (2 ^ 0) with 1. rewrite Z.div_1_r, Z.mod_1_r.
  repeat split; try (intros; lia || discriminate || tauto).
Qed.

(** Rounding an exact integer [m] of [D >= 53] bits: the result is a
    53-bit mantissa [mz] with exponent [e + (D - 53) + c]; it is within half
    a unit of [m], and equal to it when the bits shifted out are zero. *)
Lemma round_aux_exact m e D :
  2 ^ (D - 1) <= m < 2 ^ D -> 53 <= D ->
  -1074 <= e -> e + (D - 53) + 1 <= 971 ->
  exists mz c,
    binary_round_aux prec emax false m e loc_Exact
    = S754_finite false mz (e + (D - 53) + c)
    /\ 2 ^ 52 <= Zpos mz < 2 ^ 53
    /\ (c = 0 \/ (c = 1 /\ Zpos mz = 2 ^ 52))
    /\ 2 * Z.abs (Zpos mz * 2 ^ (D - 53 + c) - m) <= 2 ^ (D - 53)
    /\ (m mod 2 ^ (D - 53) = 0 -> Zpos mz * 2 ^ (D - 53) = m /\ c = 0).
Proof.
  intros Hm HD He1 He2.
  destruct (Z.eq_dec D 53) as [-> | Hne].
  - change (2 ^ (53 - 1)) with (2 ^ 52) in Hm.
    rewrite round_aux_keep by (cbn [round_nearest_even]; lia).
    cbn [round_nearest_even].
    exists (Z.to_pos m), 0. rewrite Z2Pos.id by lia.
    replace (e + (53 - 53) + 0) with e by lia.
    change (2 ^ (53 - 53 + 0)) with 1. change (2 ^ (53 - 53)) with 1.
    repeat split; try lia; try (left; reflexivity).
  - set (k := D - 53) in *.
    assert (Hk : 0 < k) by (unfold k; lia).
    assert (HPk : 0 < 2 ^ k) by (apply Z.pow_pos_nonneg; lia).
    assert (HD1 : 2 ^ (D - 1) = 2 ^ 52 * 2 ^ k).
    { rewrite <- Z.pow_add_r by lia. f_equal. unfold k. lia. }
    assert (HD2 : 2 ^ D = 2 ^ 53 * 2 ^ k).
    { rewrite <- Z.pow_add_r by lia. f_equal. unfold k. lia. }
    assert (Hm0 : 0 <= m) by lia.
    unfold binary_round_aux.
    rewrite (shr_fexp_shift m e loc_Exact D); try lia.
    2:{ apply Zdigits2_unique; lia. }
    fold k.
    pose proof (shifted_exact m k Hm0 Hk) as Hsh.
    destruct (iter_pos shr_1 (Z.to_pos k) _) as [M r s].
    destruct Hsh as (HM & Hr & Hs). cbn [shr_m shr_r shr_s] in *.
    pose proof (Z.div_mod m (2 ^ k) ltac:(lia)) as Hdm.
    pose proof (Z.mod_pos_bound m (2 ^ k) HPk) as Hmb.
    rewrite <- HM in Hdm.
    set (rem := m mod 2 ^ k) in *.
    assert (HMr : 2 ^ 52 <= M < 2 ^ 53) by nia.
    set (l := loc_of_shr_record _).
    assert (Hm1 : M <= round_nearest_even M l <= M + 1
                  /\ 2 * Z.abs (round_nearest_even M l * 2 ^ k - m) <= 2 ^ k
                  /\ (rem = 0 -> round_nearest_even M l = M)).
    { pose proof (round_nearest_even_range M l) as Hrr.
      split; [exact Hrr | ].
      unfold l. destruct r, s; cbn [loc_of_shr_record round_nearest_even].
      - assert (2 ^ k <= 2 * rem) by (apply Hr; reflexivity).
        assert (rem <> 0 /\ 2 * rem <> 2 ^ k) by (apply Hs; reflexivity).
        split; [ | lia]. nia.
      - assert (2 ^ k <= 2 * rem) by (apply Hr; reflexivity).
        assert (2 * rem = 2 ^ k).
        { destruct (Z.eq_dec (2 * rem) (2 ^ k)); [assumption | ].
          assert (false = true); [ | discriminate]. apply Hs. lia. }
        split; [ | lia]. destruct (Z.even M); nia.
      - assert (~ 2 ^ k <= 2 * rem) by (intros H; apply Hr in H; discriminate).
        split; [ | reflexivity]. nia.
      - assert (~ 2 ^ k <= 2 * rem) by (intros H; apply Hr in H; discriminate).
        split; [ | reflexivity]. nia. }
    destruct Hm1 as (Hrange & Herr & Hex).
    set (m1 := round_nearest_even M l) in *.
    destruct (Z.lt_ge_cases m1 (2 ^ 53)) as [Hlt | Hge].
    + rewrite shr_fexp_keep; try lia.
      2:{ apply Zdigits2_unique; lia. }
      cbn [shr_record_of_loc shr_m].
      destruct m1 as [ | q | q ] eqn:E; try lia.
      replace (e + k <=? emax - prec) with true by (unfold emax, prec; lia).
      exists q, 0. replace (e + k + 0) with (e + k) by lia.
      replace (k + 0) with k by lia.
      repeat split; try lia; try (left; reflexivity).
    + assert (Hm1e : m1 = 2 ^ 53) by lia.
      rewrite Hm1e.
      rewrite shr_fexp_one; try lia.
      2:{ apply Zdigits2_unique; lia. }
      replace (e + k + 1 <=? emax - prec) with true by (unfold emax, prec; lia).
      exists (Z.to_pos (2 ^ 52)), 1.
      split; [reflexivity | ].
      rewrite Z2Pos.id by lia.
      split; [lia | ]. split; [right; split; reflexivity | ].
      rewrite Z.pow_add_r by lia. change (2 ^ 1) with 2.
      split; [ | intros H0; specialize (Hex H0); lia].
      rewrite Hm1e in Herr.
      replace (2 ^ 52 * (2 ^ k * 2)) with (2 ^ 53 * 2 ^ k) by lia.
      exact Herr.
Qed.

Lemma sqrt_core_wide (m e : Z) :
  2 ^ 52 <= m < 2 ^ 53 -> -53 <= e <= 53 ->
  let h := (54 + e) / 2 in
  let M := m * 2 ^ (e + 106 - 2 * h) in
  let q := Z.sqrt M in
  let r := M - q * q in
  SFsqrt_core_binary prec emax m e
  = (q, h - 53,
     if r =? 0 then loc_Exact
     else loc_Inexact (if r <=? q then Lt else Gt)).
Proof.
  intros Hm He h M q r. unfold SFsqrt_core_binary.
  rewrite (Zdigits2_unique m 53) by lia.
  replace (53 + e + 1) with (54 + e) by lia.
  rewrite (Z.div2_div (54 + e)). fold h.
  pose proof (Z.div_mod (54 + e) 2 ltac:(lia)) as Hdm.
  pose proof (Z.mod_pos_bound (54 + e) 2 ltac:(lia)) as Hmb.
  fold h in Hdm.
  assert (Hd2 : 2 * Z.div2 e <= e <= 2 * Z.div2 e + 1).
  { rewrite Z.div2_div. pose proof (Z.div_mod e 2 ltac:(lia)).
    pose proof (Z.mod_pos_bound e 2 ltac:(lia)). lia. }
  replace (Z.min (fexp prec emax h) (Z.div2 e)) with (h - 53)
    by (unfold fexp, emin, prec, emax; lia).
  replace (e - 2 * (h - 53)) with (e + 106 - 2 * h) by lia.
  rewrite shift_mantissa by lia. fold M.
  rewrite sqrtrem_sqrt_rem.
  2:{ unfold M. apply Z.mul_nonneg_nonneg; [lia | apply Z.pow_nonneg; lia]. }
  reflexivity.
Qed.

(** The square root of a float whose scaled mantissa lies within [n * E] of
    [(n * E)^2] is the integer [n] itself. *)
Lemma sqrt_exact_int (mx : positive) (ex n h : Z) :
  2 ^ 52 <= Zpos mx < 2 ^ 53 ->
  1 <= h <= 53 -> 2 ^ (h - 1) <= n < 2 ^ h ->
  2 * h <= 54 + ex <= 2 * h + 1 ->
  (let E := 2 ^ (53 - h) in
   let M := Zpos mx * 2 ^ (ex + 106 - 2 * h) in
   n * E * (n * E) - n * E < M <= n * E * (n * E) + n * E) ->
  py_int (SFsqrt prec emax (S754_finite false mx ex)) = Some n.
Proof.
  intros Hm Hh Hn Hex HM. cbv zeta in HM.
  unfold SFsqrt. rewrite sqrt_core_wide by lia.
  assert (Hh' : (54 + ex) / 2 = h).
  { symmetry. apply (Z.div_unique_pos (54 + ex) 2 h (54 + ex - 2 * h)); lia. }
  rewrite Hh'.
  set (s := ex + 106 - 2 * h) in *.
  assert (Hs : 52 <= s <= 53) by (unfold s; lia).
  set (M := Zpos mx * 2 ^ s) in *.
  set (q := Z.sqrt M).
  set (E := 2 ^ (53 - h)) in *.
  assert (HE : 0 < E) by (apply Z.pow_pos_nonneg; lia).
  assert (HPh : 0 < 2 ^ (h - 1)) by (apply Z.pow_pos_nonneg; lia).
  assert (HnE : 2 ^ 52 <= n * E < 2 ^ 53).
  { assert (2 ^ (h - 1) * E = 2 ^ 52).
    { unfold E. rewrite <- Z.pow_add_r by lia. f_equal; lia. }
    assert (2 ^ h * E = 2 ^ 53).
    { unfold E. rewrite <- Z.pow_add_r by lia. f_equal; lia. }
    nia. }
  set (T := n * E) in *.
  assert (HM0 : 0 <= M) by nia.
  assert (Hq : q * q <= M < (q + 1) * (q + 1)).
  { pose proof (Z.sqrt_spec M HM0) as Hq. cbv zeta in Hq. fold q in Hq. lia. }
  assert (Hq0 : 0 <= q) by apply Z.sqrt_nonneg.
  assert (HqT : q = T \/ q = T - 1).
  { assert (q < T + 1) by nia. assert (T - 2 < q) by nia. lia. }
  assert (HS : 0 < 2 ^ s) by (apply Z.pow_pos_nonneg; lia).
  assert (HMlo : 2 ^ 104 <= M).
  { unfold M. destruct (Z.eq_dec s 52) as [-> | ]; [ | replace s with 53 by lia]; lia. }
  assert (Hq52 : 2 ^ 52 <= q).
  { change (2 ^ 52) with (Z.sqrt (2 ^ 104)). apply Z.sqrt_le_mono. lia. }
  set (l := if M - q * q =? 0 then loc_Exact
            else loc_Inexact (if M - q * q <=? q then Lt else Gt)).
  assert (Hmy : round_nearest_even q l = T).
  { unfold l. destruct HqT as [Hq1 | Hq1].
    - assert (M - q * q <= q) by nia.
      destruct (Z.eqb_spec (M - q * q) 0); cbn [round_nearest_even]; [lia | ].
      destruct (Z.leb_spec (M - q * q) q); cbn [round_nearest_even]; lia.
    - assert (q < M - q * q) by nia.
      destruct (Z.eqb_spec (M - q * q) 0); cbn [round_nearest_even]; [lia | ].
      destruct (Z.leb_spec (M - q * q) q); cbn [round_nearest_even]; lia. }
  rewrite round_aux_keep by lia.
  rewrite Hmy. unfold py_int.
  destruct (h - 53) as [ | k | k ] eqn:Ek; try lia.
  - rewrite Z2Pos.id by lia. rewrite Z.shiftl_0_r.
    f_equal. unfold T, E. replace (53 - h) with 0 by lia. change (2 ^ 0) with 1. lia.
  - rewrite Z2Pos.id by lia.
    rewrite Z.shiftr_div_pow2 by lia.
    replace (Zpos k) with (53 - h) by lia. fold E.
    f_equal. unfold T. apply Z.div_mul. lia.
Qed.

Lemma div_core_75_wide (p d : Z) :
  2 ^ (d - 1) <= p < 2 ^ d -> 60 <= d ->
  SFdiv_core_binary prec emax p 0 75 0
  = (p / 75, 0, new_location 75 (p mod 75)).
Proof.
  intros Hp Hd. unfold SFdiv_core_binary.
  rewrite (Zdigits2_unique p d) by lia.
  change (Zdigits2 75) with 7.
  replace (Z.min (fexp prec emax (d + 0 - (7 + 0))) (0 - 0)) with 0
    by (unfold fexp, emin, prec, emax; lia).
  change (0 - 0 - 0) with 0. cbv iota.
  rewrite div_eucl_div_mod. reflexivity.
Qed.

(** Dividing a multiple of 75 by 75 rounds the exact quotient. *)
Lemma true_div_75_multiple (N : Z) :
  1 <= N ->
  exists s dN,
    0 <= s /\ 2 ^ (dN - 1) <= N < 2 ^ dN /\ 1 <= dN /\ 53 <= dN + s
    /\ (s = 0 \/ dN + s <= 54)
    /\ true_div (75 * N) 75
       = finite_or_raise
           (binary_round_aux prec emax false (N * 2 ^ s) (- s) loc_Exact).
Proof.
  intros HN.
  destruct N as [ | pn | pn ]; try lia.
  pose proof (digits2_pos_bounds pn) as HdN.
  set (dN := Zpos (digits2_pos pn)) in *.
  assert (HdN1 : 1 <= dN) by (unfold dN; lia).
  pose proof (digits2_pos_bounds (75 * pn)) as Hd.
  set (d := Zpos (digits2_pos (75 * pn))) in *.
  change (Zpos (75 * pn)) with (75 * Zpos pn) in Hd.
  assert (Hrel : dN + 6 <= d <= dN + 7).
  { assert (H64 : 2 ^ (dN + 5) = 64 * 2 ^ (dN - 1)).
    { change 64 with (2 ^ 6). rewrite <- Z.pow_add_r by lia. f_equal; lia. }
    assert (H128 : 2 ^ (dN + 7) = 128 * 2 ^ dN).
    { change 128 with (2 ^ 7). rewrite <- Z.pow_add_r by lia. f_equal; lia. }
    assert (HP : 0 < 2 ^ (dN - 1)) by (apply Z.pow_pos_nonneg; lia).
    split.
    - assert (dN + 5 < d); [ | lia]. apply (Z.pow_lt_mono_r_iff 2); lia.
    - assert (d - 1 < dN + 7); [ | lia]. apply (Z.pow_lt_mono_r_iff 2); lia. }
  unfold true_div. cbn [Z.mul Z.ltb Z.compare Z.abs Z.to_pos].
  unfold SFdiv. cbn [xorb].
  change (Zpos (75 * pn)) with (75 * Zpos pn).
  destruct (Z.le_gt_cases d 59) as [Hsmall | Hlarge].
  - exists (60 - d), dN.
    rewrite (div_core_75 (75 * Zpos pn) d) by lia.
    replace (75 * Zpos pn * 2 ^ (60 - d)) with (Zpos pn * 2 ^ (60 - d) * 75) by ring.
    rewrite Z.div_mul, Z.mod_mul by lia.
    replace (d - 60) with (- (60 - d)) by lia.
    repeat split; try lia; right; lia.
  - exists 0, dN.
    rewrite (div_core_75_wide (75 * Zpos pn) d) by lia.
    replace (75 * Zpos pn) with (Zpos pn * 75) by ring.
    rewrite Z.div_mul, Z.mod_mul by lia.
    rewrite Z.pow_0_r, ?Z.mul_1_r, ?Pos.mul_1_r.
    repeat split; try lia; left; lia.
Qed.

Lemma pow2_add (a b : Z) : 0 <= a -> 0 <= b -> 2 ^ (a + b) = 2 ^ a * 2 ^ b.
Proof. intros. apply Z.pow_add_r; assumption. Qed.

(** The number of bits of a square. *)
Lemma square_bits (n h dN : Z) :
  1 <= h -> 1 <= dN -> 2 ^ (h - 1) <= n < 2 ^ h ->
  2 ^ (dN - 1) <= n * n < 2 ^ dN ->
  (dN = 2 * h - 1 \/ dN = 2 * h) /\ 2 ^ (dN - h) < 2 * n.
Proof.
  intros Hh HdN1 Hn HdN.
  assert (HP : 0 < 2 ^ (h - 1)) by (apply Z.pow_pos_nonneg; lia).
  assert (H2 : 2 ^ h = 2 * 2 ^ (h - 1)).
  { replace h with (1 + (h - 1)) at 1 by lia. rewrite pow2_add by lia.
    reflexivity. }
  assert (HN1 : 2 ^ (h - 1) * 2 ^ (h - 1) <= n * n)
    by (apply Z.mul_le_mono_nonneg; lia).
  assert (HN2 : n * n < 2 ^ h * 2 ^ h)
    by (apply Z.mul_lt_mono_nonneg; lia).
  rewrite <- pow2_add in HN1, HN2 by lia.
  assert (Hd : dN = 2 * h - 1 \/ dN = 2 * h).
  { assert (h - 1 + (h - 1) < dN) by (apply (Z.pow_lt_mono_r_iff 2); lia).
    assert (dN - 1 < h + h) by (apply (Z.pow_lt_mono_r_iff 2); lia).
    lia. }
  split; [exact Hd | ].
  destruct Hd as [-> | ->].
  - replace (2 * h - 1 - h) with (h - 1) by lia. lia.
  - replace (2 * h - h) with h by lia. rewrite H2.
    assert (2 ^ (h - 1) < n); [ | lia].
    destruct (Z.lt_ge_cases (2 ^ (h - 1)) n) as [ | Hge]; [assumption | exfalso].
    assert (Hn' : n = 2 ^ (h - 1)) by lia.
    rewrite Hn' in HdN. rewrite <- pow2_add in HdN by lia.
    destruct HdN as [HdN _].
    apply Z.pow_le_mono_r_iff in HdN; lia.
Qed.

(** A square of [2 h] bits is too far below [2^(2 h)] to round up to it. *)
Lemma square_no_carry (n h k N : Z) :
  1 <= h <= 53 -> 2 ^ (h - 1) <= n < 2 ^ h -> N = n * n ->
  k = 2 * h - 53 -> 0 <= k ->
  2 * Z.abs (2 ^ (h + h) - N) <= 2 ^ k -> False.
Proof.
  intros Hh Hn HN Hk Hk0 Herr.
  assert (HP : 0 < 2 ^ (h - 1)) by (apply Z.pow_pos_nonneg; lia).
  assert (H2 : 2 ^ h = 2 * 2 ^ (h - 1)).
  { replace h with (1 + (h - 1)) at 1 by lia. rewrite pow2_add by lia.
    reflexivity. }
  assert (Hkh : 2 ^ k <= 2 ^ h) by (apply Z.pow_le_mono_r; lia).
  assert (HNle : N <= (2 ^ h - 1) * (2 ^ h - 1)).
  { rewrite HN. apply Z.mul_le_mono_nonneg; lia. }
  rewrite pow2_add in Herr by lia.
  set (P := 2 ^ h) in *.
  replace ((P - 1) * (P - 1)) with (P * P - 2 * P + 1) in HNle by ring.
  lia.
Qed.

(** The scaled mantissa of the rounded square lies within [n * E] of
    [(n * E)^2]. *)
Lemma square_root_window (n N E S K P X M : Z) :
  0 < E -> 0 < S -> N = n * n ->
  M * S = X * (E * E) ->
  2 * Z.abs (X - N * S) <= K ->
  K * E = P * S -> P < 2 * n ->
  n * E * (n * E) - n * E < M <= n * E * (n * E) + n * E.
Proof.
  intros HE HS HN HMX Herr HKE HP.
  set (T := n * E).
  assert (HEE : 0 < E * E) by (apply Z.mul_pos_pos; assumption).
  assert (H1 : (M - T * T) * S = (X - N * S) * (E * E)).
  { replace ((M - T * T) * S) with (M * S - N * S * (E * E))
      by (unfold T; rewrite HN; ring).
    rewrite HMX. ring. }
  assert (H2 : Z.abs (M - T * T) * S = Z.abs (X - N * S) * (E * E)).
  { transitivity (Z.abs ((M - T * T) * S)).
    - rewrite Z.abs_mul, (Z.abs_eq S) by lia. reflexivity.
    - rewrite H1, Z.abs_mul, (Z.abs_eq (E * E)) by lia. reflexivity. }
  assert (H3 : 2 * Z.abs (X - N * S) * (E * E) <= K * (E * E))
    by (apply Z.mul_le_mono_nonneg_r; lia).
  assert (H4 : 2 * Z.abs (M - T * T) * S <= P * E * S).
  { replace (2 * Z.abs (M - T * T) * S) with (2 * (Z.abs (M - T * T) * S)) by ring.
    rewrite H2.
    replace (P * E * S) with (K * (E * E)) by (rewrite Z.mul_assoc, HKE; ring).
    lia. }
  apply Z.mul_le_mono_pos_r in H4; [ | exact HS].
  assert (H5 : P * E < 2 * n * E) by (apply Z.mul_lt_mono_pos_r; assumption).
  fold T. unfold T in H5.
  assert (H6 : 2 * Z.abs (M - T * T) < 2 * T) by (unfold T in *; lia).
  lia.
Qed.

End PyFloatFacts.

(** ** The elapsed time in seconds

    [timedelta.total_seconds()] divides a number of microseconds by [10**6]
    in binary64.  Up to a cooldown of [2^32] seconds the rounding cannot
    carry an elapsed time that is below the cooldown up to it. *)

Module ElapsedFacts.
Import PyFloat PyFloatFacts.







End ElapsedFacts.

(** ** The level formula *)

(** Below [75 * 2^46] points the binary64 computation returns the integer
    square root of the integer quotient. *)
Lemma calculate_level_floor (points : Z) :
  points < 75 * 2 ^ 46 -> calculate_level points = Some (spec_level points).
Proof.
  intros Hp. unfold calculate_level, spec_level.
  destruct (Z.ltb_spec points 75) as [Hlt | Hge]; [reflexivity | ].
  destruct (PyFloatFacts.true_div_75_bounds points) as
    (mx & ex & Hdiv & Hmx & Hex & Hlo & Hup); [lia | ].
  rewrite Hdiv. cbn [PyFloat.math_sqrt].
  set (n := Z.sqrt (points / 75)).
  assert (Hq : 0 <= points / 75) by (apply Z.div_pos; lia).
  pose proof (Z.sqrt_spec (points / 75) Hq) as Hs. cbv zeta in Hs. fold n in Hs.
  assert (Hn : 0 <= n) by apply Z.sqrt_nonneg.
  pose proof (Z.div_mod points 75 ltac:(lia)) as Hdm.
  pose proof (Z.mod_pos_bound points 75 ltac:(lia)) as Hmb.
  apply PyFloatFacts.sqrt_floor_int; try lia.
  - apply Hlo; nia.
  - apply Hup. nia.
Qed.

(** ** Frame lemmas: what the operations leave alone *)

Ltac case_if :=
  match goal with
  | |- context [if ?b then _ else _] => destruct b eqn:?
  end.

Lemma get_user_data_config st g u :
  config (fst (get_user_data st g u)) = config st.
Proof.
  unfold get_user_data. case_if; [reflexivity | ].
  destruct (find _ _); reflexivity.
Qed.

Lemma get_user_data_db_ready st g u :
  db_ready (fst (get_user_data st g u)) = db_ready st.
Proof.
  unfold get_user_data. case_if; [reflexivity | ].
  destruct (find _ _); reflexivity.
Qed.


(** [get_user_data] leaves the table alone when the row exists and appends
    an all-zero row otherwise. *)
Lemma get_user_data_rows st g u :
  user_levels (fst (get_user_data st g u))
  = if db_ready st then
      match find (row_matches g u) (user_levels st) with
      | Some _ => user_levels st
      | None => user_levels st ++ [new_row g u]
      end
    else user_levels st.
Proof.
  unfold get_user_data. destruct (db_ready st); cbn [negb]; [ | reflexivity].
  destruct (find _ _); reflexivity.
Qed.

Lemma get_user_data_Forall (P : UserRow -> Prop) st g u :
  P (new_row g u) ->
  Forall P (user_levels st) ->
  Forall P (user_levels (fst (get_user_data st g u))).
Proof.
  intros Hnew Hall. rewrite get_user_data_rows.
  destruct (db_ready st); [ | assumption].
  destruct (find _ _); [assumption | ].
  apply Forall_app. split; [assumption | ]. constructor; [assumption | constructor].
Qed.

Lemma update_where_Forall (P : UserRow -> Prop) g u f t :
  (forall r, P r -> row_matches g u r = true -> P (f r)) ->
  Forall P t -> Forall P (update_where g u f t).
Proof.
  intros Hf Hall. unfold update_where.
  induction Hall as [ | r t Hr Ht IH]; cbn [map]; constructor; try assumption.
  destruct (row_matches g u r) eqn:E; auto.
Qed.

(** A predicate on rows that holds of a fresh row and of every row whose
    points are not negative and whose level is the one [calculate_level]
    returns for these points. *)
Definition row_invariant (P : UserRow -> Prop) : Prop :=
  (forall g u, P (new_row g u))
  /\ (forall g u e l tm vt w lm,
        0 <= e -> calculate_level e = Some l ->
        P (mkUserRow g u e l tm vt w lm)).

Lemma update_user_exp_Forall (P : UserRow -> Prop) st member gain ty now :
  row_invariant P ->
  Forall P (user_levels st) ->
  Forall P (user_levels (fst (update_user_exp st member gain ty now))).
Proof.
  intros [Hnew Hupd] Hall. unfold update_user_exp.
  case_if; [assumption | ].
  pose proof (get_user_data_Forall P st (member_guild member)
                (member_id member) (Hnew _ _) Hall) as H1.
  destruct (get_user_data st (member_guild member) (member_id member))
    as [st1 user_data].
  cbn [fst] in H1.
  destruct (calculate_level _) as [new | ] eqn:Hlvl; [ | assumption].
  case_if; [ | assumption].
  cbn [fst set_user_levels user_levels].
  apply update_where_Forall; [ | assumption].
  intros r _ _. destruct ty; cbn [apply_update_sql]; apply Hupd; try lia; assumption.
Qed.

Lemma update_user_exp_config st member gain ty now :
  config (fst (update_user_exp st member gain ty now)) = config st.
Proof.
  unfold update_user_exp. case_if; [reflexivity | ].
  pose proof (get_user_data_config st (member_guild member) (member_id member)) as H1.
  destruct (get_user_data st (member_guild member) (member_id member))
    as [st1 user_data].
  cbn [fst] in H1.
  destruct (calculate_level _); [ | assumption].
  case_if; assumption.
Qed.

Lemma update_user_exp_db_ready st member gain ty now :
  db_ready (fst (update_user_exp st member gain ty now)) = db_ready st.
Proof.
  unfold update_user_exp. case_if; [reflexivity | ].
  pose proof (get_user_data_db_ready st (member_guild member) (member_id member)) as H1.
  destruct (get_user_data st (member_guild member) (member_id member))
    as [st1 user_data].
  cbn [fst] in H1.
  destruct (calculate_level _); [ | assumption].
  case_if; assumption.
Qed.

(** *** The voice tick as written leaves the whole state alone *)

Lemma call_from_voice_raises now st member final_exp :
  call_update_user_exp ["from_voice"] now st member final_exp
  = (st, Raised TypeError).
Proof. reflexivity. Qed.

Lemma award_members_from_voice now base_exp st members :
  fst (award_members (call_update_user_exp ["from_voice"] now)
         base_exp st members) = st.
Proof.
  destruct members as [ | member rest]; cbn [award_members]; [reflexivity | ].
  destruct (scaled_exp _ _); [reflexivity | ].
  rewrite call_from_voice_raises. reflexivity.
Qed.

Lemma award_channels_from_voice now blacklisted base_exp st channels :
  fst (award_channels (call_update_user_exp ["from_voice"] now)
         blacklisted base_exp st channels) = st.
Proof.
  induction channels as [ | vc rest IH]; cbn [award_channels]; [reflexivity | ].
  case_if; [exact IH | ].
  case_if; [exact IH | ].
  pose proof (award_members_from_voice now base_exp st (active_members vc)) as Hm.
  destruct (award_members _ _ _ _) as [st1 [ | e] ]; cbn [fst] in Hm; subst st1.
  - exact IH.
  - reflexivity.
Qed.

Lemma award_guilds_from_voice now blacklisted st guilds :
  fst (award_guilds (call_update_user_exp ["from_voice"] now)
         blacklisted st guilds) = st.
Proof.
  induction guilds as [ | g rest IH]; cbn [award_guilds]; [reflexivity | ].
  pose proof (award_channels_from_voice now blacklisted
                (default 0 (exp_per_voice_minute (config st))) st
                (voice_channels g)) as Hc.
  destruct (award_channels _ _ _ _ _) as [st1 [ | e] ]; cbn [fst] in Hc; subst st1.
  - exact IH.
  - reflexivity.
Qed.

Lemma voice_exp_task_state st guilds now :
  fst (voice_exp_task st guilds now) = st.
Proof.
  unfold voice_exp_task, voice_exp_task_with.
  case_if; [reflexivity | ]. apply award_guilds_from_voice.
Qed.

(** ** The voice tick *)

(** Rows of other users are not touched by [update_user_exp]. *)
Lemma row_matches_new_row g u g' u' :
  row_matches g' u' (new_row g u) = (g =? g') && (u =? u').
Proof. reflexivity. Qed.

Lemma rows_of_update_where_other g u g' u' f t :
  (g, u) <> (g', u') ->
  (forall r, guild_id (f r) = guild_id r /\ user_id (f r) = user_id r) ->
  rows_of g' u' (update_where g u f t) = rows_of g' u' t.
Proof.
  intros Hne Hf. unfold rows_of, update_where.
  induction t as [ | r t IH]; cbn [map filter]; [reflexivity | ].
  destruct (row_matches g u r) eqn:Er.
  - assert (row_matches g' u' (f r) = false) as ->.
    { unfold row_matches in *. destruct (Hf r) as [-> ->].
      apply andb_true_iff in Er. destruct Er as [Eg Eu].
      apply Z.eqb_eq in Eg, Eu.
      apply andb_false_iff.
      destruct (Z.eqb_spec (guild_id r) g'); [ | left; reflexivity].
      destruct (Z.eqb_spec (user_id r) u'); [ | right; reflexivity].
      exfalso. apply Hne. congruence. }
    assert (row_matches g' u' r = false) as ->.
    { unfold row_matches in *.
      apply andb_true_iff in Er. destruct Er as [Eg Eu].
      apply Z.eqb_eq in Eg, Eu.
      apply andb_false_iff.
      destruct (Z.eqb_spec (guild_id r) g'); [ | left; reflexivity].
      destruct (Z.eqb_spec (user_id r) u'); [ | right; reflexivity].
      exfalso. apply Hne. congruence. }
    exact IH.
  - rewrite IH. reflexivity.
Qed.

Lemma rows_of_get_user_data_other st g u g' u' :
  (g, u) <> (g', u') ->
  rows_of g' u' (user_levels (fst (get_user_data st g u)))
  = rows_of g' u' (user_levels st).
Proof.
  intros Hne. rewrite get_user_data_rows.
  destruct (db_ready st); [ | reflexivity].
  destruct (find _ _); [reflexivity | ].
  unfold rows_of. rewrite filter_app. cbn [filter].
  rewrite row_matches_new_row.
  destruct (Z.eqb_spec g g'); destruct (Z.eqb_spec u u'); cbn [andb];
    try (rewrite app_nil_r; reflexivity).
  exfalso. apply Hne. congruence.
Qed.

Lemma rows_of_update_user_exp_other st member gain ty now g' u' :
  (member_guild member, member_id member) <> (g', u') ->
  rows_of g' u' (user_levels (fst (update_user_exp st member gain ty now)))
  = rows_of g' u' (user_levels st).
Proof.
  intros Hne. unfold update_user_exp. case_if; [reflexivity | ].
  pose proof (rows_of_get_user_data_other st _ _ _ _ Hne) as H1.
  destruct (get_user_data st (member_guild member) (member_id member))
    as [st1 user_data].
  cbn [fst] in H1.
  destruct (calculate_level _); [ | assumption].
  case_if; [ | assumption].
  cbn [fst set_user_levels user_levels].
  rewrite rows_of_update_where_other; try assumption.
  intros r. destruct ty; split; reflexivity.
Qed.

Lemma award_members_voice_frame now base_exp g u members :
  (forall m, In m members -> (member_guild m, member_id m) <> (g, u)) ->
  forall st,
    rows_of g u (user_levels
                   (fst (award_members (call_update_user_exp_voice now)
                           base_exp st members)))
    = rows_of g u (user_levels st).
Proof.
  induction members as [ | m rest IH]; intros Hne st; cbn [award_members];
    [reflexivity | ].
  destruct (scaled_exp _ _) as [e | final_exp]; [reflexivity | ].
  unfold call_update_user_exp_voice.
  rewrite IH by (intros m' Hm'; apply Hne; right; exact Hm').
  apply rows_of_update_user_exp_other. apply Hne. left; reflexivity.
Qed.

Lemma award_channels_voice_frame now blacklisted base_exp g u channels :
  only_in_skipped_channels blacklisted g u channels ->
  forall st,
    rows_of g u (user_levels
                   (fst (award_channels (call_update_user_exp_voice now)
                           blacklisted base_exp st channels)))
    = rows_of g u (user_levels st).
Proof.
  induction channels as [ | vc rest IH]; intros Hskip st; cbn [award_channels];
    [reflexivity | ].
  assert (Hrest : only_in_skipped_channels blacklisted g u rest).
  { intros vc' m Hvc Hm Heq. apply (Hskip vc' m); [right | | ]; assumption. }
  destruct (mem (vc_id vc) blacklisted) eqn:Hbl; [apply IH; exact Hrest | ].
  destruct (Z.ltb_spec (Z.of_nat (List.length (active_members vc))) 2)
    as [Hsmall | Hbig]; [apply IH; exact Hrest | ].
  assert (Hne : forall m, In m (active_members vc) ->
                          (member_guild m, member_id m) <> (g, u)).
  { intros m Hm Heq.
    destruct (Hskip vc m (or_introl eq_refl) Hm Heq) as [Hb | Hs];
      [congruence | lia]. }
  pose proof (award_members_voice_frame now base_exp g u
                (active_members vc) Hne st) as Hm.
  destruct (award_members _ _ _ _) as [st1 [ | e] ]; cbn [fst] in Hm |- *.
  - rewrite IH by exact Hrest. exact Hm.
  - exact Hm.
Qed.

Lemma award_guilds_voice_frame now blacklisted g u guilds :
  (forall guild, In guild guilds ->
     only_in_skipped_channels blacklisted g u (voice_channels guild)) ->
  forall st,
    rows_of g u (user_levels
                   (fst (award_guilds (call_update_user_exp_voice now)
                           blacklisted st guilds)))
    = rows_of g u (user_levels st).
Proof.
  induction guilds as [ | guild rest IH]; intros Hskip st; cbn [award_guilds];
    [reflexivity | ].
  pose proof (award_channels_voice_frame now blacklisted
                (default 0 (exp_per_voice_minute (config st))) g u
                (voice_channels guild) (Hskip guild (or_introl eq_refl)) st)
    as Hc.
  destruct (award_channels _ _ _ _ _) as [st1 [ | e] ]; cbn [fst] in Hc |- *.
  - rewrite IH by (intros guild' Hg; apply Hskip; right; exact Hg). exact Hc.
  - exact Hc.
Qed.

(** Had the tick called [update_user_exp] with [ExpGainType.VOICE], a user
    who is an active member of skipped channels only would keep their rows
    all the same. *)
Lemma voice_tick_voice_call_frame now st guilds g u :
  (forall guild, In guild guilds ->
     only_in_skipped_channels
       (default [] (blacklisted_channels (config st))) g u
       (voice_channels guild)) ->
  rows_of g u (user_levels
                 (fst (voice_exp_task_with (call_update_user_exp_voice now)
                         st guilds)))
  = rows_of g u (user_levels st).
Proof.
  intros Hskip. unfold voice_exp_task_with.
  case_if; [reflexivity | ]. apply award_guilds_voice_frame. exact Hskip.
Qed.

(** C4, at a tick with two active members in one channel: the call
    [update_user_exp(member, final_exp, from_voice=True)] raises [TypeError],
    so the tick ends there and nobody gains points or voice minutes; the
    call with [ExpGainType.VOICE], which the signature provides, gives each
    of the two members [int(5 * 1.0) = 5] points and one voice minute. *)
Theorem voice_tick_raises_type_error :
  voice_exp_task st_ready [guild_10] 0 = (st_ready, Raised TypeError)
  /\ map (fun r => (user_id r, exp r, voice_time r))
         (user_levels
            (fst (voice_exp_task_with (call_update_user_exp_voice 0)
                    st_ready [guild_10])))
     = [(2, 5, 1); (3, 5, 1)].
Proof. split; vm_compute; reflexivity. Qed.

(** C5: the voice tick leaves the rows (points, voice minutes and all other
    columns) of every member of a voice channel with fewer than two active
    members as they were. *)
Theorem voice_tick_skips_small_channels st guilds now guild vc m :
  In guild guilds -> In vc (voice_channels guild) -> In m (vc_members vc) ->
  (List.length (active_members vc) < 2)%nat ->
  rows_of (member_guild m) (member_id m)
          (user_levels (fst (voice_exp_task st guilds now)))
  = rows_of (member_guild m) (member_id m) (user_levels st).
Proof.
  intros _ _ _ _. rewrite voice_exp_task_state. reflexivity.
Qed.

Lemma voice_tick_skips_small_channels_witness :
  rows_of 10 2 (user_levels (fst (voice_exp_task st_ready [guild_10_booth] 0)))
  = rows_of 10 2 (user_levels st_ready).
Proof.
  apply (voice_tick_skips_small_channels st_ready [guild_10_booth] 0
           guild_10_booth booth alice).
  - left; reflexivity.
  - left; reflexivity.
  - left; reflexivity.
  - cbn. lia.
Defined.

(** ** Messages *)





Lemma dict_get_set_same (d : list (Z * Z)) k v :
  dict_get Z.eqb (dict_set Z.eqb d k v) k = Some v.
Proof.
  induction d as [ | [k' v'] d IH]; cbn [dict_set dict_get].
  - rewrite Z.eqb_refl. reflexivity.
  - destruct (Z.eqb_spec k k') as [-> | Hne]; cbn [dict_get].
    + rewrite Z.eqb_refl. reflexivity.
    + destruct (Z.eqb_spec k k'); [contradiction | exact IH].
Qed.

(** The time recorded for an author is the time of the last message that
    went through to the award. *)
Lemma on_message_records_award st message now :
  message_cooldowns (fst (on_message st message now)) = message_cooldowns st
  \/ dict_get Z.eqb (message_cooldowns (fst (on_message st message now)))
                    (member_id (author message)) = Some now.
Proof.
  unfold on_message.
  repeat (case_if; [left; reflexivity | ]).
  destruct (scaled_exp _ _) as [e | final_exp]; [left; reflexivity | ].
  destruct (update_user_exp _ _ _ _ _) as [st1 up].
  right. cbn [fst set_message_cooldowns message_cooldowns].
  apply dict_get_set_same.
Qed.

(** ** Role multipliers *)



Lemma string_keys_set d s v :
  string_keys d -> string_keys (dict_set PyKey_eqb d (KStr s) v).
Proof.
  induction d as [ | [k' v'] d IH]; intros Hk k v0 Hin; cbn [dict_set] in Hin.
  - destruct Hin as [Heq | [] ]. inversion Heq; subst. eauto.
  - destruct (PyKey_eqb (KStr s) k') eqn:E.
    + destruct Hin as [Heq | Hin].
      * inversion Heq; subst. apply (Hk k v'). left; reflexivity.
      * apply (Hk k v0). right; exact Hin.
    + destruct Hin as [Heq | Hin].
      * inversion Heq; subst. apply (Hk k v0). left; reflexivity.
      * refine (IH _ k v0 Hin).
        intros k1 v1 H1. apply (Hk k1 v1). right; exact H1.
Qed.

Lemma string_keys_del d k :
  string_keys d -> string_keys (dict_del PyKey_eqb d k).
Proof.
  induction d as [ | [k' v'] d IH]; intros Hk k0 v0 Hin; cbn [dict_del] in Hin;
    [destruct Hin | ].
  destruct (PyKey_eqb k k').
  - apply (Hk k0 v0). right; exact Hin.
  - destruct Hin as [Heq | Hin].
    + apply (Hk k0 v0). left; exact Heq.
    + refine (IH _ k0 v0 Hin).
      intros k1 v1 H1. apply (Hk k1 v1). right; exact H1.
Qed.

(** [/xp-role-multiplier set] only ever writes string keys. *)
Lemma role_multiplier_set_string_keys st i role multiplier :
  string_keys (default [] (role_multipliers (config st))) ->
  string_keys
    (default []
       (role_multipliers
          (config (fst (role_multiplier_set st i role multiplier))))).
Proof.
  intros Hk. unfold role_multiplier_set.
  repeat (case_if; [exact Hk | ]).
  case_if.
  - case_if; [ | exact Hk]. cbn. apply string_keys_del. exact Hk.
  - cbn. apply string_keys_set. exact Hk.
Qed.

(** C9, after [/xp-role-multiplier set] with role [42] and bonus [0.5]: the
    bonus is stored under the string ["42"], the multiplier of a member who
    holds role [42] is still [1.0], and a rewarded message gives that member
    [10] points where [int(10 * (1 + 0.5))] is [15]. *)
Theorem role_bonus_not_applied :
  role_multipliers (config st_bonus) = Some [(KStr "42", PyFloat.half)]
  /\ get_multiplier (config st_bonus) booster = PyFloat.one
  /\ map (fun r => (user_id r, exp r))
         (user_levels
            (fst (on_message st_bonus (mkMessage booster (Some 10) 7) 0)))
     = [(4, 10)]
  /\ scaled_exp 10 (PyFloat.add PyFloat.one PyFloat.half) = inr 15.
Proof. repeat split; vm_compute; reflexivity. Qed.

(** ** Commands while the store is down *)




(** ** [/xp-set-activity] with one parameter left out *)

(** C10: when exactly one of [messages] and [temps_vocal] is omitted, the
    command ends without touching the state: with a failure reply (no
    permission, store unavailable, negative value) or with the [TypeError]
    raised by comparing [None] with [0]. *)
Theorem set_activity_one_omitted st i utilisateur messages temps_vocal :
  (messages = None /\ temps_vocal <> None)
  \/ (messages <> None /\ temps_vocal = None) ->
  fst (set_activity st i utilisateur messages temps_vocal) = st
  /\ (response (snd (set_activity st i utilisateur messages temps_vocal))
      = inl TypeError
      \/ exists msg,
           response (snd (set_activity st i utilisateur messages temps_vocal))
           = inr (Failure msg)).
Proof.
  intros H. unfold set_activity.
  case_if; [split; [reflexivity | right; eexists; reflexivity] | ].
  case_if; [split; [reflexivity | right; eexists; reflexivity] | ].
  destruct H as [ [-> Hv] | [Hm ->] ].
  - cbn. split; [reflexivity | left; reflexivity].
  - destruct messages as [m | ]; [ | contradiction].
    cbn [negative_activity]. destruct (m <? 0).
    + split; [reflexivity | right; eexists; reflexivity].
    + split; [reflexivity | left; reflexivity].
Qed.

Lemma set_activity_one_omitted_witness :
  fst (set_activity st_ready by_admin alice (Some 3) None) = st_ready
  /\ (response (snd (set_activity st_ready by_admin alice (Some 3) None))
      = inl TypeError
      \/ exists msg,
           response (snd (set_activity st_ready by_admin alice (Some 3) None))
           = inr (Failure msg)).
Proof.
  apply set_activity_one_omitted.
  right. split; [discriminate | reflexivity].
Defined.

(** ** Invariants of the table *)

Section Invariants.

Variable P : UserRow -> Prop.
Hypothesis HP : row_invariant P.

Ltac frame_simple :=
  repeat case_if; cbn; trivial.

Lemma set_xp_cooldown_invariant st cooldown :
  table_invariant P st -> table_invariant P (fst (set_xp_cooldown st cooldown)).
Proof.
  intros [Hrows Hrates]. unfold set_xp_cooldown.
  destruct cooldown as [c | ]; [ | split; assumption].
  case_if; split; assumption.
Qed.

Lemma set_xp_voice_invariant st voice cooldown :
  table_invariant P st -> table_invariant P (fst (set_xp_voice st voice cooldown)).
Proof.
  intros [Hrows Hrates]. unfold set_xp_voice.
  destruct voice as [v | ]; [ | apply set_xp_cooldown_invariant; split; assumption].
  destruct (Z.ltb_spec v 0); [split; assumption | ].
  apply set_xp_cooldown_invariant. split; [assumption | ].
  destruct Hrates as [Hm Hv]. split; cbn; [exact Hm | lia].
Qed.

Lemma set_activity_invariant st i utilisateur messages temps_vocal :
  table_invariant P st ->
  table_invariant P (fst (set_activity st i utilisateur messages temps_vocal)).
Proof.
  intros [Hrows Hrates]. unfold set_activity.
  case_if; [split; assumption | ].
  case_if; [split; assumption | ].
  destruct messages as [m | ]; cbn [negative_activity]; [ | split; assumption].
  destruct (Z.ltb_spec m 0) as [ | Hm]; [split; assumption | ].
  destruct temps_vocal as [v | ]; [ | split; assumption].
  destruct (Z.ltb_spec v 0) as [ | Hv]; [split; assumption | ].
  cbn [is_none andb default].
  pose proof (get_user_data_Forall P st (interaction_guild i)
                (member_id utilisateur) (proj1 HP _ _) Hrows) as H1.
  pose proof (get_user_data_config st (interaction_guild i)
                (member_id utilisateur)) as Hc.
  destruct (get_user_data st (interaction_guild i) (member_id utilisateur))
    as [st1 user_data].
  cbn [fst] in H1, Hc.
  assert (Hinv1 : table_invariant P st1) by (split; [assumption | rewrite Hc; assumption]).
  unfold calculate_exp_from_activity.
  destruct (exp_per_message (config st1)) as [rm | ] eqn:Erm; [ | exact Hinv1].
  destruct (exp_per_voice_minute (config st1)) as [rv | ] eqn:Erv; [ | exact Hinv1].
  destruct (calculate_level _) as [new | ] eqn:Hlvl; [ | exact Hinv1].
  case_if; [ | exact Hinv1].
  split; cbn; [ | rewrite Hc; exact Hrates].
  apply update_where_Forall; [ | assumption].
  intros r _ _. apply (proj2 HP); [ | exact Hlvl].
  destruct Hrates as [Hrm Hrv]. rewrite <- Hc, Erm, Erv in *. cbn in Hrm, Hrv.
  nia.
Qed.

Lemma run_command_invariant st i c now :
  table_invariant P st -> table_invariant P (fst (run_command st i c now)).
Proof.
  intros Hinv. pose proof Hinv as [Hrows Hrates].
  destruct c; cbn [run_command].
  - (* /niveau *)
    unfold display_level_info. case_if; [exact Hinv | ].
    pose proof (get_user_data_Forall P st (interaction_guild i)
                  (member_id (default (user i) utilisateur))
                  (proj1 HP _ _) Hrows) as H1.
    pose proof (get_user_data_config st (interaction_guild i)
                  (member_id (default (user i) utilisateur))) as Hc.
    destruct (get_user_data _ _ _) as [st1 ud]. cbn [fst] in *.
    split; [assumption | rewrite Hc; assumption].
  - (* /level *)
    unfold display_level_info. case_if; [exact Hinv | ].
    pose proof (get_user_data_Forall P st (interaction_guild i)
                  (member_id (default (user i) utilisateur))
                  (proj1 HP _ _) Hrows) as H1.
    pose proof (get_user_data_config st (interaction_guild i)
                  (member_id (default (user i) utilisateur))) as Hc.
    destruct (get_user_data _ _ _) as [st1 ud]. cbn [fst] in *.
    split; [assumption | rewrite Hc; assumption].
  - unfold display_leaderboard. repeat case_if; try exact Hinv;
      destruct (skipn _ _); exact Hinv.
  - unfold display_leaderboard. repeat case_if; try exact Hinv;
      destruct (skipn _ _); exact Hinv.
  - unfold display_leaderboard. repeat case_if; try exact Hinv;
      destruct (skipn _ _); exact Hinv.
  - (* /xp add *)
    unfold add_exp. repeat (case_if; [exact Hinv | ]).
    pose proof (update_user_exp_Forall P st utilisateur montant MESSAGE now HP Hrows) as H1.
    pose proof (update_user_exp_config st utilisateur montant MESSAGE now) as Hc.
    destruct (update_user_exp _ _ _ _ _) as [st1 up]. cbn [fst] in *.
    split; [assumption | rewrite Hc; assumption].
  - (* /xp remove *)
    unfold remove_exp. repeat (case_if; [exact Hinv | ]).
    pose proof (get_user_data_Forall P st (interaction_guild i)
                  (member_id utilisateur) (proj1 HP _ _) Hrows) as H1.
    pose proof (get_user_data_config st (interaction_guild i)
                  (member_id utilisateur)) as Hc.
    destruct (get_user_data _ _ _) as [st1 ud]. cbn [fst] in *.
    case_if; [cbn [fst]; split; [assumption | rewrite Hc; assumption] | ].
    pose proof (update_user_exp_Forall P st1 utilisateur (- montant) MESSAGE now HP H1) as H2.
    pose proof (update_user_exp_config st1 utilisateur (- montant) MESSAGE now) as Hc2.
    destruct (update_user_exp _ _ _ _ _) as [st2 up]. cbn [fst] in *.
    split; [assumption | rewrite Hc2, Hc; assumption].
  - (* /xp set *)
    unfold set_exp. repeat (case_if; [exact Hinv | ]).
    pose proof (get_user_data_Forall P st (interaction_guild i)
                  (member_id utilisateur) (proj1 HP _ _) Hrows) as H1.
    pose proof (get_user_data_config st (interaction_guild i)
                  (member_id utilisateur)) as Hc.
    destruct (get_user_data _ _ _) as [st1 ud]. cbn [fst] in *.
    assert (Hinv1 : table_invariant P st1) by (split; [assumption | rewrite Hc; assumption]).
    destruct (calculate_level montant) as [new | ] eqn:Hlvl; [ | exact Hinv1].
    case_if; [ | exact Hinv1].
    split; cbn; [ | rewrite Hc; exact Hrates].
    apply update_where_Forall; [ | assumption].
    intros r _ _. apply (proj2 HP); [lia | exact Hlvl].
  - apply set_activity_invariant. exact Hinv.
  - unfold toggle_remove_previous. case_if; exact Hinv.
  - (* /level-debug *)
    unfold level_debug. case_if; [exact Hinv | ].
    destruct utilisateur as [m | ]; [ | exact Hinv]. cbn [fst].
    split.
    + apply get_user_data_Forall; [apply (proj1 HP) | assumption].
    + rewrite get_user_data_config. assumption.
  - unfold blacklist_list_channels. repeat (case_if; [exact Hinv | ]).
    destruct (default _ _); exact Hinv.
  - unfold blacklist_add_channel. repeat case_if; exact Hinv.
  - unfold blacklist_remove_channel. repeat case_if; exact Hinv.
  - unfold show_xp_settings. repeat case_if; exact Hinv.
  - (* /xp-settings set *)
    unfold set_xp_settings. repeat (case_if; [exact Hinv | ]).
    destruct exp_per_message' as [v | ]; [ | apply set_xp_voice_invariant; exact Hinv].
    destruct (Z.ltb_spec v 0); [exact Hinv | ].
    apply set_xp_voice_invariant. split; [assumption | ].
    destruct Hrates as [Hm Hv]. split; cbn; [lia | exact Hv].
  - unfold role_multiplier_set. repeat case_if; exact Hinv.
  - unfold role_multiplier_list. repeat (case_if; [exact Hinv | ]).
    destruct (default _ _); exact Hinv.
  - unfold set_level_reward. repeat case_if; exact Hinv.
  - unfold remove_level_reward. repeat case_if; exact Hinv.
  - unfold list_level_rewards. repeat (case_if; [exact Hinv | ]).
    destruct (default _ _); exact Hinv.
  - unfold set_rewards_message. repeat (case_if; [exact Hinv | ]).
    destruct message; repeat case_if; exact Hinv.
  - unfold list_rewards_messages. repeat (case_if; [exact Hinv | ]).
    destruct (default _ _); exact Hinv.
  - unfold set_rewards_channel. repeat (case_if; [exact Hinv | ]).
    destruct channel; [exact Hinv | ].
    destruct (level_channel_id _); repeat case_if; exact Hinv.
  - unfold add_admin_role. repeat case_if; exact Hinv.
  - unfold remove_admin_role. repeat (case_if; [exact Hinv | ]).
    destruct (default _ _); repeat case_if; exact Hinv.
  - unfold list_admin_roles. repeat (case_if; [exact Hinv | ]).
    destruct (default _ _); exact Hinv.
Qed.

Lemma on_message_invariant st message now :
  table_invariant P st -> table_invariant P (fst (on_message st message now)).
Proof.
  intros Hinv. pose proof Hinv as [Hrows Hrates]. unfold on_message.
  repeat (case_if; [exact Hinv | ]).
  destruct (scaled_exp _ _) as [e | final_exp]; [exact Hinv | ].
  pose proof (update_user_exp_Forall P st (author message) final_exp MESSAGE now HP Hrows) as H1.
  pose proof (update_user_exp_config st (author message) final_exp MESSAGE now) as Hc.
  destruct (update_user_exp _ _ _ _ _) as [st1 up]. cbn [fst] in *.
  split; cbn; [assumption | rewrite Hc; assumption].
Qed.

Variable int_of_str : string -> option Z.
Variable guild_has_role : Z -> bool.
Variable add_roles_ok : Z -> bool.
Variable remove_roles_ok : Z -> bool.

Lemma update_rewards_user_levels st member member_level :
  user_levels
    (fst (update_rewards int_of_str guild_has_role add_roles_ok
            remove_roles_ok st member member_level)) = user_levels st
  /\ config
       (fst (update_rewards int_of_str guild_has_role add_roles_ok
               remove_roles_ok st member member_level)) = config st.
Proof.
  unfold update_rewards. destruct (db_ready st); [ | split; reflexivity].
  destruct (fold_left _ _ _) as [ [held table] raised].
  destruct raised; split; reflexivity.
Qed.

(** Every event preserves the invariant. *)
Lemma step_invariant st ev :
  table_invariant P st ->
  table_invariant P
    (step int_of_str guild_has_role add_roles_ok remove_roles_ok st ev).
Proof.
  intros Hinv. destruct ev; cbn [step].
  - apply on_message_invariant. exact Hinv.
  - rewrite voice_exp_task_state. exact Hinv.
  - apply run_command_invariant. exact Hinv.
  - destruct (update_rewards_user_levels st member member_level) as [Hu Hc].
    destruct Hinv as [Hrows Hrates]. split; [rewrite Hu | rewrite Hc]; assumption.
Qed.

End Invariants.

(** ** Reward reconciliation *)

Section RewardsFacts.

Variable int_of_str : string -> option Z.
Variable guild_has_role : Z -> bool.
Variable add_roles_ok : Z -> bool.
Variable remove_roles_ok : Z -> bool.

Lemma mem_In x l : mem x l = true <-> In x l.
Proof.
  unfold mem. rewrite existsb_exists. split.
  - intros (y & Hy & E). apply Z.eqb_eq in E. subst. exact Hy.
  - intros H. exists x. split; [exact H | apply Z.eqb_refl].
Qed.

Lemma applicable_In member_level d l r :
  In (l, r) (applicable_roles int_of_str member_level d)
  <-> In (l, r) (parse_rewards int_of_str d) /\ l <= member_level.
Proof.
  unfold applicable_roles. rewrite filter_In. cbn.
  rewrite Z.leb_le. reflexivity.
Qed.

Lemma non_applicable_In member_level d l r :
  In (l, r) (non_applicable_roles int_of_str member_level d)
  <-> In (l, r) (parse_rewards int_of_str d) /\ member_level < l.
Proof.
  unfold non_applicable_roles. rewrite filter_In. cbn.
  rewrite negb_true_iff, Z.leb_gt. reflexivity.
Qed.

(** The loop that looks for the topmost role returns a level that bounds
    every applicable level and, unless it never moved, a role configured at
    that level. *)
Lemma topmost_fold applicable :
  forall hi top,
    let res := fold_left topmost_step applicable (hi, top) in
    hi <= fst res
    /\ (forall l r, In (l, r) applicable -> l <= fst res)
    /\ ((fst res = hi /\ snd res = top)
        \/ exists r, snd res = Some r /\ In (fst res, r) applicable).
Proof.
  induction applicable as [ | [l0 r0] rest IH]; intros hi top; cbn [fold_left].
  - cbn [fst snd].
    split; [lia | split; [intros l r [] | left; split; reflexivity] ].
  - cbn [topmost_step].
    destruct (Z.gtb_spec l0 hi) as [Hgt | Hle].
    + specialize (IH l0 (Some r0)). cbv zeta in IH |- *.
      destruct IH as (H1 & H2 & H3).
      split; [lia | ]. split.
      * intros l r [Heq | Hin]; [inversion Heq; subst; lia | eauto].
      * right. destruct H3 as [ [Hf Hs] | (r & Hs & Hin) ].
        -- exists r0. split; [exact Hs | left; rewrite Hf; reflexivity].
        -- exists r. split; [exact Hs | right; exact Hin].
    + specialize (IH hi top). cbv zeta in IH |- *.
      destruct IH as (H1 & H2 & H3).
      split; [lia | ]. split.
      * intros l r [Heq | Hin]; [inversion Heq; subst; lia | eauto].
      * destruct H3 as [ [Hf Hs] | (r & Hs & Hin) ].
        -- left; split; assumption.
        -- right. exists r. split; [exact Hs | right; exact Hin].
Qed.

Lemma topmost_role_spec applicable l0 r0 :
  In (l0, r0) applicable ->
  (forall l r, In (l, r) applicable -> -1 < l) ->
  exists l r,
    snd (topmost_role applicable) = Some r
    /\ In (l, r) applicable
    /\ (forall l' r', In (l', r') applicable -> l' <= l).
Proof.
  intros Hin Hpos. unfold topmost_role.
  pose proof (topmost_fold applicable (-1) None) as H. cbv zeta in H.
  destruct H as (H1 & H2 & H3).
  destruct H3 as [ [Hf Hs] | (r & Hs & Hr) ].
  - exfalso. specialize (H2 _ _ Hin). specialize (Hpos _ _ Hin). lia.
  - exists (fst (fold_left topmost_step applicable (-1, None))), r.
    split; [exact Hs | ]. split; [exact Hr | exact H2].
Qed.

Lemma roles_to_add_In remove_previous held top applicable l r :
  In (l, r) (roles_to_add guild_has_role remove_previous held top applicable)
  <-> In (l, r) applicable
      /\ guild_has_role r = true
      /\ mem r held = false
      /\ (remove_previous = false \/ is_topmost top r = true).
Proof.
  unfold roles_to_add. rewrite in_flat_map. split.
  - intros ([l' r'] & Hin & Hy).
    destruct (guild_has_role r') eqn:Eg; cbn [negb] in Hy; [ | destruct Hy].
    destruct (mem r' held) eqn:Em; cbn [negb] in Hy; [destruct Hy | ].
    destruct remove_previous; cbn [negb orb] in Hy.
    + destruct (is_topmost top r') eqn:Et; [ | destruct Hy].
      destruct Hy as [Heq | [] ]. inversion Heq; subst. auto.
    + destruct Hy as [Heq | [] ]. inversion Heq; subst. auto.
  - intros (Hin & Eg & Em & Hor). exists (l, r). split; [exact Hin | ].
    rewrite Eg, Em. cbn [negb].
    destruct Hor as [-> | ->]; cbn [negb orb].
    + left; reflexivity.
    + rewrite orb_true_r. left; reflexivity.
Qed.

Lemma roles_to_remove_In remove_previous held top applicable non_applicable l r :
  In (l, r) (roles_to_remove guild_has_role remove_previous held top
               applicable non_applicable)
  <-> (In (l, r) applicable
       /\ guild_has_role r = true /\ mem r held = true
       /\ remove_previous = true /\ is_topmost top r = false)
      \/ (In (l, r) non_applicable
          /\ guild_has_role r = true /\ mem r held = true).
Proof.
  unfold roles_to_remove. rewrite in_app_iff, !in_flat_map. split.
  - intros [ ([l' r'] & Hin & Hy) | ([l' r'] & Hin & Hy) ].
    + left.
      destruct (guild_has_role r') eqn:Eg; cbn [negb] in Hy; [ | destruct Hy].
      destruct (mem r' held) eqn:Em; cbn [negb] in Hy; [ | destruct Hy].
      destruct remove_previous; cbn [andb] in Hy; [ | destruct Hy].
      destruct (is_topmost top r') eqn:Et; cbn [negb] in Hy; [destruct Hy | ].
      destruct Hy as [Heq | [] ]. inversion Heq; subst. auto.
    + right.
      destruct (guild_has_role r') eqn:Eg; cbn [andb] in Hy; [ | destruct Hy].
      destruct (mem r' held) eqn:Em; [ | destruct Hy].
      destruct Hy as [Heq | [] ]. inversion Heq; subst. auto.
  - intros [ (Hin & Eg & Em & -> & Et) | (Hin & Eg & Em) ].
    + left. exists (l, r). split; [exact Hin | ].
      rewrite Eg, Em, Et. left; reflexivity.
    + right. exists (l, r). split; [exact Hin | ].
      rewrite Eg, Em. left; reflexivity.
Qed.

Lemma reward_row_is_spec g u l r row :
  reward_row_is g u l r row = true <-> row = mkRewardRow g u l r.
Proof.
  unfold reward_row_is. rewrite !andb_true_iff, !Z.eqb_eq.
  destruct row as [g' u' l' r']. cbn. split.
  - intros [ [ [-> ->] ->] ->]. reflexivity.
  - intros H. inversion H. auto.
Qed.

(** The two loops over the API when every value binds: no exception ends
    them, whatever the calls return. *)
Lemma grant_fold g u to_add :
  (forall l r, In (l, r) to_add -> binds_reward g u l r = true) ->
  forall held table,
  exists held' table',
    fold_left (grant add_roles_ok g u) to_add (held, table, false)
    = (held', table', false)
    /\ (forall x,
          In x held'
          <-> In x held \/ (In x (map snd to_add) /\ add_roles_ok x = true))
    /\ (forall row,
          In row table'
          <-> In row table
              \/ exists l r,
                   In (l, r) to_add /\ add_roles_ok r = true
                   /\ row = mkRewardRow g u l r).
Proof.
  induction to_add as [ | [l0 r0] rest IH]; intros Hb held table;
    cbn [fold_left].
  - exists held, table. split; [reflexivity | ]. split.
    + intros x. cbn. tauto.
    + intros row. split; [tauto | ].
      intros [H | (l & r & [] & _)]. exact H.
  - cbn [grant]. rewrite (Hb l0 r0 (or_introl eq_refl)).
    assert (Hb' : forall l r, In (l, r) rest -> binds_reward g u l r = true)
      by (intros l r H; apply Hb; right; exact H).
    destruct (add_roles_ok r0) eqn:Hok.
    + destruct (IH Hb' (held ++ [r0]) (table ++ [mkRewardRow g u l0 r0]))
        as (held' & table' & E & Hh & Ht).
      exists held', table'. split; [exact E | ]. split.
      * intros x. rewrite Hh, in_app_iff. cbn [In map snd].
        intuition (subst; try congruence; auto).
      * intros row. rewrite Ht, in_app_iff. cbn [In]. split.
        -- intros [ [H | [H | [] ] ] | (l & r & Hin & Hr & Heq) ].
           ++ left. exact H.
           ++ right. exists l0, r0. auto.
           ++ right. exists l, r. auto.
        -- intros [H | (l & r & [Heq | Hin] & Hr & Hrow) ].
           ++ left. left. exact H.
           ++ inversion Heq; subst. left. right. left. reflexivity.
           ++ right. exists l, r. auto.
    + destruct (IH Hb' held table) as (held' & table' & E & Hh & Ht).
      exists held', table'. split; [exact E | ]. split.
      * intros x. rewrite Hh. cbn [In map snd].
        intuition (subst; try congruence; auto).
      * intros row. rewrite Ht. split.
        -- intros [H | (l & r & Hin & Hr & Heq) ]; [left; exact H | ].
           right. exists l, r. cbn [In]. auto.
        -- intros [H | (l & r & [Heq | Hin] & Hr & Hrow) ].
           ++ left. exact H.
           ++ inversion Heq; subst. congruence.
           ++ right. exists l, r. auto.
Qed.

Lemma revoke_fold g u to_remove :
  (forall l r, In (l, r) to_remove -> binds_reward g u l r = true) ->
  forall held table,
  exists held' table',
    fold_left (revoke remove_roles_ok g u) to_remove (held, table, false)
    = (held', table', false)
    /\ (forall x,
          In x held'
          <-> In x held
              /\ ~ (In x (map snd to_remove) /\ remove_roles_ok x = true))
    /\ (forall row,
          In row table'
          <-> In row table
              /\ ~ exists l r,
                     In (l, r) to_remove /\ remove_roles_ok r = true
                     /\ row = mkRewardRow g u l r).
Proof.
  induction to_remove as [ | [l0 r0] rest IH]; intros Hb held table;
    cbn [fold_left].
  - exists held, table. split; [reflexivity | ]. split.
    + intros x. cbn. tauto.
    + intros row. split; [ | tauto].
      intros H. split; [exact H | ]. intros (l & r & [] & _).
  - cbn [revoke]. rewrite (Hb l0 r0 (or_introl eq_refl)).
    assert (Hb' : forall l r, In (l, r) rest -> binds_reward g u l r = true)
      by (intros l r H; apply Hb; right; exact H).
    destruct (remove_roles_ok r0) eqn:Hok.
    + destruct (IH Hb' (filter (fun r => negb (r =? r0)) held)
                  (filter (fun r => negb (reward_row_is g u l0 r0 r)) table))
        as (held' & table' & E & Hh & Ht).
      exists held', table'. split; [exact E | ]. split.
      * intros x. rewrite Hh, filter_In, negb_true_iff, Z.eqb_neq.
        cbn [In map snd]. intuition (subst; try congruence; auto).
      * intros row. rewrite Ht, filter_In, negb_true_iff. split.
        -- intros [ [Hin Hne] Hnot]. split; [exact Hin | ].
           intros (l & r & [Heq | Hr] & Hx & Hrow).
           ++ inversion Heq; subst l r.
              apply reward_row_is_spec in Hrow. congruence.
           ++ apply Hnot. exists l, r. auto.
        -- intros [Hin Hnot]. repeat split; [exact Hin | | ].
           ++ destruct (reward_row_is g u l0 r0 row) eqn:E0; [ | reflexivity].
              exfalso. apply Hnot. exists l0, r0.
              apply reward_row_is_spec in E0. cbn [In]. auto.
           ++ intros (l & r & Hr & Hx & Hrow). apply Hnot.
              exists l, r. cbn [In]. auto.
    + destruct (IH Hb' held table) as (held' & table' & E & Hh & Ht).
      exists held', table'. split; [exact E | ]. split.
      * intros x. rewrite Hh. cbn [In map snd].
        intuition (subst; try congruence; auto).
      * intros row. rewrite Ht. split.
        -- intros [Hin Hnot]. split; [exact Hin | ].
           intros (l & r & [Heq | Hr] & Hx & Hrow).
           ++ inversion Heq; subst. congruence.
           ++ apply Hnot. exists l, r. auto.
        -- intros [Hin Hnot]. split; [exact Hin | ].
           intros (l & r & Hr & Hx & Hrow). apply Hnot.
           exists l, r. cbn [In]. auto.
Qed.

(** What the two loops do to the roles whether or not an exception ends
    them: a role held afterwards was held or was to be added, and a role
    held before is still held or was to be removed. *)
Lemma grant_fold_weak g u to_add :
  forall acc,
    let res := fold_left (grant add_roles_ok g u) to_add acc in
    (forall x, In x (fst (fst res)) ->
               In x (fst (fst acc)) \/ In x (map snd to_add))
    /\ (forall x, In x (fst (fst acc)) -> In x (fst (fst res))).
Proof.
  induction to_add as [ | [l0 r0] rest IH]; intros [ [held table] raised];
    cbn [fold_left].
  - cbn. split; auto.
  - specialize (IH (grant add_roles_ok g u (held, table, raised) (l0, r0))).
    cbv zeta in IH |- *. destruct IH as [IH1 IH2].
    assert (Hstep :
      (forall x,
          In x (fst (fst (grant add_roles_ok g u (held, table, raised)
                            (l0, r0)))) -> In x held \/ x = r0)
      /\ (forall x,
            In x held ->
            In x (fst (fst (grant add_roles_ok g u (held, table, raised)
                              (l0, r0)))))).
    { cbn [grant]. destruct raised; [cbn; auto | ].
      destruct (add_roles_ok r0); [ | cbn; auto].
      destruct (binds_reward g u l0 r0); cbn [fst]; split; intros x;
        rewrite in_app_iff; cbn [In]; intuition auto. }
    destruct Hstep as [S1 S2]. cbn [fst map snd In]. split.
    + intros x Hx. destruct (IH1 x Hx) as [H | H]; [ | auto].
      destruct (S1 x H) as [H' | H']; auto.
    + intros x Hx. apply IH2. apply S2. exact Hx.
Qed.

Lemma revoke_fold_weak g u to_remove :
  forall acc,
    let res := fold_left (revoke remove_roles_ok g u) to_remove acc in
    (forall x, In x (fst (fst res)) -> In x (fst (fst acc)))
    /\ (forall x, In x (fst (fst acc)) ->
                  In x (fst (fst res)) \/ In x (map snd to_remove)).
Proof.
  induction to_remove as [ | [l0 r0] rest IH]; intros [ [held table] raised];
    cbn [fold_left].
  - cbn. split; auto.
  - specialize (IH (revoke remove_roles_ok g u (held, table, raised) (l0, r0))).
    cbv zeta in IH |- *. destruct IH as [IH1 IH2].
    assert (Hstep :
      (forall x,
          In x (fst (fst (revoke remove_roles_ok g u (held, table, raised)
                            (l0, r0)))) -> In x held)
      /\ (forall x,
            In x held ->
            In x (fst (fst (revoke remove_roles_ok g u (held, table, raised)
                              (l0, r0)))) \/ x = r0)).
    { cbn [revoke]. destruct raised; [cbn; auto | ].
      destruct (remove_roles_ok r0); [ | cbn; auto].
      destruct (binds_reward g u l0 r0); cbn [fst]; split; intros x;
        rewrite filter_In, negb_true_iff, Z.eqb_neq;
        destruct (Z.eq_dec x r0); intuition auto. }
    destruct Hstep as [S1 S2]. cbn [fst map snd In]. split.
    + intros x Hx. apply S1. apply IH1. exact Hx.
    + intros x Hx. destruct (S2 x Hx) as [H | H]; [ | auto].
      destruct (IH2 x H) as [H' | H']; auto.
Qed.

Lemma In_map_snd (l : list (Z * Z)) r :
  In r (map snd l) <-> exists lv, In (lv, r) l.
Proof.
  rewrite in_map_iff. split.
  - intros ([lv r'] & Heq & Hin). cbn in Heq. subst. eauto.
  - intros (lv & Hin). exists (lv, r). split; [reflexivity | exact Hin].
Qed.

Lemma NoDup_snd_unique (entries : list (Z * Z)) l1 l2 r :
  NoDup (map snd entries) ->
  In (l1, r) entries -> In (l2, r) entries -> l1 = l2.
Proof.
  induction entries as [ | [l0 r0] rest IH]; intros Hnd H1 H2; [destruct H1 | ].
  cbn [map snd] in Hnd. inversion Hnd as [ | ? ? Hnotin Hnd']; subst.
  destruct H1 as [E1 | H1]; destruct H2 as [E2 | H2].
  - congruence.
  - inversion E1; subst. exfalso. apply Hnotin. apply In_map_snd. eauto.
  - inversion E2; subst. exfalso. apply Hnotin. apply In_map_snd. eauto.
  - apply IH; assumption.
Qed.

(** The entries of the plan are entries of the configuration. *)
Lemma planned_changes_entries st member member_level l r :
  let plan :=
    planned_changes int_of_str guild_has_role st member member_level in
  In (l, r) (fst plan) \/ In (l, r) (snd plan) ->
  In (l, r) (reward_entries int_of_str st).
Proof.
  intros plan H. unfold plan, planned_changes, reward_entries in *.
  cbn [fst snd] in H. destruct H as [H | H].
  - apply roles_to_add_In in H. destruct H as (H & _).
    apply applicable_In in H. apply H.
  - apply roles_to_remove_In in H. destruct H as [ (H & _) | (H & _) ].
    + apply applicable_In in H. apply H.
    + apply non_applicable_In in H. apply H.
Qed.

Lemma planned_changes_configured st member member_level x :
  let plan :=
    planned_changes int_of_str guild_has_role st member member_level in
  In x (map snd (fst plan)) \/ In x (map snd (snd plan)) ->
  exists l, In (l, x) (reward_entries int_of_str st).
Proof.
  intros plan H.
  destruct H as [H | H]; apply In_map_snd in H; destruct H as [l H];
    exists l;
    apply (planned_changes_entries st member member_level l x); auto.
Qed.

(** [update_rewards] when the store is up and every value binds: the table
    is committed, and the roles and the rows follow the calls that
    succeeded. *)
Lemma update_rewards_bound st member member_level :
  db_ready st = true ->
  rewards_bind int_of_str st member ->
  let plan :=
    planned_changes int_of_str guild_has_role st member member_level in
  let g := member_guild member in
  let u := member_id member in
  exists held' table',
    update_rewards int_of_str guild_has_role add_roles_ok remove_roles_ok st
                   member member_level
    = (set_user_rewards st table', held')
    /\ (forall x,
          In x held'
          <-> (In x (roles member)
               \/ (In x (map snd (fst plan)) /\ add_roles_ok x = true))
              /\ ~ (In x (map snd (snd plan)) /\ remove_roles_ok x = true))
    /\ (forall row,
          In row table'
          <-> (In row (user_rewards st)
               \/ exists l r,
                    In (l, r) (fst plan) /\ add_roles_ok r = true
                    /\ row = mkRewardRow g u l r)
              /\ ~ exists l r,
                     In (l, r) (snd plan) /\ remove_roles_ok r = true
                     /\ row = mkRewardRow g u l r).
Proof.
  intros Hdb (Hg & Hu & Hfit) plan g u.
  assert (Hbind : forall l r,
             In (l, r) (fst plan) \/ In (l, r) (snd plan) ->
             binds_reward g u l r = true).
  { intros l r H.
    pose proof (planned_changes_entries st member member_level l r H) as He.
    destruct (Hfit l r He) as [Hl Hr].
    unfold binds_reward, g, u. rewrite Hg, Hu, Hl, Hr. reflexivity. }
  destruct (grant_fold g u (fst plan) (fun l r H => Hbind l r (or_introl H))
              (roles member) (user_rewards st))
    as (held1 & table1 & E1 & Hh1 & Ht1).
  destruct (revoke_fold g u (snd plan) (fun l r H => Hbind l r (or_intror H))
              held1 table1)
    as (held2 & table2 & E2 & Hh2 & Ht2).
  exists held2, table2. split; [ | split].
  - unfold update_rewards. rewrite Hdb.
    unfold plan, planned_changes, g, u in E1, E2. cbn [fst snd] in E1, E2.
    rewrite E1, E2. reflexivity.
  - intros x. rewrite Hh2, Hh1. reflexivity.
  - intros row. rewrite Ht2, Ht1. reflexivity.
Qed.

(** The roles held after [update_rewards], when the store is up, every
    value binds and every API call succeeds. *)
Lemma update_rewards_held st member member_level x :
  let entries :=
    parse_rewards int_of_str (default [] (level_rewards (config st))) in
  let remove_previous := default true (remove_previous_rewards (config st)) in
  let applicable :=
    applicable_roles int_of_str member_level
      (default [] (level_rewards (config st))) in
  let non_applicable :=
    non_applicable_roles int_of_str member_level
      (default [] (level_rewards (config st))) in
  let top := snd (topmost_role applicable) in
  db_ready st = true ->
  rewards_bind int_of_str st member ->
  (forall l r, In (l, r) entries -> add_roles_ok r = true) ->
  (forall l r, In (l, r) entries -> remove_roles_ok r = true) ->
  In x (snd (update_rewards int_of_str guild_has_role add_roles_ok
               remove_roles_ok st member member_level))
  <-> (In x (roles member)
       \/ In x (map snd (roles_to_add guild_has_role remove_previous
                           (roles member) top applicable)))
      /\ ~ In x (map snd (roles_to_remove guild_has_role remove_previous
                            (roles member) top applicable non_applicable)).
Proof.
  intros entries remove_previous applicable non_applicable top Hdb Hbind
         Hadd Hrem.
  destruct (update_rewards_bound st member member_level Hdb Hbind)
    as (held' & table' & E & Hh & _).
  rewrite E. cbn [snd]. rewrite Hh.
  unfold planned_changes. cbn [fst snd].
  fold remove_previous applicable non_applicable top.
  pose proof (planned_changes_configured st member member_level x) as Hc.
  unfold planned_changes in Hc. cbn [fst snd] in Hc. cbv zeta in Hc.
  fold remove_previous applicable non_applicable top in Hc.
  split.
  - intros [ [H | [H _] ] Hn].
    + split; [left; exact H | ]. intros Hr. apply Hn. split; [exact Hr | ].
      destruct Hc as [l Hl]; [right; exact Hr | ]. exact (Hrem l x Hl).
    + split; [right; exact H | ]. intros Hr. apply Hn. split; [exact Hr | ].
      destruct Hc as [l Hl]; [right; exact Hr | ]. exact (Hrem l x Hl).
  - intros [ [H | H] Hn].
    + split; [left; exact H | ]. intros [Hr _]. exact (Hn Hr).
    + split; [ | intros [Hr _]; exact (Hn Hr)].
      right. split; [exact H | ].
      destruct Hc as [l Hl]; [left; exact H | ]. exact (Hadd l x Hl).
Qed.

(** The roles held after [update_rewards] in every case: a role held
    afterwards was held or was to be added; a role held before is still held
    or was to be removed. *)
Lemma update_rewards_held_weak st member member_level x :
  let plan :=
    planned_changes int_of_str guild_has_role st member member_level in
  let held' :=
    snd (update_rewards int_of_str guild_has_role add_roles_ok
           remove_roles_ok st member member_level) in
  (In x held' -> In x (roles member) \/ In x (map snd (fst plan)))
  /\ (In x (roles member) -> In x held' \/ In x (map snd (snd plan))).
Proof.
  intros plan held'. unfold held', update_rewards.
  destruct (db_ready st); [ | cbn [snd]; split; auto].
  unfold plan, planned_changes. cbn [fst snd].
  set (to_add := roles_to_add _ _ _ _ _).
  set (to_remove := roles_to_remove _ _ _ _ _ _).
  pose proof (grant_fold_weak (member_guild member) (member_id member) to_add
                (roles member, user_rewards st, false)) as Hg.
  cbv zeta in Hg. cbn [fst] in Hg.
  set (acc1 := fold_left (grant add_roles_ok _ _) to_add _) in *.
  pose proof (revoke_fold_weak (member_guild member) (member_id member)
                to_remove acc1) as Hr.
  cbv zeta in Hr.
  destruct (fold_left (revoke remove_roles_ok _ _) to_remove acc1)
    as [ [held2 table2] raised2].
  cbn [fst snd] in Hr |- *. destruct Hg as [G1 G2]. destruct Hr as [R1 R2].
  split.
  - intros H. apply G1. apply R1. exact H.
  - intros H. apply R2. apply G2. exact H.
Qed.

End RewardsFacts.

(** C3 as amended: when the store is up, the identifiers and the
    thresholds fit an SQLite [INTEGER], no role is configured at two
    thresholds, every threshold is at least 0, every configured role exists
    and every API call succeeds, then after [update_rewards] for the target
    level [L]: with "remove previous" on and some threshold at most [L], the
    member holds exactly one reward role, a role of the highest threshold at
    most [L]; with "remove previous" off, the reward roles held are those
    whose threshold is at most [L]; in both modes no reward role of a
    threshold above [L] is held. *)
Theorem update_rewards_reconciles
    (int_of_str : string -> option Z)
    (guild_has_role add_roles_ok remove_roles_ok : Z -> bool)
    (st : State) (member : Member) (L : Z) :
  let entries := reward_entries int_of_str st in
  let held' :=
    snd (update_rewards int_of_str guild_has_role add_roles_ok
           remove_roles_ok st member L) in
  db_ready st = true ->
  rewards_bind int_of_str st member ->
  NoDup (map snd entries) ->
  (forall l r, In (l, r) entries ->
     -1 < l /\ guild_has_role r = true
     /\ add_roles_ok r = true /\ remove_roles_ok r = true) ->
  (default true (remove_previous_rewards (config st)) = true ->
   (exists l r, In (l, r) entries /\ l <= L) ->
   exists l r,
     In (l, r) entries /\ l <= L
     /\ (forall l' r', In (l', r') entries -> l' <= L -> l' <= l)
     /\ (forall l' r', In (l', r') entries -> (In r' held' <-> r' = r)))
  /\ (default true (remove_previous_rewards (config st)) = false ->
      forall l' r', In (l', r') entries -> (In r' held' <-> l' <= L))
  /\ (forall l' r', In (l', r') entries -> L < l' -> ~ In r' held').
Proof.
  intros entries held' Hdb Hbind Hnd Hok.
  assert (Hheld := fun x =>
    update_rewards_held int_of_str guild_has_role add_roles_ok remove_roles_ok
      st member L x Hdb Hbind
      (fun l r H => proj1 (proj2 (proj2 (Hok l r H))))
      (fun l r H => proj2 (proj2 (proj2 (Hok l r H))))).
  cbv zeta in Hheld. fold held' in Hheld.
  set (rp := default true (remove_previous_rewards (config st))) in *.
  set (app := applicable_roles int_of_str L _) in *.
  set (nonapp := non_applicable_roles int_of_str L _) in *.
  set (top := snd (topmost_role app)) in *.
  assert (Happ : forall l r, In (l, r) app <-> In (l, r) entries /\ l <= L)
    by (intros; apply applicable_In).
  assert (Hnon : forall l r, In (l, r) nonapp <-> In (l, r) entries /\ L < l)
    by (intros; apply non_applicable_In).
  assert (Hmem : forall r, mem r (roles member) = false <-> ~ In r (roles member)).
  { intros r. rewrite <- mem_In. destruct (mem r (roles member)); split; congruence. }
  (* a role above the target level is not held *)
  assert (HC : forall l' r', In (l', r') entries -> L < l' -> ~ In r' held').
  { intros l' r' Hin Hgt Hh. apply Hheld in Hh. destruct Hh as [Hsrc Hnot].
    destruct Hsrc as [Hold | Hnew].
    - apply Hnot. apply In_map_snd. exists l'.
      apply roles_to_remove_In. right.
      split; [apply Hnon; auto | ]. split; [apply (Hok l' r' Hin) | ].
      apply mem_In. exact Hold.
    - apply In_map_snd in Hnew. destruct Hnew as (l2 & Hadd).
      apply roles_to_add_In in Hadd. destruct Hadd as (Ha & _).
      apply Happ in Ha. destruct Ha as [Ha Hle].
      pose proof (NoDup_snd_unique entries l2 l' r' Hnd Ha Hin). lia. }
  split; [ | split; [ | exact HC] ].
  - (* remove previous: exactly the topmost role *)
    intros Hrp (l0 & r0 & Hin0 & Hle0).
    destruct (topmost_role_spec app l0 r0) as (l & r & Htop & Hinr & Hmax).
    { apply Happ. auto. }
    { intros l1 r1 H1. apply Happ in H1. apply (Hok l1 r1). apply H1. }
    fold top in Htop.
    apply Happ in Hinr. destruct Hinr as [Hinr Hler].
    exists l, r. split; [exact Hinr | ]. split; [exact Hler | ]. split.
    { intros l' r' H' Hle'. apply (Hmax l' r'). apply Happ. auto. }
    intros l' r' Hin'. split.
    + intros Hh.
      destruct (Z_lt_le_dec L l') as [Hgt | Hle'];
        [exfalso; exact (HC l' r' Hin' Hgt Hh) | ].
      apply Hheld in Hh. destruct Hh as [Hsrc Hnot].
      destruct Hsrc as [Hold | Hnew].
      * destruct (Z.eq_dec r' r) as [ | Hne]; [assumption | exfalso].
        apply Hnot. apply In_map_snd. exists l'.
        apply roles_to_remove_In. left.
        split; [apply Happ; auto | ]. split; [apply (Hok l' r' Hin') | ].
        split; [apply mem_In; exact Hold | ]. split; [exact Hrp | ].
        rewrite Htop. cbn [is_topmost]. apply Z.eqb_neq. exact Hne.
      * apply In_map_snd in Hnew. destruct Hnew as (l2 & Hadd).
        apply roles_to_add_In in Hadd.
        destruct Hadd as (_ & _ & _ & [Hf | Ht]); [congruence | ].
        rewrite Htop in Ht. cbn [is_topmost] in Ht. apply Z.eqb_eq. exact Ht.
    + intros ->. apply Hheld. split.
      * destruct (mem r (roles member)) eqn:Em.
        -- left. apply mem_In. exact Em.
        -- right. apply In_map_snd. exists l. apply roles_to_add_In.
           split; [apply Happ; auto | ]. split; [apply (Hok l r Hinr) | ].
           split; [exact Em | ]. right.
           rewrite Htop. cbn [is_topmost]. apply Z.eqb_refl.
      * intros Hrem. apply In_map_snd in Hrem. destruct Hrem as (l2 & Hrem).
        apply roles_to_remove_In in Hrem.
        destruct Hrem as [ (_ & _ & _ & _ & Ht) | (Hn & _) ].
        -- rewrite Htop in Ht. cbn [is_topmost] in Ht.
           rewrite Z.eqb_refl in Ht. discriminate.
        -- apply Hnon in Hn. destruct Hn as [Hn Hgt].
           pose proof (NoDup_snd_unique entries l2 l r Hnd Hn Hinr). lia.
  - (* keep previous: every role up to the target level *)
    intros Hrp l' r' Hin'. split.
    + intros Hh. destruct (Z_lt_le_dec L l') as [Hgt | Hle']; [ | exact Hle'].
      exfalso. exact (HC l' r' Hin' Hgt Hh).
    + intros Hle'. apply Hheld. split.
      * destruct (mem r' (roles member)) eqn:Em.
        -- left. apply mem_In. exact Em.
        -- right. apply In_map_snd. exists l'. apply roles_to_add_In.
           split; [apply Happ; auto | ]. split; [apply (Hok l' r' Hin') | ].
           split; [exact Em | ]. left. exact Hrp.
      * intros Hrem. apply In_map_snd in Hrem. destruct Hrem as (l2 & Hrem).
        apply roles_to_remove_In in Hrem.
        destruct Hrem as [ (_ & _ & _ & Ht & _) | (Hn & _) ].
        -- congruence.
        -- apply Hnon in Hn. destruct Hn as [Hn Hgt].
           pose proof (NoDup_snd_unique entries l2 l' r' Hnd Hn Hin'). lia.
Qed.

Lemma update_rewards_reconciles_witness :
  ~ In 200 (snd (update_rewards int_of_decimal always always always
                   st_two_rewards carol 7)).
Proof.
  refine (proj2 (proj2 (update_rewards_reconciles int_of_decimal always always
                          always st_two_rewards carol 7 _ _ _ _)) 10 200 _ _).
  - reflexivity.
  - split; [reflexivity | ]. split; [reflexivity | ].
    intros l r Hin. vm_compute in Hin.
    destruct Hin as [Heq | [Heq | [] ] ]; inversion Heq; subst;
      split; reflexivity.
  - vm_compute. repeat constructor; cbn; intuition discriminate.
  - intros l r Hin. vm_compute in Hin.
    destruct Hin as [Heq | [Heq | [] ] ]; inversion Heq; subst;
      repeat split; reflexivity.
  - vm_compute. right; left; reflexivity.
  - lia.
Defined.

(** C3 as stated fails when one role is configured at two thresholds: the
    member of level 7 holds role [100], configured at levels 5 and 10; the
    entry of level 10 revokes it, and the member is left without the reward
    role of level 5. *)
Lemma shared_role_is_revoked :
  db_ready st_shared_role = true
  /\ reward_entries int_of_decimal st_shared_role = [(5, 100); (10, 100)]
  /\ default true (remove_previous_rewards (config st_shared_role)) = true
  /\ roles dave = [100]
  /\ snd (update_rewards int_of_decimal always always always st_shared_role
            dave 7) = [].
Proof. repeat split; vm_compute; reflexivity. Qed.

(** ** Removing points; points are never negative *)

(** C8 as amended: a removal of more points than the user has is answered
    with a failure and leaves every existing row as it was; the only write
    it can make is the all-zero row that the lookup creates for a user who
    had none.  And, with the non-negative rates that the settings command
    enforces, no event leaves the stored points of any row negative: rows
    with non-negative points stay so across every message, voice tick,
    command and reward task. *)
Theorem removal_rejected_points_nonneg
    (int_of_str : string -> option Z)
    (guild_has_role add_roles_ok remove_roles_ok : Z -> bool)
    (st : State) (i : Interaction) (utilisateur : Member) (montant now : Z)
    (ev : Event) :
  (ud_exp (snd (get_user_data st (interaction_guild i)
                  (member_id utilisateur))) < montant ->
   (exists msg,
      response (snd (remove_exp st i utilisateur montant now))
      = inr (Failure msg))
   /\ (user_levels (fst (remove_exp st i utilisateur montant now))
       = user_levels st
       \/ (find (row_matches (interaction_guild i) (member_id utilisateur))
                (user_levels st) = None
           /\ user_levels (fst (remove_exp st i utilisateur montant now))
              = user_levels st
                ++ [new_row (interaction_guild i) (member_id utilisateur)])))
  /\ (rates_nonneg (config st) -> points_nonneg st ->
      points_nonneg
        (step int_of_str guild_has_role add_roles_ok remove_roles_ok st ev)
      /\ rates_nonneg
           (config (step int_of_str guild_has_role add_roles_ok
                      remove_roles_ok st ev))).
Proof.
  split.
  - intros Hlt. unfold remove_exp.
    case_if; [split; [eexists; reflexivity | left; reflexivity] | ].
    case_if; [split; [eexists; reflexivity | left; reflexivity] | ].
    case_if; [split; [eexists; reflexivity | left; reflexivity] | ].
    pose proof (get_user_data_rows st (interaction_guild i)
                  (member_id utilisateur)) as Hrows.
    destruct (get_user_data st (interaction_guild i) (member_id utilisateur))
      as [st1 user_data]. cbn [fst snd] in *.
    destruct (Z.ltb_spec (ud_exp user_data) montant); [ | lia].
    cbn [fst snd response respond]. split; [eexists; reflexivity | ].
    rewrite Hrows. destruct (db_ready st); [ | left; reflexivity].
    destruct (find _ _); [left; reflexivity | right; split; reflexivity].
  - intros Hrates Hrows.
    assert (HP : row_invariant (fun r => 0 <= exp r)).
    { split; [intros; cbn; lia | intros; cbn; assumption]. }
    apply (step_invariant (fun r => 0 <= exp r) HP int_of_str guild_has_role
             add_roles_ok remove_roles_ok st ev).
    split; assumption.
Qed.

Lemma removal_rejected_points_nonneg_witness :
  points_nonneg
    (step int_of_decimal always always always st_ready
       (EvCommand by_admin (CmdXpRemove alice 5) 0)).
Proof.
  refine (proj1 (proj2 (removal_rejected_points_nonneg int_of_decimal always
                          always always st_ready by_admin alice 5 0
                          (EvCommand by_admin (CmdXpRemove alice 5) 0))
                   _ _)).
  - split; cbn; lia.
  - constructor.
Defined.

(** C8 as stated fails for a user without a row: the removal of 5 points is
    rejected, but the lookup has first inserted a row for the user. *)
Lemma rejected_removal_inserts_row :
  user_levels st_ready = []
  /\ response (snd (remove_exp st_ready by_admin alice 5 0))
     = inr (Failure "L'utilisateur n'a pas assez d'EXP.")
  /\ user_levels (fst (remove_exp st_ready by_admin alice 5 0))
     = [new_row 10 2].
Proof. repeat split. Qed.

(** ** The stored level *)

(** Every event keeps the stored level equal to what [calculate_level]
    returns for the stored points. *)
Lemma step_level_cached
    (int_of_str : string -> option Z)
    (guild_has_role add_roles_ok remove_roles_ok : Z -> bool)
    (st : State) (ev : Event) :
  rates_nonneg (config st) ->
  Forall (fun r => calculate_level (exp r) = Some (level r)) (user_levels st) ->
  Forall (fun r => calculate_level (exp r) = Some (level r))
         (user_levels (step int_of_str guild_has_role add_roles_ok
                         remove_roles_ok st ev)).
Proof.
  intros Hrates Hrows.
  assert (HP : row_invariant
                 (fun r => calculate_level (exp r) = Some (level r))).
  { split; [intros; reflexivity | intros; cbn; assumption]. }
  apply (step_invariant _ HP int_of_str guild_has_role add_roles_ok
           remove_roles_ok st ev).
  split; assumption.
Qed.

(** Hence, below [75 * 2^46] points, the stored level is the level of the
    specification after every event. *)
Lemma step_level_floor
    (int_of_str : string -> option Z)
    (guild_has_role add_roles_ok remove_roles_ok : Z -> bool)
    (st : State) (ev : Event) :
  rates_nonneg (config st) ->
  Forall (fun r => calculate_level (exp r) = Some (level r)) (user_levels st) ->
  Forall (fun r => exp r < exact_points_bound -> level r = spec_level (exp r))
         (user_levels (step int_of_str guild_has_role add_roles_ok
                         remove_roles_ok st ev)).
Proof.
  intros Hrates Hrows.
  pose proof (step_level_cached int_of_str guild_has_role add_roles_ok
                remove_roles_ok st ev Hrates Hrows) as H.
  eapply Forall_impl; [ | exact H].
  intros r Hr Hb. cbv beta in Hr.
  rewrite calculate_level_floor in Hr by exact Hb. congruence.
Qed.

(** C1, at [/xp set] with 7499999999999999 points: the stored level is
    10000000, one more than [floor(sqrt(points / 75))] = 9999999, because
    the quotient and the square root are rounded to binary64. *)
Theorem set_exp_level_above_floor :
  map (fun r => (exp r, level r))
      (user_levels (fst (set_exp st_ready by_admin alice 7499999999999999)))
  = [(7499999999999999, 10000000)]
  /\ spec_level 7499999999999999 = 9999999.
Proof. split; vm_compute; reflexivity. Qed.

(** C2 as stated fails at level [2^53 + 1], which is not a binary64
    number. *)
Lemma level_round_trip_fails :
  calculate_level (calculate_exp_for_level (2 ^ 53 + 1)) = Some (2 ^ 53)
  /\ 2 ^ 53 <> 2 ^ 53 + 1.
Proof. split; [vm_compute; reflexivity | lia]. Qed.

Lemma spec_level_round_trip (n : Z) :
  0 <= n -> spec_level (calculate_exp_for_level n) = n.
Proof.
  intros Hn. unfold spec_level, calculate_exp_for_level.
  destruct (Z.ltb_spec (75 * n * n) 75) as [Hlt | Hge].
  - nia.
  - replace (75 * n * n) with (n * n * 75) by ring.
    rewrite Z.div_mul by lia. apply Z.sqrt_square. exact Hn.
Qed.

(** C2 as amended: for every level [n] with [0 <= n < 2^53],
    [calculate_level (calculate_exp_for_level n)] is [n]: the quotient
    [75 * n * n / 75] is the rounding of [n * n], and the square root of that
    rounding rounds back to [n]. *)
Theorem level_round_trip (n : Z) :
  0 <= n < 2 ^ 53 ->
  calculate_level (calculate_exp_for_level n) = Some n.
Proof.
  intros Hn. unfold calculate_exp_for_level, calculate_level.
  destruct (Z.eq_dec n 0) as [-> | Hn0]; [reflexivity | ].
  assert (Hnn : 1 <= n * n).
  { assert (1 * 1 <= n * n) by (apply Z.mul_le_mono_nonneg; lia). lia. }
  destruct (Z.ltb_spec (75 * n * n) 75) as [Hlt | _]; [lia | ].
  replace (75 * n * n) with (75 * (n * n)) by ring.
  (* the number of bits of n *)
  destruct n as [ | pn | pn ]; try lia.
  pose proof (PyFloatFacts.digits2_pos_bounds pn) as Hh.
  set (h := Zpos (digits2_pos pn)) in *.
  set (n := Zpos pn) in *.
  assert (Hh1 : 1 <= h) by (unfold h; lia).
  assert (Hh53 : h <= 53).
  { assert (h - 1 < 53); [ | lia]. apply (Z.pow_lt_mono_r_iff 2); lia. }
  clear Hn0.
  destruct (PyFloatFacts.true_div_75_multiple (n * n) Hnn) as
    (s & dN & Hs & HdN & HdN1 & HD & Hcase & Hdiv).
  rewrite Hdiv. clear Hdiv Hnn.
  destruct (PyFloatFacts.square_bits n h dN Hh1 HdN1 Hh HdN) as [HdNh HdNn].
  set (N := n * n) in *.
  assert (Hs53 : s <= 53) by lia.
  assert (HPs : 0 < 2 ^ s) by (apply Z.pow_pos_nonneg; lia).
  set (k := dN + s - 53) in *.
  assert (Hk : 0 <= k) by (unfold k; lia).
  destruct (PyFloatFacts.round_aux_exact (N * 2 ^ s) (- s) (dN + s)) as
    (mz & c & Hres & Hmz & Hc & Herr & Hex); try lia.
  { replace (dN + s - 1) with (dN - 1 + s) by lia.
    rewrite !PyFloatFacts.pow2_add by lia.
    destruct HdN as [HdNa HdNb]. split.
    - apply Z.mul_le_mono_nonneg_r; lia.
    - apply Z.mul_lt_mono_pos_r; lia. }
  fold k in Hres, Herr, Hex.
  rewrite Hres. cbn [PyFloat.finite_or_raise PyFloat.math_sqrt]. clear Hres.
  (* c = 1 only when n * n has an odd number of bits *)
  assert (Hc1 : c = 0 \/ (c = 1 /\ dN = 2 * h - 1)).
  { destruct Hc as [-> | [-> Hmz52] ]; [left; reflexivity | right].
    split; [reflexivity | ].
    destruct HdNh as [ | HdN2]; [assumption | exfalso].
    destruct (Z.eq_dec s 0) as [Hs0 | Hs0].
    - (* s = 0 *)
      rewrite Hs0, Z.pow_0_r, Z.mul_1_r in Herr.
      assert (Hkk : k = 2 * h - 53) by (unfold k; lia).
      rewrite Hmz52 in Herr.
      replace (2 ^ 52 * 2 ^ (k + 1)) with (2 ^ (h + h))
        in Herr by (rewrite <- PyFloatFacts.pow2_add by lia; f_equal; lia).
      exact (PyFloatFacts.square_no_carry n h k N (conj Hh1 Hh53) Hh eq_refl Hkk Hk Herr).
    - (* s > 0: nothing is lost *)
      assert (Hks : k <= s) by (unfold k; lia).
      assert (H0 : (N * 2 ^ s) mod 2 ^ k = 0).
      { replace s with (s - k + k) by lia. rewrite PyFloatFacts.pow2_add by lia.
        rewrite Z.mul_assoc. apply Z.mod_mul.
        apply Z.pow_nonzero; lia. }
      destruct (Hex H0) as [_ Hc0]. discriminate. }
  clear Hex Hcase.
  assert (Hcr : 0 <= c <= 1) by (clear - Hc1; lia).
  assert (Hexp : 2 * h <= 54 + (- s + k + c) <= 2 * h + 1)
    by (clear - Hc1 HdNh Hcr k; unfold k; lia).
  apply (PyFloatFacts.sqrt_exact_int mz (- s + k + c) n h Hmz (conj Hh1 Hh53) Hh Hexp).
  cbv zeta.
  apply (PyFloatFacts.square_root_window n N (2 ^ (53 - h)) (2 ^ s) (2 ^ k)
           (2 ^ (dN - h)) (Zpos mz * 2 ^ (k + c))).
  - apply Z.pow_pos_nonneg; lia.
  - exact HPs.
  - reflexivity.
  - rewrite <- !Z.mul_assoc. f_equal.
    rewrite <- !PyFloatFacts.pow2_add by (clear - Hexp Hs Hk Hcr Hh53; lia).
    f_equal. clear. lia.
  - exact Herr.
  - rewrite <- !PyFloatFacts.pow2_add by (clear - Hk Hs Hh53 HdNh Hh1; lia).
    f_equal. unfold k. clear. lia.
  - exact HdNn.
Qed.

Lemma level_round_trip_witness :
  calculate_level (calculate_exp_for_level 12) = Some 12.
Proof. apply level_round_trip. lia. Defined.

(* ================================================================= *)
(** * Part III: further properties of the code *)
(* ================================================================= *)

(** ** More about the level formula *)

Lemma spec_level_bracket (points : Z) :
  0 <= points ->
  0 <= spec_level points
  /\ calculate_exp_for_level (spec_level points) <= points
  /\ points < calculate_exp_for_level (spec_level points + 1).
Proof.
  intros Hp. unfold spec_level, calculate_exp_for_level.
  destruct (Z.ltb_spec points 75) as [Hlt | Hge]; [lia | ].
  assert (Hq : 0 <= points / 75) by (apply Z.div_pos; lia).
  pose proof (Z.sqrt_spec (points / 75) Hq) as Hs. cbv zeta in Hs.
  pose proof (Z.sqrt_nonneg (points / 75)) as Hn.
  pose proof (Z.div_mod points 75 ltac:(lia)) as Hdm.
  pose proof (Z.mod_pos_bound points 75 ltac:(lia)) as Hmb.
  set (n := Z.sqrt (points / 75)) in *.
  set (q := points / 75) in *.
  clearbody n q. clear Hq.
  unfold Z.succ in Hs.
  split; [exact Hn | ]. split; nia.
Qed.

Lemma spec_level_monotone (p q : Z) :
  p <= q -> spec_level p <= spec_level q.
Proof.
  intros Hpq. unfold spec_level.
  destruct (Z.ltb_spec p 75) as [Hp | Hp];
    destruct (Z.ltb_spec q 75) as [Hq | Hq]; try lia.
  - apply Z.sqrt_nonneg.
  - apply Z.sqrt_le_mono. apply Z.div_le_mono; lia.
Qed.

(** X1.  [calculate_level] does not decrease when the points increase, as
    long as the points stay below [75 * 2^46]: for [p <= q] below that bound
    both levels are defined and the level of [p] is at most the level of
    [q]. *)
Theorem calculate_level_monotone (p q : Z) :
  p <= q -> q < exact_points_bound ->
  exists lp lq,
    calculate_level p = Some lp /\ calculate_level q = Some lq /\ lp <= lq.
Proof.
  intros Hpq Hq. unfold exact_points_bound in Hq.
  exists (spec_level p), (spec_level q).
  split; [apply calculate_level_floor; lia | ].
  split; [apply calculate_level_floor; lia | ].
  apply spec_level_monotone. exact Hpq.
Qed.

Lemma calculate_level_monotone_witness :
  exists lp lq,
    calculate_level 299 = Some lp /\ calculate_level 300 = Some lq /\ lp <= lq.
Proof.
  apply (calculate_level_monotone 299 300);
    [lia | unfold exact_points_bound; lia].
Defined.

(** X2.  The progress shown by [display_level_info] is within the level:
    when the stored level is the one [calculate_level] returns for the
    stored points, and these are at least 0 and below [75 * 2^46], then
    [0 <= exp_progress < exp_needed], so the progress bar is never negative
    and never full. *)
Theorem progress_within_level (current_exp current_level : Z) :
  0 <= current_exp -> current_exp < exact_points_bound ->
  calculate_level current_exp = Some current_level ->
  0 <= exp_progress current_exp current_level
  /\ exp_progress current_exp current_level < exp_needed current_level.
Proof.
  intros H0 Hb Hl. unfold exact_points_bound in Hb.
  rewrite calculate_level_floor in Hl by lia.
  inversion Hl as [E]. clear Hl.
  destruct (spec_level_bracket current_exp H0) as (_ & Hlo & Hhi).
  unfold exp_progress, exp_needed. lia.
Qed.

Lemma progress_within_level_witness :
  0 <= exp_progress 1000 3 /\ exp_progress 1000 3 < exp_needed 3.
Proof.
  apply (progress_within_level 1000 3);
    [lia | unfold exact_points_bound; lia | vm_compute; reflexivity].
Defined.

(** ** The gain types *)

Lemma lower_idempotent (s : string) : lower (lower s) = lower s.
Proof.
  induction s as [ | c s IH]; cbn [lower]; [reflexivity | ].
  rewrite IH. f_equal.
  unfold ascii_lower.
  destruct ((65 <=? Ascii.nat_of_ascii c)%nat && (Ascii.nat_of_ascii c <=? 90)%nat)
    eqn:E.
  - apply andb_true_iff in E. destruct E as [E1 E2].
    apply Nat.leb_le in E1, E2.
    rewrite Ascii.nat_ascii_embedding by lia.
    replace ((65 <=? Ascii.nat_of_ascii c + 32)%nat
             && (Ascii.nat_of_ascii c + 32 <=? 90)%nat) with false; [reflexivity | ].
    symmetry. apply andb_false_iff. right. apply Nat.leb_gt. lia.
  - rewrite E. reflexivity.
Qed.

(** X3.  [from_str] inverts [__str__] and ignores the case of the ASCII
    letters: it returns the gain type [g] exactly for the labels whose lower
    case is [str(g)], and raises [ValueError] for every other label. *)
Theorem from_str_spec (label : string) (g : ExpGainType) :
  (from_str label = Some g <-> lower label = gain_type_str g)
  /\ from_str (gain_type_str g) = Some g
  /\ from_str (lower label) = from_str label.
Proof.
  split; [ | split].
  - unfold from_str.
    destruct (String.eqb_spec (lower label) "message") as [E1 | E1].
    { rewrite E1. destruct g; cbn; split; intros H; congruence. }
    destruct (String.eqb_spec (lower label) "voice") as [E2 | E2].
    { rewrite E2. destruct g; cbn; split; intros H; congruence. }
    destruct (String.eqb_spec (lower label) "welcome") as [E3 | E3].
    { rewrite E3. destruct g; cbn; split; intros H; congruence. }
    split; [intros H; discriminate | ].
    destruct g; cbn; intros H; congruence.
  - destruct g; reflexivity.
  - unfold from_str. rewrite lower_idempotent. reflexivity.
Qed.

(** ** Reading a row *)

Lemma find_app_none {A : Type} (f : A -> bool) (l l' : list A) :
  find f l = None -> find f (l ++ l') = find f l'.
Proof.
  induction l as [ | x l IH]; cbn; [reflexivity | ].
  destruct (f x); [discriminate | exact IH].
Qed.

Lemma row_matches_new_row_same g u : row_matches g u (new_row g u) = true.
Proof.
  unfold row_matches, new_row. cbn. rewrite !Z.eqb_refl. reflexivity.
Qed.

(** X4.  [get_user_data] creates the row of a user once: a second call
    returns the same data as the first and leaves the table as the first
    call left it. *)
Theorem get_user_data_twice (st : State) (g u : Z) :
  get_user_data (fst (get_user_data st g u)) g u = get_user_data st g u.
Proof.
  unfold get_user_data at 2 3.
  destruct (db_ready st) eqn:Hdb; cbn [negb].
  - destruct (find (row_matches g u) (user_levels st)) as [r | ] eqn:Hf.
    + cbn [fst]. unfold get_user_data. rewrite Hdb, Hf. reflexivity.
    + cbn [fst]. unfold get_user_data.
      cbn [db_ready set_user_levels user_levels negb]. rewrite Hdb. cbn [negb].
      rewrite find_app_none by exact Hf.
      cbn [find]. rewrite row_matches_new_row_same.
      reflexivity.
  - cbn [fst]. unfold get_user_data. rewrite Hdb. reflexivity.
Qed.

(** ** The rows of [user_levels] from event to event *)

Lemma evolves_trans t1 t2 t3 :
  evolves t1 t2 -> evolves t2 t3 -> evolves t1 t3.
Proof.
  intros H12 H23. induction H12 as [t | t g u t' Hf _ IH | t g u f t' Hk _ IH].
  - exact H23.
  - eapply evolves_insert; [exact Hf | apply IH; exact H23].
  - eapply evolves_update; [exact Hk | apply IH; exact H23].
Qed.

Lemma get_user_data_evolves st g u :
  evolves (user_levels st) (user_levels (fst (get_user_data st g u))).
Proof.
  rewrite get_user_data_rows.
  destruct (db_ready st); [ | apply evolves_refl].
  destruct (find (row_matches g u) (user_levels st)) eqn:Hf; [apply evolves_refl | ].
  eapply evolves_insert; [exact Hf | apply evolves_refl].
Qed.

Lemma update_where_evolves g u f t :
  (forall r, row_key (f r) = row_key r) ->
  evolves t (update_where g u f t).
Proof.
  intros Hk. eapply evolves_update; [exact Hk | apply evolves_refl].
Qed.

Lemma update_user_exp_evolves st member gain ty now :
  evolves (user_levels st)
          (user_levels (fst (update_user_exp st member gain ty now))).
Proof.
  unfold update_user_exp. case_if; [apply evolves_refl | ].
  pose proof (get_user_data_evolves st (member_guild member) (member_id member))
    as H1.
  destruct (get_user_data st (member_guild member) (member_id member))
    as [st1 user_data].
  cbn [fst] in H1.
  destruct (calculate_level _) as [new | ]; [ | exact H1].
  case_if; [ | exact H1].
  cbn [fst set_user_levels user_levels].
  eapply evolves_trans; [exact H1 | ].
  apply update_where_evolves. intros r. destruct ty; reflexivity.
Qed.

Lemma set_xp_cooldown_user_levels st cooldown :
  user_levels (fst (set_xp_cooldown st cooldown)) = user_levels st.
Proof.
  unfold set_xp_cooldown. destruct cooldown; [case_if | ]; reflexivity.
Qed.

Lemma set_xp_voice_user_levels st voice cooldown :
  user_levels (fst (set_xp_voice st voice cooldown)) = user_levels st.
Proof.
  unfold set_xp_voice. destruct voice; [case_if | ];
    rewrite ?set_xp_cooldown_user_levels; reflexivity.
Qed.

Lemma set_activity_evolves st i utilisateur messages temps_vocal :
  evolves (user_levels st)
    (user_levels (fst (set_activity st i utilisateur messages temps_vocal))).
Proof.
  unfold set_activity.
  case_if; [apply evolves_refl | ].
  case_if; [apply evolves_refl | ].
  destruct (negative_activity messages temps_vocal) as [e | [ | ] ];
    try apply evolves_refl.
  case_if; [apply evolves_refl | ].
  pose proof (get_user_data_evolves st (interaction_guild i)
                (member_id utilisateur)) as H1.
  destruct (get_user_data st (interaction_guild i) (member_id utilisateur))
    as [st1 user_data].
  cbn [fst] in H1.
  destruct (calculate_exp_from_activity _ _ _) as [total_exp | ]; [ | exact H1].
  destruct (calculate_level _) as [new | ]; [ | exact H1].
  case_if; [ | exact H1].
  cbn [fst set_user_rewards set_user_levels user_levels].
  eapply evolves_trans; [exact H1 | ].
  apply update_where_evolves. intros r. reflexivity.
Qed.

Ltac unchanged := repeat case_if; cbn; apply evolves_refl.

Lemma run_command_evolves st i c now :
  evolves (user_levels st) (user_levels (fst (run_command st i c now))).
Proof.
  destruct c; cbn [run_command].
  - unfold display_level_info. case_if; [apply evolves_refl | ].
    pose proof (get_user_data_evolves st (interaction_guild i)
                  (member_id (default (user i) utilisateur))) as H1.
    destruct (get_user_data _ _ _) as [st1 ud]. exact H1.
  - unfold display_level_info. case_if; [apply evolves_refl | ].
    pose proof (get_user_data_evolves st (interaction_guild i)
                  (member_id (default (user i) utilisateur))) as H1.
    destruct (get_user_data _ _ _) as [st1 ud]. exact H1.
  - unfold display_leaderboard. repeat case_if; try apply evolves_refl;
      destruct (skipn _ _); apply evolves_refl.
  - unfold display_leaderboard. repeat case_if; try apply evolves_refl;
      destruct (skipn _ _); apply evolves_refl.
  - unfold display_leaderboard. repeat case_if; try apply evolves_refl;
      destruct (skipn _ _); apply evolves_refl.
  - unfold add_exp. repeat (case_if; [apply evolves_refl | ]).
    pose proof (update_user_exp_evolves st utilisateur montant MESSAGE now) as H1.
    destruct (update_user_exp _ _ _ _ _) as [st1 up]. exact H1.
  - unfold remove_exp. repeat (case_if; [apply evolves_refl | ]).
    pose proof (get_user_data_evolves st (interaction_guild i)
                  (member_id utilisateur)) as H1.
    destruct (get_user_data _ _ _) as [st1 ud]. cbn [fst] in H1.
    case_if; [exact H1 | ].
    pose proof (update_user_exp_evolves st1 utilisateur (- montant) MESSAGE now)
      as H2.
    destruct (update_user_exp _ _ _ _ _) as [st2 up]. cbn [fst] in *.
    eapply evolves_trans; eassumption.
  - unfold set_exp. repeat (case_if; [apply evolves_refl | ]).
    pose proof (get_user_data_evolves st (interaction_guild i)
                  (member_id utilisateur)) as H1.
    destruct (get_user_data _ _ _) as [st1 ud]. cbn [fst] in H1.
    destruct (calculate_level montant) as [new | ]; [ | exact H1].
    case_if; [ | exact H1].
    cbn [fst set_user_levels user_levels].
    eapply evolves_trans; [exact H1 | ].
    apply update_where_evolves. intros r. reflexivity.
  - apply set_activity_evolves.
  - unfold toggle_remove_previous. unchanged.
  - unfold level_debug. case_if; [apply evolves_refl | ].
    destruct utilisateur as [m | ]; [ | apply evolves_refl]. cbn [fst].
    apply get_user_data_evolves.
  - unfold blacklist_list_channels. repeat (case_if; [apply evolves_refl | ]).
    destruct (default _ _); apply evolves_refl.
  - unfold blacklist_add_channel. unchanged.
  - unfold blacklist_remove_channel. unchanged.
  - unfold show_xp_settings. unchanged.
  - unfold set_xp_settings. repeat (case_if; [apply evolves_refl | ]).
    destruct exp_per_message' as [v | ];
      [case_if; [apply evolves_refl | ] | ];
      rewrite set_xp_voice_user_levels; apply evolves_refl.
  - unfold role_multiplier_set. unchanged.
  - unfold role_multiplier_list. repeat (case_if; [apply evolves_refl | ]).
    destruct (default _ _); apply evolves_refl.
  - unfold set_level_reward. unchanged.
  - unfold remove_level_reward. unchanged.
  - unfold list_level_rewards. repeat (case_if; [apply evolves_refl | ]).
    destruct (default _ _); apply evolves_refl.
  - unfold set_rewards_message. repeat (case_if; [apply evolves_refl | ]).
    destruct message; unchanged.
  - unfold list_rewards_messages. repeat (case_if; [apply evolves_refl | ]).
    destruct (default _ _); apply evolves_refl.
  - unfold set_rewards_channel. repeat (case_if; [apply evolves_refl | ]).
    destruct channel; [apply evolves_refl | ].
    destruct (level_channel_id _); unchanged.
  - unfold add_admin_role. unchanged.
  - unfold remove_admin_role. repeat (case_if; [apply evolves_refl | ]).
    destruct (default _ _); unchanged.
  - unfold list_admin_roles. repeat (case_if; [apply evolves_refl | ]).
    destruct (default _ _); apply evolves_refl.
Qed.

Lemma on_message_evolves st message now :
  evolves (user_levels st) (user_levels (fst (on_message st message now))).
Proof.
  unfold on_message.
  repeat (case_if; [apply evolves_refl | ]).
  destruct (scaled_exp _ _) as [e | final_exp]; [apply evolves_refl | ].
  pose proof (update_user_exp_evolves st (author message) final_exp MESSAGE now)
    as H1.
  destruct (update_user_exp _ _ _ _ _) as [st1 up]. exact H1.
Qed.

Lemma step_evolves int_of_str guild_has_role add_roles_ok remove_roles_ok
    st ev :
  evolves (user_levels st)
    (user_levels
       (step int_of_str guild_has_role add_roles_ok remove_roles_ok st ev)).
Proof.
  destruct ev as [message now | guilds now | i c now | member member_level];
    cbn [step].
  - apply on_message_evolves.
  - rewrite voice_exp_task_state. apply evolves_refl.
  - apply run_command_evolves.
  - rewrite (proj1 (update_rewards_user_levels int_of_str guild_has_role
                      add_roles_ok remove_roles_ok st member member_level)).
    apply evolves_refl.
Qed.

Lemma update_where_keys g u f t :
  (forall r, row_key (f r) = row_key r) ->
  map row_key (update_where g u f t) = map row_key t.
Proof.
  intros Hk. unfold update_where. rewrite map_map. apply map_ext.
  intros r. destruct (row_matches g u r); [apply Hk | reflexivity].
Qed.

Lemma find_none_key g u t :
  find (row_matches g u) t = None -> ~ In (g, u) (map row_key t).
Proof.
  intros Hf Hin. apply in_map_iff in Hin. destruct Hin as (r & Hk & Hin).
  pose proof (find_none _ _ Hf r Hin) as Hm.
  unfold row_key in Hk. inversion Hk; subst.
  unfold row_matches in Hm. rewrite !Z.eqb_refl in Hm. discriminate.
Qed.

Lemma NoDup_snoc {A : Type} (l : list A) (a : A) :
  NoDup l -> ~ In a l -> NoDup (l ++ [a]).
Proof.
  induction l as [ | x l IH]; intros Hnd Hnot; cbn.
  - constructor; [intros [] | constructor].
  - inversion Hnd as [ | ? ? Hx Hl]; subst. constructor.
    + rewrite in_app_iff. intros [H | [H | [] ] ].
      * contradiction.
      * apply Hnot. left. symmetry. exact H.
    + apply IH; [exact Hl | ]. intros H. apply Hnot. right. exact H.
Qed.

Lemma evolves_unique t t' :
  evolves t t' -> unique_rows t -> unique_rows t'.
Proof.
  unfold unique_rows.
  induction 1 as [t | t g u t' Hf _ IH | t g u f t' Hk _ IH]; intros Hnd.
  - exact Hnd.
  - apply IH. rewrite map_app. cbn [map].
    apply NoDup_snoc; [exact Hnd | apply find_none_key; exact Hf].
  - apply IH. rewrite update_where_keys by exact Hk. exact Hnd.
Qed.

Lemma evolves_prefix t t' :
  evolves t t' -> prefix (map row_key t) (map row_key t').
Proof.
  unfold prefix.
  induction 1 as [t | t g u t' Hf _ IH | t g u f t' Hk _ IH].
  - exists []. rewrite app_nil_r. reflexivity.
  - destruct IH as (rest & E). rewrite map_app in E. cbn [map] in E.
    exists ((g, u) :: rest). rewrite E, <- app_assoc. reflexivity.
  - destruct IH as (rest & E). rewrite update_where_keys in E by exact Hk.
    exists rest. exact E.
Qed.

(** X5.  No event gives a user a second row: if no two rows of
    [user_levels] have the same guild and user, this is still so after a
    message, a voice tick, a command or a reward task. *)
Theorem step_unique_rows int_of_str guild_has_role add_roles_ok
    remove_roles_ok (st : State) (ev : Event) :
  unique_rows (user_levels st) ->
  unique_rows
    (user_levels
       (step int_of_str guild_has_role add_roles_ok remove_roles_ok st ev)).
Proof.
  apply evolves_unique. apply step_evolves.
Qed.

Lemma step_unique_rows_witness :
  unique_rows
    (user_levels
       (step int_of_decimal always always always
             (fst (add_exp st_ready by_admin alice 100 0))
             (EvCommand by_admin (CmdXpAdd bob 100) 1))).
Proof.
  apply (step_unique_rows int_of_decimal always always always
           (fst (add_exp st_ready by_admin alice 100 0))
           (EvCommand by_admin (CmdXpAdd bob 100) 1)).
  unfold unique_rows. vm_compute.
  constructor; [intros [] | constructor].
Defined.

(** X6.  No event deletes or reorders the rows of [user_levels]: the
    (guild, user) keys of the table before an event are a prefix of the keys
    after it. *)
Theorem step_keeps_rows int_of_str guild_has_role add_roles_ok
    remove_roles_ok (st : State) (ev : Event) :
  prefix (map row_key (user_levels st))
    (map row_key
       (user_levels
          (step int_of_str guild_has_role add_roles_ok remove_roles_ok st ev))).
Proof.
  apply evolves_prefix. apply step_evolves.
Qed.

(** ** What the writes leave in the table *)

Lemma row_matches_key g u r r' :
  row_key r' = row_key r -> row_matches g u r' = row_matches g u r.
Proof.
  unfold row_key, row_matches. intros H. inversion H as [[Hg Hu]].
  rewrite Hg, Hu. reflexivity.
Qed.

Lemma find_update_where g u f t :
  (forall r, row_key (f r) = row_key r) ->
  find (row_matches g u) (update_where g u f t)
  = option_map f (find (row_matches g u) t).
Proof.
  intros Hk. unfold update_where.
  induction t as [ | r t IH]; cbn [map find]; [reflexivity | ].
  destruct (row_matches g u r) eqn:E.
  - rewrite (row_matches_key g u r (f r) (Hk r)), E. reflexivity.
  - rewrite E. exact IH.
Qed.

(** After [get_user_data] the row of the user exists, and the data returned
    are those of this row. *)
Lemma get_user_data_found st g u :
  db_ready st = true ->
  exists r,
    find (row_matches g u) (user_levels (fst (get_user_data st g u))) = Some r
    /\ snd (get_user_data st g u) = user_data_of r.
Proof.
  intros Hdb. unfold get_user_data. rewrite Hdb. cbn [negb].
  destruct (find (row_matches g u) (user_levels st)) as [r | ] eqn:Hf.
  - exists r. cbn [fst snd]. split; [exact Hf | reflexivity].
  - exists (new_row g u). cbn [fst snd set_user_levels user_levels].
    rewrite find_app_none by exact Hf. cbn [find].
    rewrite row_matches_new_row_same. split; reflexivity.
Qed.

Lemma lookup_found st g u r :
  db_ready st = true ->
  find (row_matches g u) (user_levels st) = Some r ->
  lookup st g u = user_data_of r.
Proof.
  intros Hdb Hf. unfold lookup, get_user_data. rewrite Hdb, Hf. reflexivity.
Qed.

Lemma spec_level_bounds (p : Z) :
  0 <= p -> 0 <= spec_level p /\ spec_level p <= p.
Proof.
  intros Hp. unfold spec_level.
  destruct (Z.ltb_spec p 75) as [Hlt | Hge]; [lia | ].
  assert (Hq : 0 <= p / 75) by (apply Z.div_pos; lia).
  split; [apply Z.sqrt_nonneg | ].
  pose proof (Z.sqrt_le_lin (p / 75) Hq) as H1.
  assert (p / 75 <= p) by (apply Z.div_le_upper_bound; lia).
  lia.
Qed.

Lemma fits_below_bound (p : Z) :
  0 <= p -> p < exact_points_bound ->
  fits_sqlite_integer p && fits_sqlite_integer (spec_level p) = true.
Proof.
  intros H0 Hb. unfold exact_points_bound in Hb.
  destruct (spec_level_bounds p H0) as [Hl0 Hlp].
  assert (H63 : 75 * 2 ^ 46 < 2 ^ 63) by (vm_compute; reflexivity).
  unfold fits_sqlite_integer.
  apply andb_true_iff; split; apply andb_true_iff; split;
    try (apply Z.leb_le; lia); apply Z.ltb_lt; lia.
Qed.

(** The state and the result of [update_user_exp] when the new points stay
    below [75 * 2^46]. *)
Lemma update_user_exp_below_bound st member gain ty now :
  db_ready st = true ->
  let g := member_guild member in
  let u := member_id member in
  let before := lookup st g u in
  let new_exp := Z.max 0 (ud_exp before + gain) in
  new_exp < exact_points_bound ->
  exists r,
    find (row_matches g u) (user_levels (fst (get_user_data st g u))) = Some r
    /\ before = user_data_of r
    /\ update_user_exp st member gain ty now
       = (set_user_levels (fst (get_user_data st g u))
            (update_where g u
               (apply_update_sql ty new_exp (spec_level new_exp) now)
               (user_levels (fst (get_user_data st g u)))),
          mkExpUpdate (ud_level before) (spec_level new_exp) gain
            (if spec_level new_exp =? ud_level before then []
             else [(member, spec_level new_exp)])).
Proof.
  intros Hdb g u before new_exp Hb.
  destruct (get_user_data_found st g u Hdb) as (r & Hf & Hd).
  exists r. split; [exact Hf | ]. split; [exact Hd | ].
  unfold update_user_exp. rewrite Hdb. cbn [negb].
  fold g u. unfold before, new_exp, lookup in *.
  destruct (get_user_data st g u) as [st1 user_data]. cbn [fst snd] in *.
  rewrite calculate_level_floor by (unfold exact_points_bound in Hb; exact Hb).
  rewrite fits_below_bound by (try exact Hb; lia).
  reflexivity.
Qed.

Lemma update_user_exp_lookup st member gain ty now :
  db_ready st = true ->
  let g := member_guild member in
  let u := member_id member in
  let before := lookup st g u in
  let new_exp := Z.max 0 (ud_exp before + gain) in
  new_exp < exact_points_bound ->
  lookup (fst (update_user_exp st member gain ty now)) g u
  = mkUserData (ud_user_id before) new_exp (spec_level new_exp)
      (ud_total_messages before + counts ty MESSAGE)
      (ud_voice_time before + counts ty VOICE)
      (ud_welcome before + counts ty WELCOME)
  /\ db_ready (fst (update_user_exp st member gain ty now)) = true.
Proof.
  intros Hdb g u before new_exp Hb.
  destruct (update_user_exp_below_bound st member gain ty now Hdb Hb)
    as (r & Hf & Hd & Hup).
  fold g u before new_exp in Hf, Hd, Hup.
  split; [ | rewrite update_user_exp_db_ready; exact Hdb].
  rewrite Hup. cbn [fst].
  assert (Hdb1 : db_ready (fst (get_user_data st g u)) = true)
    by (rewrite get_user_data_db_ready; exact Hdb).
  erewrite lookup_found; cycle 1.
  - exact Hdb1.
  - cbn [set_user_levels user_levels].
    rewrite find_update_where by (intros r0; destruct ty; reflexivity).
    rewrite Hf. reflexivity.
  - rewrite Hd. destruct ty; unfold user_data_of, counts; cbn;
      rewrite ?Z.add_0_r; reflexivity.
Qed.



(** ** The [/xp] commands *)

Lemma lookup_get_user_data st g u :
  lookup (fst (get_user_data st g u)) g u = lookup st g u.
Proof.
  unfold lookup. rewrite get_user_data_twice. reflexivity.
Qed.

Lemma add_exp_accepted st i utilisateur montant now :
  is_admin (config st) (user i) = true -> db_ready st = true ->
  0 < montant ->
  add_exp st i utilisateur montant now
  = (fst (update_user_exp st utilisateur montant MESSAGE now),
     mkReply (inr (Embed "EXP Ajoutée"))
       (spawned (snd (update_user_exp st utilisateur montant MESSAGE now)))).
Proof.
  intros Hadm Hdb Hm. unfold add_exp. rewrite Hadm, Hdb. cbn [negb].
  destruct (Z.leb_spec montant 0); [lia | ].
  destruct (update_user_exp _ _ _ _ _). reflexivity.
Qed.

Lemma remove_exp_accepted st i utilisateur montant now :
  is_admin (config st) (user i) = true -> db_ready st = true ->
  0 < montant ->
  montant <= ud_exp (lookup st (interaction_guild i) (member_id utilisateur)) ->
  let st1 :=
    fst (get_user_data st (interaction_guild i) (member_id utilisateur)) in
  let up := snd (update_user_exp st1 utilisateur (- montant) MESSAGE now) in
  remove_exp st i utilisateur montant now
  = (fst (update_user_exp st1 utilisateur (- montant) MESSAGE now),
     mkReply (inr (Embed "EXP Retirée"))
       (spawned up
        ++ (if new_level up <? old_level up
            then [(utilisateur, new_level up)] else []))).
Proof.
  intros Hadm Hdb Hm He st1 up. unfold remove_exp. rewrite Hadm, Hdb.
  cbn [negb].
  destruct (Z.leb_spec montant 0); [lia | ].
  unfold up, st1, lookup in *.
  destruct (get_user_data st (interaction_guild i) (member_id utilisateur))
    as [st1' user_data].
  cbn [fst snd] in *.
  destruct (Z.ltb_spec (ud_exp user_data) montant); [lia | ].
  destruct (update_user_exp _ _ _ _ _). reflexivity.
Qed.

(** The state and the reply of an accepted removal. *)
Lemma remove_exp_below_bound st i utilisateur montant now :
  is_admin (config st) (user i) = true -> db_ready st = true ->
  member_guild utilisateur = interaction_guild i ->
  let g := interaction_guild i in
  let u := member_id utilisateur in
  let before := lookup st g u in
  0 < montant -> montant <= ud_exp before ->
  ud_exp before < exact_points_bound ->
  let new_exp := ud_exp before - montant in
  lookup (fst (remove_exp st i utilisateur montant now)) g u
  = mkUserData (ud_user_id before) new_exp (spec_level new_exp)
      (ud_total_messages before + 1) (ud_voice_time before)
      (ud_welcome before)
  /\ snd (remove_exp st i utilisateur montant now)
     = mkReply (inr (Embed "EXP Retirée"))
         ((if spec_level new_exp =? ud_level before then []
           else [(utilisateur, spec_level new_exp)])
          ++ (if spec_level new_exp <? ud_level before
              then [(utilisateur, spec_level new_exp)] else [])).
Proof.
  intros Hadm Hdb Hg g u before Hm He Hb new_exp.
  rewrite (remove_exp_accepted st i utilisateur montant now Hadm Hdb Hm He).
  cbn [fst snd].
  set (st1 := fst (get_user_data st (interaction_guild i) (member_id utilisateur))).
  assert (Hdb1 : db_ready st1 = true)
    by (unfold st1; rewrite get_user_data_db_ready; exact Hdb).
  assert (Hl1 : lookup st1 (member_guild utilisateur) (member_id utilisateur)
                = before).
  { rewrite Hg. unfold st1. apply lookup_get_user_data. }
  assert (Hnew : Z.max 0 (ud_exp before + - montant) = new_exp)
    by (unfold new_exp; lia).
  assert (Hb1 : Z.max 0
                  (ud_exp (lookup st1 (member_guild utilisateur)
                             (member_id utilisateur)) + - montant)
                < exact_points_bound)
    by (rewrite Hl1, Hnew; unfold new_exp; lia).
  destruct (update_user_exp_lookup st1 utilisateur (- montant) MESSAGE now
              Hdb1 Hb1) as [Hl _].
  destruct (update_user_exp_below_bound st1 utilisateur (- montant) MESSAGE now
              Hdb1 Hb1) as (r & _ & _ & Hup).
  rewrite Hl1, Hnew in Hl, Hup. rewrite Hg in Hl.
  subst g u. rewrite Hl. rewrite Hup. cbn [fst snd spawned new_level old_level].
  split; [unfold counts; rewrite !Z.add_0_r; reflexivity | reflexivity].
Qed.

(** X8.  A removal that is accepted subtracts exactly: when an
    administrator removes [montant] points ([0 < montant]) from a user of
    the guild who has at least as many (and fewer than [75 * 2^46]), the
    points become [exp - montant], the level is recomputed, and the removal
    is counted as a message.  When the level goes down, two reward tasks are
    spawned for the new level: one by [update_user_exp] and one by the
    command itself. *)
Theorem remove_exp_effect (st : State) (i : Interaction)
    (utilisateur : Member) (montant now : Z) :
  is_admin (config st) (user i) = true -> db_ready st = true ->
  member_guild utilisateur = interaction_guild i ->
  let g := interaction_guild i in
  let u := member_id utilisateur in
  let before := lookup st g u in
  0 < montant -> montant <= ud_exp before ->
  ud_exp before < exact_points_bound ->
  let st' := fst (remove_exp st i utilisateur montant now) in
  let reply := snd (remove_exp st i utilisateur montant now) in
  let after := lookup st' g u in
  ud_exp after = ud_exp before - montant
  /\ calculate_level (ud_exp after) = Some (ud_level after)
  /\ ud_total_messages after = ud_total_messages before + 1
  /\ response reply = inr (Embed "EXP Retirée")
  /\ (ud_level after < ud_level before ->
      tasks reply
      = [(utilisateur, ud_level after); (utilisateur, ud_level after)]).
Proof.
  intros Hadm Hdb Hg g u before Hm He Hb st' reply after.
  destruct (remove_exp_below_bound st i utilisateur montant now Hadm Hdb Hg Hm
              He Hb) as [Hl Hr].
  unfold after, reply, st'. subst g u before. rewrite Hl, Hr.
  cbn [ud_exp ud_level ud_total_messages response tasks].
  split; [reflexivity | ].
  split; [apply calculate_level_floor; unfold exact_points_bound in Hb; lia | ].
  split; [reflexivity | ]. split; [reflexivity | ].
  intros Hlt.
  match goal with
  | |- context [?a =? ?b] => destruct (Z.eqb_spec a b); [lia | ]
  end.
  match goal with
  | |- context [?a <? ?b] => destruct (Z.ltb_spec a b); [reflexivity | lia]
  end.
Qed.

Lemma remove_exp_effect_witness :
  let st1 := fst (add_exp st_ready by_admin alice 300 0) in
  let st' := fst (remove_exp st1 by_admin alice 300 1) in
  let reply := snd (remove_exp st1 by_admin alice 300 1) in
  let after := lookup st' 10 2 in
  ud_exp after = ud_exp (lookup st1 10 2) - 300
  /\ calculate_level (ud_exp after) = Some (ud_level after)
  /\ ud_total_messages after = ud_total_messages (lookup st1 10 2) + 1
  /\ response reply = inr (Embed "EXP Retirée")
  /\ (ud_level after < ud_level (lookup st1 10 2) ->
      tasks reply = [(alice, ud_level after); (alice, ud_level after)]).
Proof.
  apply (remove_exp_effect (fst (add_exp st_ready by_admin alice 300 0))
           by_admin alice 300 1);
    try reflexivity; vm_compute; intros; discriminate.
Defined.







(** ** Messages *)

Module ScaledExp.
Import PyFloat PyFloatFacts.





End ScaledExp.









(** ** How the voice tick ends *)

Lemma award_members_from_voice_raises now base_exp st member rest :
  exists e,
    snd (award_members (call_update_user_exp ["from_voice"] now) base_exp st
           (member :: rest)) = Raised e.
Proof.
  cbn [award_members].
  destruct (scaled_exp _ _) as [e | final_exp]; [exists e; reflexivity | ].
  rewrite call_from_voice_raises. exists TypeError. reflexivity.
Qed.

Lemma award_channels_from_voice_done now blacklisted base_exp st channels :
  snd (award_channels (call_update_user_exp ["from_voice"] now) blacklisted
         base_exp st channels) = Done
  <-> forall vc, In vc channels -> eligible blacklisted vc = false.
Proof.
  induction channels as [ | vc rest IH]; cbn [award_channels].
  - split; [intros _ vc [] | reflexivity].
  - destruct (mem (vc_id vc) blacklisted) eqn:Hbl.
    { rewrite IH. split.
      - intros H vc' [<- | Hin]; [unfold eligible; rewrite Hbl; reflexivity | auto].
      - intros H vc' Hin. apply H. right. exact Hin. }
    destruct (Z.of_nat (List.length (active_members vc)) <? 2) eqn:Hlen.
    { rewrite IH. split.
      - intros H vc' [<- | Hin]; [ | auto].
        unfold eligible. rewrite Hlen. apply andb_false_r.
      - intros H vc' Hin. apply H. right. exact Hin. }
    destruct (active_members vc) as [ | member members] eqn:Hact;
      [cbn in Hlen; discriminate | ].
    destruct (award_members_from_voice_raises now base_exp st member members)
      as [e He].
    destruct (award_members _ _ _ _) as [st1 o]. cbn [snd] in He. subst o.
    cbn [snd]. split; [discriminate | ].
    intros H. specialize (H vc (or_introl eq_refl)).
    unfold eligible in H. rewrite Hbl, Hact, Hlen in H. discriminate.
Qed.

Lemma award_guilds_from_voice_done now blacklisted st guilds :
  snd (award_guilds (call_update_user_exp ["from_voice"] now) blacklisted st
         guilds) = Done
  <-> forall guild vc,
        In guild guilds -> In vc (voice_channels guild) ->
        eligible blacklisted vc = false.
Proof.
  induction guilds as [ | guild rest IH]; cbn [award_guilds].
  - split; [intros _ g vc [] | reflexivity].
  - pose proof (award_channels_from_voice now blacklisted
                  (default 0 (exp_per_voice_minute (config st))) st
                  (voice_channels guild)) as Hst.
    pose proof (award_channels_from_voice_done now blacklisted
                  (default 0 (exp_per_voice_minute (config st))) st
                  (voice_channels guild)) as Hdone.
    destruct (award_channels _ _ _ _ _) as [st1 [ | e] ];
      cbn [fst snd] in Hst, Hdone; subst st1.
    + rewrite IH. split.
      * intros H g vc [<- | Hin] Hvc; [ | eauto].
        apply (proj1 Hdone eq_refl). exact Hvc.
      * intros H g vc Hin. apply H. right. exact Hin.
    + cbn [snd]. split; [discriminate | ].
      intros H. apply Hdone. intros vc Hvc.
      apply (H guild vc); [left; reflexivity | exact Hvc].
Qed.

(** X14.  How the voice tick ends when the store is up: it returns
    normally exactly when every voice channel of every guild is skipped
    (blacklisted, or fewer than two active members); as soon as one channel
    is eligible, an exception escapes from the tick. *)
Theorem voice_tick_done_iff_all_skipped (st : State) (guilds : list Guild)
    (now : Z) :
  db_ready st = true ->
  (snd (voice_exp_task st guilds now) = Done
   <-> forall guild vc,
         In guild guilds -> In vc (voice_channels guild) ->
         eligible (default [] (blacklisted_channels (config st))) vc = false).
Proof.
  intros Hdb. unfold voice_exp_task, voice_exp_task_with. rewrite Hdb.
  cbn [negb]. apply award_guilds_from_voice_done.
Qed.

Lemma voice_tick_done_iff_all_skipped_witness :
  snd (voice_exp_task st_ready [guild_10_booth] 0) = Done
  <-> forall guild vc,
        In guild [guild_10_booth] -> In vc (voice_channels guild) ->
        eligible (default [] (blacklisted_channels (config st_ready))) vc
        = false.
Proof.
  apply (voice_tick_done_iff_all_skipped st_ready [guild_10_booth] 0).
  reflexivity.
Defined.

(** ** More about the reward reconciliation *)

(** The exception path: the binding of the threshold [2^63] raises after
    role 300 has been removed, so role 200 is never revoked and nothing is
    written. *)
Lemma update_rewards_overflow_ends_loops :
  planned_changes int_of_decimal always st_huge_threshold erin 7
  = ([], [(2 ^ 63, 300); (10, 200)])
  /\ update_rewards int_of_decimal always always always st_huge_threshold
                    erin 7
     = (st_huge_threshold, [200]).
Proof. split; vm_compute; reflexivity. Qed.

(** With nothing to add and nothing to remove, [update_rewards] changes
    neither the roles nor the table. *)
Lemma update_rewards_no_changes int_of_str guild_has_role add_roles_ok
    remove_roles_ok st member member_level :
  db_ready st = true ->
  planned_changes int_of_str guild_has_role st member member_level
  = ([], []) ->
  update_rewards int_of_str guild_has_role add_roles_ok remove_roles_ok st
                 member member_level
  = (set_user_rewards st (user_rewards st), roles member).
Proof.
  intros Hdb Hp. unfold planned_changes in Hp. injection Hp as Ha Hr.
  unfold update_rewards. rewrite Hdb, Ha, Hr. reflexivity.
Qed.

(** X15.  Failure tolerance of the reconciliation: when the store is up
    and the identifiers and the thresholds fit an SQLite [INTEGER], whatever
    the API calls return, the member holds a role afterwards exactly when it
    was held before or was to be added and the call succeeded, and it was
    not a role to remove whose call succeeded.  A failed call therefore
    affects its own role only. *)
Theorem update_rewards_failure_tolerance int_of_str guild_has_role
    add_roles_ok remove_roles_ok (st : State) (member : Member)
    (member_level x : Z) :
  db_ready st = true ->
  rewards_bind int_of_str st member ->
  let plan :=
    planned_changes int_of_str guild_has_role st member member_level in
  In x (snd (update_rewards int_of_str guild_has_role add_roles_ok
               remove_roles_ok st member member_level))
  <-> (In x (roles member)
       \/ (In x (map snd (fst plan)) /\ add_roles_ok x = true))
      /\ ~ (In x (map snd (snd plan)) /\ remove_roles_ok x = true).
Proof.
  intros Hdb Hbind plan.
  destruct (update_rewards_bound int_of_str guild_has_role add_roles_ok
              remove_roles_ok st member member_level Hdb Hbind)
    as (held' & table' & E & Hh & _).
  rewrite E. cbn [snd]. apply Hh.
Qed.

Lemma update_rewards_failure_tolerance_witness :
  let plan := planned_changes int_of_decimal always st_two_rewards carol 7 in
  In 200 (snd (update_rewards int_of_decimal always always (fun _ => false)
                 st_two_rewards carol 7))
  <-> (In 200 (roles carol)
       \/ (In 200 (map snd (fst plan)) /\ always 200 = true))
      /\ ~ (In 200 (map snd (snd plan)) /\ (fun _ : Z => false) 200 = true).
Proof.
  apply (update_rewards_failure_tolerance int_of_decimal always always
           (fun _ => false) st_two_rewards carol 7 200).
  - reflexivity.
  - split; [reflexivity | ]. split; [reflexivity | ].
    intros l r Hin. vm_compute in Hin.
    destruct Hin as [Heq | [Heq | [] ] ]; inversion Heq; subst;
      split; reflexivity.
Defined.

(** X16.  The reconciliation touches configured reward roles only: a role
    that is the value of no entry of [level_rewards] with a numeric key is
    held afterwards exactly when it was held before, whatever the state of
    the store and whatever the API calls return.  In particular the role of
    an entry whose key is not a number is neither granted nor revoked. *)
Theorem update_rewards_only_configured int_of_str guild_has_role
    add_roles_ok remove_roles_ok (st : State) (member : Member)
    (member_level x : Z) :
  (forall l, ~ In (l, x) (reward_entries int_of_str st)) ->
  (In x (snd (update_rewards int_of_str guild_has_role add_roles_ok
                remove_roles_ok st member member_level))
   <-> In x (roles member)).
Proof.
  intros Hnot.
  pose proof (update_rewards_held_weak int_of_str guild_has_role add_roles_ok
                remove_roles_ok st member member_level x) as Hw.
  cbv zeta in Hw. destruct Hw as [H1 H2].
  pose proof (planned_changes_configured int_of_str guild_has_role st member
                member_level x) as Hc. cbv zeta in Hc.
  split.
  - intros H. destruct (H1 H) as [H' | H']; [exact H' | ].
    destruct Hc as [l Hl]; [left; exact H' | ]. destruct (Hnot l Hl).
  - intros H. destruct (H2 H) as [H' | H']; [exact H' | ].
    destruct Hc as [l Hl]; [right; exact H' | ]. destruct (Hnot l Hl).
Qed.

Lemma update_rewards_only_configured_witness :
  In 300 (snd (update_rewards int_of_decimal always always always
                 (mkState true
                    (set_level_rewards sample_config
                       [("5", 100); ("dix", 300)]) [] [] [])
                 (mkMember 7 10 false [300] false false) 7))
  <-> In 300 (roles (mkMember 7 10 false [300] false false)).
Proof.
  apply (update_rewards_only_configured int_of_decimal always always always
           (mkState true
              (set_level_rewards sample_config [("5", 100); ("dix", 300)])
              [] [] [])
           (mkMember 7 10 false [300] false false) 7 300).
  intros l H. vm_compute in H. destruct H as [H | [] ]. inversion H.
Defined.

Lemma nil_if_no_member {A : Type} (l : list A) :
  (forall x, ~ In x l) -> l = [].
Proof.
  destruct l as [ | a l]; [reflexivity | ].
  intros H. destruct (H a). left. reflexivity.
Qed.

Lemma mem_false_not_In x l : mem x l = false <-> ~ In x l.
Proof.
  rewrite <- (mem_In x l). destruct (mem x l); split; intros H; congruence.
Qed.

(** After a reconciliation in which every value bound and every call
    succeeded, nothing is left to add or to remove for the same target
    level. *)
Lemma planned_changes_after_update int_of_str guild_has_role add_roles_ok
    remove_roles_ok st member member_level :
  db_ready st = true ->
  rewards_bind int_of_str st member ->
  NoDup (map snd (reward_entries int_of_str st)) ->
  (forall l r, In (l, r) (reward_entries int_of_str st) ->
               add_roles_ok r = true) ->
  (forall l r, In (l, r) (reward_entries int_of_str st) ->
               remove_roles_ok r = true) ->
  let res :=
    update_rewards int_of_str guild_has_role add_roles_ok remove_roles_ok st
                   member member_level in
  planned_changes int_of_str guild_has_role (fst res)
                  (with_roles member (snd res)) member_level
  = ([], []).
Proof.
  intros Hdb Hbind Hnd Hadd Hrem res.
  pose proof (update_rewards_held int_of_str guild_has_role add_roles_ok
                remove_roles_ok st member member_level) as Hheld.
  cbv zeta in Hheld.
  assert (Hc : config (fst res) = config st).
  { apply (update_rewards_user_levels int_of_str guild_has_role add_roles_ok
             remove_roles_ok st member member_level). }
  unfold planned_changes. rewrite Hc. cbn [roles with_roles].
  unfold reward_entries in Hnd, Hadd, Hrem.
  set (d := default [] (level_rewards (config st))) in *.
  set (rp := default true (remove_previous_rewards (config st))) in *.
  set (app := applicable_roles int_of_str member_level d) in *.
  set (nonapp := non_applicable_roles int_of_str member_level d) in *.
  set (top := snd (topmost_role app)) in *.
  set (adds := roles_to_add guild_has_role rp (roles member) top app) in *.
  set (rems := roles_to_remove guild_has_role rp (roles member) top app nonapp)
    in *.
  fold res in Hheld.
  assert (Hh : forall x,
             In x (snd res)
             <-> (In x (roles member) \/ In x (map snd adds))
                 /\ ~ In x (map snd rems)).
  { intros x. apply Hheld; assumption. }
  (* a role to remove was held; a role to add was not *)
  assert (Hrems_held : forall x, In x (map snd rems) -> In x (roles member)).
  { intros x Hx. apply In_map_snd in Hx. destruct Hx as [l Hx].
    apply roles_to_remove_In in Hx. apply mem_In.
    destruct Hx as [ (_ & _ & Hm & _) | (_ & _ & Hm) ]; exact Hm. }
  assert (Hsplit : forall l l' r, In (l, r) app -> In (l', r) nonapp -> False).
  { intros l l' r Ha Hn. apply applicable_In in Ha. apply non_applicable_In in Hn.
    destruct Ha as [Ha Hle]. destruct Hn as [Hn Hlt].
    pose proof (NoDup_snd_unique _ _ _ _ Hnd Ha Hn). lia. }
  f_equal.
  - apply nil_if_no_member. intros [l r] Hin.
    apply roles_to_add_In in Hin.
    destruct Hin as (Happ & Hg & Hm & Hor).
    apply mem_false_not_In in Hm. apply Hm. apply Hh.
    destruct (mem r (roles member)) eqn:Hm0.
    + split; [left; apply mem_In; exact Hm0 | ].
      intros Hx. apply In_map_snd in Hx. destruct Hx as [l' Hx].
      apply roles_to_remove_In in Hx.
      destruct Hx as [ (_ & _ & _ & Hrp & Ht) | (Hn & _) ].
      * destruct Hor as [Hor | Hor]; congruence.
      * exact (Hsplit _ _ _ Happ Hn).
    + split.
      * right. apply In_map_snd. exists l. apply roles_to_add_In. auto.
      * intros Hx. apply Hrems_held in Hx. apply mem_In in Hx. congruence.
  - apply nil_if_no_member. intros [l r] Hin.
    apply roles_to_remove_In in Hin.
    assert (Hm : mem r (snd res) = true)
      by (destruct Hin as [ (_ & _ & Hm & _) | (_ & _ & Hm) ]; exact Hm).
    apply mem_In in Hm. apply Hh in Hm. destruct Hm as [Hin0 Hnot].
    destruct Hin0 as [Hheld0 | Hadd0].
    + apply Hnot. apply In_map_snd. exists l. apply roles_to_remove_In.
      apply mem_In in Hheld0.
      destruct Hin as [ (Ha & Hg & _ & Hrp & Ht) | (Hn & Hg & _) ]; auto 6.
    + apply In_map_snd in Hadd0. destruct Hadd0 as [l1 Hadd0].
      apply roles_to_add_In in Hadd0.
      destruct Hadd0 as (Happ1 & _ & _ & Hor).
      destruct Hin as [ (_ & _ & _ & Hrp & Ht) | (Hn & _) ].
      * destruct Hor as [Hor | Hor]; congruence.
      * exact (Hsplit _ _ _ Happ1 Hn).
Qed.

(** X17.  The reconciliation is idempotent.  When the store is up, the
    identifiers and the thresholds fit an SQLite [INTEGER], no role is
    configured at two thresholds and every API call succeeds, a second run
    for the same target level, on the member with the roles the first run
    left, finds nothing to add and nothing to remove, and changes neither
    the roles nor the tables. *)
Theorem update_rewards_idempotent int_of_str guild_has_role add_roles_ok
    remove_roles_ok (st : State) (member : Member) (member_level : Z) :
  db_ready st = true ->
  rewards_bind int_of_str st member ->
  NoDup (map snd (reward_entries int_of_str st)) ->
  (forall l r, In (l, r) (reward_entries int_of_str st) ->
               add_roles_ok r = true) ->
  (forall l r, In (l, r) (reward_entries int_of_str st) ->
               remove_roles_ok r = true) ->
  let res :=
    update_rewards int_of_str guild_has_role add_roles_ok remove_roles_ok st
                   member member_level in
  planned_changes int_of_str guild_has_role (fst res)
                  (with_roles member (snd res)) member_level
  = ([], [])
  /\ update_rewards int_of_str guild_has_role add_roles_ok remove_roles_ok
       (fst res) (with_roles member (snd res)) member_level
     = res.
Proof.
  intros Hdb Hbind Hnd Hadd Hrem res.
  pose proof (planned_changes_after_update int_of_str guild_has_role
                add_roles_ok remove_roles_ok st member member_level Hdb Hbind
                Hnd Hadd Hrem) as Hplan.
  cbv zeta in Hplan. fold res in Hplan.
  split; [exact Hplan | ].
  destruct (update_rewards_bound int_of_str guild_has_role add_roles_ok
              remove_roles_ok st member member_level Hdb Hbind)
    as (held' & table' & Hres & _).
  fold res in Hres.
  assert (Hdb1 : db_ready (fst res) = true).
  { rewrite Hres. cbn [fst set_user_rewards db_ready]. exact Hdb. }
  rewrite (update_rewards_no_changes int_of_str guild_has_role add_roles_ok
             remove_roles_ok (fst res) (with_roles member (snd res))
             member_level Hdb1 Hplan).
  rewrite Hres. reflexivity.
Qed.

Lemma update_rewards_idempotent_witness :
  let res :=
    update_rewards int_of_decimal always always always st_two_rewards carol 7
  in
  planned_changes int_of_decimal always (fst res)
                  (with_roles carol (snd res)) 7
  = ([], [])
  /\ update_rewards int_of_decimal always always always
       (fst res) (with_roles carol (snd res)) 7
     = res.
Proof.
  apply (update_rewards_idempotent int_of_decimal always always always
           st_two_rewards carol 7).
  - reflexivity.
  - split; [reflexivity | ]. split; [reflexivity | ].
    intros l r Hin. vm_compute in Hin.
    destruct Hin as [Heq | [Heq | [] ] ]; inversion Heq; subst;
      split; reflexivity.
  - vm_compute. repeat constructor; cbn; intuition discriminate.
  - reflexivity.
  - reflexivity.
Defined.

(** *** The table of granted rewards *)

(** X18.  The table [user_rewards] follows the calls that succeeded: when
    the store is up and the identifiers and the thresholds fit an SQLite
    [INTEGER], after [update_rewards] the table holds the row of every role
    that was added, holds no row of a role that was removed, and holds a row
    of another member exactly when it held it before. *)
Theorem update_rewards_records int_of_str guild_has_role add_roles_ok
    remove_roles_ok (st : State) (member : Member) (member_level : Z) :
  db_ready st = true ->
  rewards_bind int_of_str st member ->
  let g := member_guild member in
  let u := member_id member in
  let plan :=
    planned_changes int_of_str guild_has_role st member member_level in
  let st' :=
    fst (update_rewards int_of_str guild_has_role add_roles_ok
           remove_roles_ok st member member_level) in
  (forall l r, In (l, r) (fst plan) -> add_roles_ok r = true ->
               In (mkRewardRow g u l r) (user_rewards st'))
  /\ (forall l r, In (l, r) (snd plan) -> remove_roles_ok r = true ->
                  ~ In (mkRewardRow g u l r) (user_rewards st'))
  /\ (forall row, (rw_guild_id row, rw_user_id row) <> (g, u) ->
                  (In row (user_rewards st') <-> In row (user_rewards st))).
Proof.
  intros Hdb Hbind g u plan st'.
  assert (Hrows : forall row,
             In row (user_rewards st')
             <-> (In row (user_rewards st)
                  \/ exists l r,
                       In (l, r) (fst plan) /\ add_roles_ok r = true
                       /\ row = mkRewardRow g u l r)
                 /\ ~ exists l r,
                        In (l, r) (snd plan) /\ remove_roles_ok r = true
                        /\ row = mkRewardRow g u l r).
  { intros row. unfold st'.
    destruct (update_rewards_bound int_of_str guild_has_role add_roles_ok
                remove_roles_ok st member member_level Hdb Hbind)
      as (held' & table' & E & _ & Ht).
    rewrite E. cbn [fst user_rewards set_user_rewards]. apply Ht. }
  split; [ | split].
  - intros l r Hin Hok. apply Hrows. split.
    + right. exists l, r. auto.
    + intros (l' & r' & Hin' & Hok' & Heq). inversion Heq; subst l' r'.
      unfold plan, planned_changes in Hin, Hin'. cbn [fst snd] in Hin, Hin'.
      apply roles_to_add_In in Hin. destruct Hin as (_ & _ & Hm & _).
      apply roles_to_remove_In in Hin'.
      destruct Hin' as [ (_ & _ & Hm' & _) | (_ & _ & Hm') ]; congruence.
  - intros l r Hin Hok Hrow. apply Hrows in Hrow. destruct Hrow as [_ Hnot].
    apply Hnot. exists l, r. auto.
  - intros row Hother. rewrite Hrows. split.
    + intros [ [H | (l & r & _ & _ & Heq) ] _]; [exact H | ].
      subst row. destruct Hother. reflexivity.
    + intros H. split; [left; exact H | ].
      intros (l & r & _ & _ & Heq). subst row. destruct Hother. reflexivity.
Qed.

Lemma update_rewards_records_witness :
  let plan := planned_changes int_of_decimal always st_two_rewards carol 7 in
  let st' :=
    fst (update_rewards int_of_decimal always always always st_two_rewards
           carol 7) in
  (forall l r, In (l, r) (fst plan) -> always r = true ->
               In (mkRewardRow 10 5 l r) (user_rewards st'))
  /\ (forall l r, In (l, r) (snd plan) -> always r = true ->
                  ~ In (mkRewardRow 10 5 l r) (user_rewards st'))
  /\ (forall row, (rw_guild_id row, rw_user_id row) <> (10, 5) ->
                  (In row (user_rewards st')
                   <-> In row (user_rewards st_two_rewards))).
Proof.
  apply (update_rewards_records int_of_decimal always always always
           st_two_rewards carol 7).
  - reflexivity.
  - split; [reflexivity | ]. split; [reflexivity | ].
    intros l r Hin. vm_compute in Hin.
    destruct Hin as [Heq | [Heq | [] ] ]; inversion Heq; subst;
      split; reflexivity.
Defined.

(** ** The configuration commands *)

(** [int(str(n))] is [n]. *)
Lemma int_of_decimal_str (n : Z) : int_of_decimal (str n) = Some n.
Proof.
  unfold int_of_decimal, str. rewrite NilZero.isi.
  - cbn [option_map]. rewrite DecimalZ.of_to. reflexivity.
  - destruct n; cbn [Z.to_int]; try discriminate.
    intros H. inversion H as [E].
    exact (DecimalPos.Unsigned.to_uint_nonnil _ E).
  - destruct n; cbn [Z.to_int]; try discriminate.
    intros H. inversion H as [E].
    exact (DecimalPos.Unsigned.to_uint_nonnil _ E).
Qed.

Lemma dict_set_In {V : Type} (d : list (string * V)) k v :
  In (k, v) (dict_set String.eqb d k v).
Proof.
  induction d as [ | [k' v'] d IH]; cbn [dict_set].
  - left. reflexivity.
  - destruct (String.eqb_spec k k') as [-> | Hne].
    + left. reflexivity.
    + right. exact IH.
Qed.

Lemma dict_del_set_absent {V : Type} (d : list (string * V)) k v :
  dict_get String.eqb d k = None ->
  dict_del String.eqb (dict_set String.eqb d k v) k = d.
Proof.
  induction d as [ | [k' v'] d IH]; cbn [dict_get dict_set dict_del]; intros H.
  - rewrite String.eqb_refl. reflexivity.
  - destruct (String.eqb k k') eqn:E; [discriminate | ].
    cbn [dict_del]. rewrite E, IH by exact H. reflexivity.
Qed.

Lemma dict_mem_set {V : Type} (d : list (string * V)) k v :
  dict_mem String.eqb (dict_set String.eqb d k v) k = true.
Proof.
  unfold dict_mem.
  induction d as [ | [k' v'] d IH]; cbn [dict_set dict_get].
  - rewrite String.eqb_refl. reflexivity.
  - destruct (String.eqb k k') eqn:E; cbn [dict_get]; rewrite E;
      [reflexivity | exact IH].
Qed.

(** X19.  A reward set with [/xp-level-rewards set] is one the
    reconciliation sees: after the command (invoker accepted, store up,
    [niveau >= 1]) the pair [(niveau, role)] is applicable to every target
    level from [niveau] on, although the level is stored as the string
    [str(niveau)].  And when no reward was configured for the level before,
    [/xp-level-rewards remove] of the same level restores the rewards as
    they were. *)
Theorem set_level_reward_round_trip (st : State) (i : Interaction)
    (niveau role : Z) :
  is_admin (config st) (user i) = true -> db_ready st = true ->
  1 <= niveau ->
  let st1 := fst (set_level_reward st i niveau role) in
  let st2 := fst (remove_level_reward st1 i niveau) in
  (forall member_level,
      niveau <= member_level ->
      In (niveau, role)
         (applicable_roles int_of_decimal member_level
            (default [] (level_rewards (config st1)))))
  /\ (dict_get String.eqb (default [] (level_rewards (config st)))
               (str niveau) = None ->
      default [] (level_rewards (config st2))
      = default [] (level_rewards (config st))).
Proof.
  intros Hadm Hdb Hn st1 st2.
  assert (H1 : st1 = set_config st
                       (set_level_rewards (config st)
                          (dict_set String.eqb
                             (default [] (level_rewards (config st)))
                             (str niveau) role))).
  { unfold st1, set_level_reward. rewrite Hadm, Hdb. cbn [negb].
    destruct (Z.ltb_spec niveau 1); [lia | reflexivity]. }
  split.
  - intros member_level Hle. apply applicable_In. split; [ | exact Hle].
    rewrite H1. cbn [config set_config level_rewards set_level_rewards default].
    unfold parse_rewards. apply in_flat_map.
    exists (str niveau, role). split; [apply dict_set_In | ].
    rewrite int_of_decimal_str. left. reflexivity.
  - intros Habs. unfold st2. rewrite H1.
    unfold remove_level_reward, is_admin in *.
    cbn [config set_config db_ready admin_roles level_rewards
         set_level_rewards default].
    rewrite Hadm, Hdb, dict_mem_set.
    cbn [negb fst config set_config level_rewards set_level_rewards default].
    apply dict_del_set_absent. exact Habs.
Qed.

Lemma set_level_reward_round_trip_witness :
  let st1 := fst (set_level_reward st_ready by_admin 5 100) in
  let st2 := fst (remove_level_reward st1 by_admin 5) in
  (forall member_level,
      5 <= member_level ->
      In (5, 100)
         (applicable_roles int_of_decimal member_level
            (default [] (level_rewards (config st1)))))
  /\ (dict_get String.eqb (default [] (level_rewards (config st_ready)))
               (str 5) = None ->
      default [] (level_rewards (config st2))
      = default [] (level_rewards (config st_ready))).
Proof.
  apply (set_level_reward_round_trip st_ready by_admin 5 100);
    [reflexivity | reflexivity | lia].
Defined.





(** X21.  [/xp-settings set] writes the settings one after the other, so a
    rejected command may have changed the configuration: when
    [exp_per_message] is accepted and [cooldown] is negative (and
    [exp_per_voice_minute] is omitted or accepted), the reply is the failure
    about the cooldown, yet [exp_per_message] (and [exp_per_voice_minute],
    when given) has been written and the cooldown is left as it was. *)
Theorem set_xp_settings_partial_write (st : State) (i : Interaction)
    (exp_per_message' cooldown : Z) (exp_per_voice_minute' : option Z) :
  is_admin (config st) (user i) = true -> db_ready st = true ->
  0 <= exp_per_message' -> cooldown < 0 ->
  (forall v, exp_per_voice_minute' = Some v -> 0 <= v) ->
  let res :=
    set_xp_settings st i (Some exp_per_message') exp_per_voice_minute'
                    (Some cooldown) in
  response (snd res)
  = inr (Failure "Le cooldown des messages doit être positif ou nul.")
  /\ exp_per_message (config (fst res)) = Some exp_per_message'
  /\ exp_per_voice_minute (config (fst res))
     = match exp_per_voice_minute' with
       | Some v => Some v
       | None => exp_per_voice_minute (config st)
       end
  /\ message_cooldown (config (fst res)) = message_cooldown (config st).
Proof.
  intros Hadm Hdb Hm Hc Hv res. unfold res, set_xp_settings.
  rewrite Hadm, Hdb. cbn [negb].
  destruct (Z.ltb_spec exp_per_message' 0); [lia | ].
  unfold set_xp_voice, set_xp_cooldown.
  destruct exp_per_voice_minute' as [v | ].
  - specialize (Hv v eq_refl).
    destruct (Z.ltb_spec v 0); [lia | ].
    destruct (Z.ltb_spec cooldown 0); [ | lia].
    repeat split.
  - destruct (Z.ltb_spec cooldown 0); [ | lia].
    repeat split.
Qed.

Lemma set_xp_settings_partial_write_witness :
  let res := set_xp_settings st_ready by_admin (Some 25) None (Some (-1)) in
  response (snd res)
  = inr (Failure "Le cooldown des messages doit être positif ou nul.")
  /\ exp_per_message (config (fst res)) = Some 25
  /\ exp_per_voice_minute (config (fst res))
     = exp_per_voice_minute (config st_ready)
  /\ message_cooldown (config (fst res)) = message_cooldown (config st_ready).
Proof.
  apply (set_xp_settings_partial_write st_ready by_admin 25 (-1) None);
    try reflexivity; try lia. intros v H. discriminate H.
Defined.

(** ** Who is accepted as an administrator *)

Lemma set_xp_cooldown_admin_roles st cooldown :
  admin_roles (config (fst (set_xp_cooldown st cooldown)))
  = admin_roles (config st).
Proof.
  unfold set_xp_cooldown. destruct cooldown; [case_if | ]; reflexivity.
Qed.

Lemma set_xp_voice_admin_roles st voice cooldown :
  admin_roles (config (fst (set_xp_voice st voice cooldown)))
  = admin_roles (config st).
Proof.
  unfold set_xp_voice. destruct voice; [case_if | ];
    rewrite ?set_xp_cooldown_admin_roles; reflexivity.
Qed.

Lemma run_command_admin_roles st i c now :
  admin_roles (config (fst (run_command st i c now)))
  = admin_roles (config st).
Proof.
  destruct c; cbn [run_command].
  - unfold display_level_info. case_if; [reflexivity | ].
    pose proof (get_user_data_config st (interaction_guild i)
                  (member_id (default (user i) utilisateur))) as Hc.
    destruct (get_user_data _ _ _) as [st1 ud]. cbn [fst] in *.
    rewrite Hc. reflexivity.
  - unfold display_level_info. case_if; [reflexivity | ].
    pose proof (get_user_data_config st (interaction_guild i)
                  (member_id (default (user i) utilisateur))) as Hc.
    destruct (get_user_data _ _ _) as [st1 ud]. cbn [fst] in *.
    rewrite Hc. reflexivity.
  - unfold display_leaderboard. repeat case_if; try reflexivity;
      destruct (skipn _ _); reflexivity.
  - unfold display_leaderboard. repeat case_if; try reflexivity;
      destruct (skipn _ _); reflexivity.
  - unfold display_leaderboard. repeat case_if; try reflexivity;
      destruct (skipn _ _); reflexivity.
  - unfold add_exp. repeat (case_if; [reflexivity | ]).
    pose proof (update_user_exp_config st utilisateur montant MESSAGE now) as Hc.
    destruct (update_user_exp _ _ _ _ _) as [st1 up]. cbn [fst] in *.
    rewrite Hc. reflexivity.
  - unfold remove_exp. repeat (case_if; [reflexivity | ]).
    pose proof (get_user_data_config st (interaction_guild i)
                  (member_id utilisateur)) as Hc.
    destruct (get_user_data _ _ _) as [st1 ud]. cbn [fst] in Hc.
    case_if; [cbn [fst]; rewrite Hc; reflexivity | ].
    pose proof (update_user_exp_config st1 utilisateur (- montant) MESSAGE now)
      as Hc2.
    destruct (update_user_exp _ _ _ _ _) as [st2 up]. cbn [fst] in *.
    rewrite Hc2, Hc. reflexivity.
  - unfold set_exp. repeat (case_if; [reflexivity | ]).
    pose proof (get_user_data_config st (interaction_guild i)
                  (member_id utilisateur)) as Hc.
    destruct (get_user_data _ _ _) as [st1 ud]. cbn [fst] in Hc.
    destruct (calculate_level montant) as [new | ];
      [ | cbn [fst]; rewrite Hc; reflexivity].
    case_if; cbn [fst set_user_levels config]; rewrite Hc; reflexivity.
  - unfold set_activity. repeat (case_if; [reflexivity | ]).
    destruct (negative_activity messages temps_vocal) as [e | [ | ] ];
      try reflexivity.
    case_if; [reflexivity | ].
    pose proof (get_user_data_config st (interaction_guild i)
                  (member_id utilisateur)) as Hc.
    destruct (get_user_data _ _ _) as [st1 ud]. cbn [fst] in Hc.
    destruct (calculate_exp_from_activity _ _ _) as [total_exp | ];
      [ | cbn [fst]; rewrite Hc; reflexivity].
    destruct (calculate_level _) as [new | ];
      [ | cbn [fst]; rewrite Hc; reflexivity].
    case_if; cbn [fst set_user_rewards set_user_levels config]; rewrite Hc;
      reflexivity.
  - unfold toggle_remove_previous. repeat case_if; reflexivity.
  - unfold level_debug. case_if; [reflexivity | ].
    destruct utilisateur as [m | ]; [ | reflexivity]. cbn [fst].
    rewrite get_user_data_config. reflexivity.
  - unfold blacklist_list_channels. repeat (case_if; [reflexivity | ]).
    destruct (default _ _); reflexivity.
  - unfold blacklist_add_channel. repeat case_if; reflexivity.
  - unfold blacklist_remove_channel. repeat case_if; reflexivity.
  - unfold show_xp_settings. repeat case_if; reflexivity.
  - unfold set_xp_settings. repeat (case_if; [reflexivity | ]).
    destruct exp_per_message' as [v | ];
      [case_if; [reflexivity | ] | ];
      rewrite set_xp_voice_admin_roles; reflexivity.
  - unfold role_multiplier_set. repeat case_if; reflexivity.
  - unfold role_multiplier_list. repeat (case_if; [reflexivity | ]).
    destruct (default _ _); reflexivity.
  - unfold set_level_reward. repeat case_if; reflexivity.
  - unfold remove_level_reward. repeat case_if; reflexivity.
  - unfold list_level_rewards. repeat (case_if; [reflexivity | ]).
    destruct (default _ _); reflexivity.
  - unfold set_rewards_message. repeat (case_if; [reflexivity | ]).
    destruct message; repeat case_if; reflexivity.
  - unfold list_rewards_messages. repeat (case_if; [reflexivity | ]).
    destruct (default _ _); reflexivity.
  - unfold set_rewards_channel. repeat (case_if; [reflexivity | ]).
    destruct channel; [reflexivity | ].
    destruct (level_channel_id _); repeat case_if; reflexivity.
  - unfold add_admin_role. repeat case_if; reflexivity.
  - unfold remove_admin_role. repeat (case_if; [reflexivity | ]).
    destruct (default _ _); repeat case_if; reflexivity.
  - unfold list_admin_roles. repeat (case_if; [reflexivity | ]).
    destruct (default _ _); reflexivity.
Qed.

Lemma on_message_config st message now :
  config (fst (on_message st message now)) = config st.
Proof.
  unfold on_message.
  repeat (case_if; [reflexivity | ]).
  destruct (scaled_exp _ _) as [e | final_exp]; [reflexivity | ].
  pose proof (update_user_exp_config st (author message) final_exp MESSAGE now)
    as Hc.
  destruct (update_user_exp _ _ _ _ _) as [st1 up]. cbn [fst] in *.
  exact Hc.
Qed.

(** What the next theorem leaves out: the roles of the member.  A reward
    task that grants a role listed in [admin_roles] turns the member into an
    administrator. *)
Lemma reward_role_opens_commands :
  is_admin (config st_admin_reward) alice = false
  /\ is_admin
       (config (fst (update_rewards int_of_decimal always always always
                       st_admin_reward alice 7)))
       (with_roles alice
          (snd (update_rewards int_of_decimal always always always
                  st_admin_reward alice 7)))
     = true.
Proof. split; vm_compute; reflexivity. Qed.

(** X22.  No message, voice tick, reward task or command writes the key
    [admin_roles]; so for a member taken with the same roles and the same
    permission before and after, [is_admin] answers the same.  The
    manager-role commands write the key [level_manager_roles], which
    [is_admin] does not read; so a role added with [/xp-manager-roles add]
    opens no command to its holders.  The roles of the member are not part
    of the state: a reward task can change them. *)
Theorem step_keeps_admins int_of_str guild_has_role add_roles_ok
    remove_roles_ok (st : State) (ev : Event) :
  admin_roles
    (config (step int_of_str guild_has_role add_roles_ok remove_roles_ok
               st ev))
  = admin_roles (config st)
  /\ forall member : Member,
       is_admin
         (config (step int_of_str guild_has_role add_roles_ok remove_roles_ok
                    st ev)) member
       = is_admin (config st) member.
Proof.
  assert (Ha : admin_roles
                 (config (step int_of_str guild_has_role add_roles_ok
                            remove_roles_ok st ev))
               = admin_roles (config st)).
  { destruct ev as [message now | guilds now | i c now | m member_level];
      cbn [step].
    - rewrite on_message_config. reflexivity.
    - rewrite voice_exp_task_state. reflexivity.
    - apply run_command_admin_roles.
    - rewrite (proj2 (update_rewards_user_levels int_of_str guild_has_role
                        add_roles_ok remove_roles_ok st m member_level)).
      reflexivity. }
  split; [exact Ha | ].
  intros member. unfold is_admin. rewrite Ha. reflexivity.
Qed.

(** ** The announcement *)

(** X23.  The custom messages set with [/xp-rewards-messages set] are
    never announced: the command writes the key [rewards_messages] while
    [announce_reward] reads the key [reward_messages], so whatever the
    command is given, the announcement of every member and level is the one
    it was before the command. *)
Theorem set_rewards_message_not_announced reward_messages guild_has_channel
    format_ok (st : State) (i : Interaction) (niveau : Z)
    (message : option string) (member : Member) (level : Z) :
  announce_reward reward_messages guild_has_channel format_ok
    (fst (set_rewards_message st i niveau message)) member level
  = announce_reward reward_messages guild_has_channel format_ok st member
      level.
Proof.
  assert (H : level_channel_id
                (config (fst (set_rewards_message st i niveau message)))
              = level_channel_id (config st)
              /\ level_rewards
                   (config (fst (set_rewards_message st i niveau message)))
                 = level_rewards (config st)).
  { unfold set_rewards_message.
    repeat (case_if; [split; reflexivity | ]).
    destruct message; repeat case_if; split; reflexivity. }
  destruct H as [Hc Hr]. unfold announce_reward. rewrite Hc, Hr. reflexivity.
Qed.

(** ** The cached level, and an addition the store cannot hold *)

(** X24.  The level column is a cache of the points: if every row stores
    the level [calculate_level] returns for its points (and the two rates
    are not negative), this is still so after a message, a voice tick, a
    command or a reward task. *)
Theorem step_keeps_level_cache int_of_str guild_has_role add_roles_ok
    remove_roles_ok (st : State) (ev : Event) :
  rates_nonneg (config st) ->
  Forall (fun r => calculate_level (exp r) = Some (level r)) (user_levels st) ->
  Forall (fun r => calculate_level (exp r) = Some (level r))
         (user_levels (step int_of_str guild_has_role add_roles_ok
                         remove_roles_ok st ev)).
Proof.
  apply step_level_cached.
Qed.

Lemma step_keeps_level_cache_witness :
  Forall (fun r => calculate_level (exp r) = Some (level r))
         (user_levels
            (step int_of_decimal always always always
                  (fst (set_exp st_ready by_admin alice 300))
                  (EvMessage (mkMessage alice (Some 10) 7) 0))).
Proof.
  apply (step_keeps_level_cache int_of_decimal always always always
           (fst (set_exp st_ready by_admin alice 300))
           (EvMessage (mkMessage alice (Some 10) 7) 0)).
  - split; vm_compute; intros H; discriminate H.
  - apply Forall_cons; [vm_compute; reflexivity | apply Forall_nil].
Defined.

(** X25.  An addition the store cannot hold is reported as done: when the
    points of the user plus [montant] reach [2^63], the update fails inside
    [update_user_exp], which returns [(0, 0, 0)]; [/xp add] still answers
    with the embed "EXP Ajoutée", spawns no reward task, and the points are
    the ones the user had. *)
Theorem add_exp_overflow_reported_done (st : State) (i : Interaction)
    (utilisateur : Member) (montant now : Z) :
  is_admin (config st) (user i) = true -> db_ready st = true ->
  let g := member_guild utilisateur in
  let u := member_id utilisateur in
  let before := lookup st g u in
  0 < montant -> 2 ^ 63 <= ud_exp before + montant ->
  snd (add_exp st i utilisateur montant now)
  = mkReply (inr (Embed "EXP Ajoutée")) []
  /\ lookup (fst (add_exp st i utilisateur montant now)) g u = before.
Proof.
  intros Hadm Hdb g u before Hm Hbig.
  rewrite add_exp_accepted by assumption. cbn [fst snd].
  assert (Hup : update_user_exp st utilisateur montant MESSAGE now
                = (fst (get_user_data st g u), no_update)).
  { unfold update_user_exp. rewrite Hdb. cbn [negb]. fold g u.
    unfold before, lookup in Hbig.
    destruct (get_user_data st g u) as [st1 user_data]. cbn [fst snd] in *.
    assert (Hfit : fits_sqlite_integer
                     (Z.max 0 (ud_exp user_data + montant)) = false).
    { unfold fits_sqlite_integer. apply andb_false_iff. right.
      apply Z.ltb_ge. lia. }
    destruct (calculate_level _) as [new | ]; [ | reflexivity].
    rewrite Hfit. reflexivity. }
  rewrite Hup. cbn [fst snd spawned no_update].
  split; [reflexivity | apply lookup_get_user_data].
Qed.

Lemma add_exp_overflow_reported_done_witness :
  let st1 := fst (set_exp st_ready by_admin alice (2 ^ 63 - 1)) in
  snd (add_exp st1 by_admin alice 1 0)
  = mkReply (inr (Embed "EXP Ajoutée")) []
  /\ lookup (fst (add_exp st1 by_admin alice 1 0)) 10 2 = lookup st1 10 2.
Proof.
  apply (add_exp_overflow_reported_done
           (fst (set_exp st_ready by_admin alice (2 ^ 63 - 1)))
           by_admin alice 1 0);
    reflexivity.
Defined.
